(** * derphttp: the reconnecting DERP-over-HTTP client

    A shallow embedding of package [derphttp] (type [Client] and its
    methods) and the properties of its connection supervisor.

    Conventions of the embedding.
    - A Go pointer is an address ([ptr]); [nil] is [None].  Objects created
      while a method runs ([net.Conn], [*tls.Conn], [*derp.Client]) are
      allocated from a counter, so two allocations never alias.
    - A method that touches the network is a computation in the monad [M]:
      it threads the allocation counter and collects the [Event]s it causes,
      in order.
    - What the collaborators answer (DNS, dialer, TLS, HTTP, the DERP client,
      the scheduler of the dial race) is read from an [Env] record.
    - [c.mu] serialises the critical sections.  Each critical section is one
      atomic [Step]; a method that releases the mutex in the middle is the
      sequence of its sections, with the steps of the other goroutines that
      run in between given as a list.
    - A nil dereference panics and [log.Fatal] ends the process: in both
      cases the call does not return ([Panics]).
    - Calls of [c.logf] only feed the caller's log sink and are left out. *)

From Stdlib Require Import ZArith List String Ascii Bool Lia DecimalString.
From Stdlib.Strings Require Import Byte.
From Stdlib Require Import Permutation.
Import ListNotations.
Open Scope string_scope.
Open Scope Z_scope.

(** ** Values *)

Definition ptr := nat.

(** Go's [int] on the 64-bit platforms: arithmetic wraps around. *)
Definition int_bits : Z := 64.
Definition max_int : Z := 2 ^ (int_bits - 1) - 1.
Definition wrap_int (x : Z) : Z :=
  (x + 2 ^ (int_bits - 1)) mod 2 ^ int_bits - 2 ^ (int_bits - 1).

(** [error] values.  [ErrClientClosed] is the package variable; callers
    compare with it by identity, so it has a constructor of its own. *)
Inductive error : Type :=
| ErrClientClosed
| errorString (msg : string)   (* errors.New, fmt.Errorf *)
| extError (msg : string).     (* an error made by a collaborator *)

Definition Error (e : error) : string :=
  match e with
  | ErrClientClosed => "derphttp.Client closed"
  | errorString m => m
  | extError m => m
  end.

(** The result of a Go function that returns [(T, error)] with exactly one
    of the two set. *)
Inductive result (A : Type) : Type :=
| Ok (a : A)
| Err (e : error).
Arguments Ok {A} a.
Arguments Err {A} e.

(** A call either returns or panics (a nil dereference). *)
Inductive outcome (A : Type) : Type :=
| Returns (a : A)
| Panics.
Arguments Returns {A} a.
Arguments Panics {A}.

(** [fmt.Sprint] and [%d] of an integer. *)
Definition Sprint_int (z : Z) : string := NilZero.string_of_int (Z.to_int z).

(** [%v] of an [error] that may be nil. *)
Definition Sprint_err (e : option error) : string :=
  match e with Some x => Error x | None => "<nil>" end.

Definition CRLF : string :=
  String (ascii_of_nat 13) (String (ascii_of_nat 10) EmptyString).

(** [%q] of a string without characters to escape. *)
Definition Sprint_q (s : string) : string :=
  String (ascii_of_nat 34) (s ++ String (ascii_of_nat 34) EmptyString).

Fixpoint contains_byte (s : string) (c : ascii) : bool :=
  match s with
  | EmptyString => false
  | String a r => Ascii.eqb a c || contains_byte r c
  end.

(** [net.JoinHostPort]. *)
Definition JoinHostPort (host port : string) : string :=
  if contains_byte host ":" then "[" ++ host ++ "]:" ++ port
  else host ++ ":" ++ port.

Definition HasPrefix (s pre : string) : bool := String.prefix pre s.

Definition TrimPrefix (s pre : string) : string :=
  if HasPrefix s pre
  then substring (String.length pre) (String.length s - String.length pre) s
  else s.

Definition firstStr (a b : string) : string :=
  if String.eqb a "" then b else a.

(** ** Keys and certificates *)

(** [key.Public] is [[32]byte]. *)
Definition Public := list byte.
Definition Public_zero : Public := repeat x00 32.

Definition byte_eqb (a b : byte) : bool := N.eqb (Byte.to_N a) (Byte.to_N b).

Fixpoint bytes_eqb (a b : list byte) : bool :=
  match a, b with
  | [], [] => true
  | x :: a', y :: b' => byte_eqb x y && bytes_eqb a' b'
  | _, _ => false
  end.

Definition IsZero (k : Public) : bool := bytes_eqb k Public_zero.

(** Modelled from the spec: [key.NewPublicFromHexMem] is declared in package
    [types/key], which is not among the sources; the remainder of the common
    name is "a hex-encoded server public key", 64 hex digits for the 32 bytes. *)
Definition fromHexChar (c : ascii) : option N :=
  let n := N_of_ascii c in
  if ((48 <=? n) && (n <=? 57))%N then Some (n - 48)%N
  else if ((97 <=? n) && (n <=? 102))%N then Some (n - 97 + 10)%N
  else if ((65 <=? n) && (n <=? 70))%N then Some (n - 65 + 10)%N
  else None.

Definition byte_of_nibbles (a b : N) : byte :=
  match Byte.of_N (a * 16 + b) with Some x => x | None => x00 end.

Fixpoint hex_bytes (s : string) : option (list byte) :=
  match s with
  | EmptyString => Some []
  | String c1 (String c2 r) =>
      match fromHexChar c1, fromHexChar c2, hex_bytes r with
      | Some a, Some b, Some l => Some (byte_of_nibbles a b :: l)
      | _, _, _ => None
      end
  | String _ EmptyString => None
  end.

Definition NewPublicFromHexMem (m : string) : result Public :=
  if negb (Nat.eqb (String.length m) 64) then Err (errorString "invalid length")
  else match hex_bytes m with
       | Some p => Ok p
       | None => Err (errorString "invalid hex character")
       end.

(** The fields of [x509.Certificate] that are read; [SerialNumber] is a
    [*big.Int]. *)
Record Certificate : Type := {
  CommonName : string;
  SerialNumber : Z
}.

(** [big.Int.BitLen]: the length of the absolute value in bits. *)
Definition BitLen (x : Z) : Z :=
  if Z.abs x =? 0 then 0 else Z.log2 (Z.abs x) + 1.

(** [big.Int.Int64]: the low 64 bits of the magnitude as an [int64], negated
    for a negative number. *)
Definition Int64 (x : Z) : Z :=
  let v := wrap_int (Z.abs x mod 2 ^ 64) in
  if x <? 0 then wrap_int (- v) else v.

Record ConnectionState : Type := {
  Version : Z;                       (* uint16 *)
  PeerCertificates : list Certificate
}.

Definition VersionTLS13 : Z := 772.  (* 0x0304 *)

(** [parseMetaCert], lines 809-820. *)
Fixpoint parseMetaCert (certs : list Certificate) : Public * Z :=
  match certs with
  | [] => (Public_zero, 0)
  | cert :: rest =>
      let cn := CommonName cert in
      if HasPrefix cn "derpkey" then
        match NewPublicFromHexMem (TrimPrefix cn "derpkey") with
        | Ok serverPub =>
            if BitLen (SerialNumber cert) <=? 8
            then (serverPub, Int64 (SerialNumber cert))
            else parseMetaCert rest
        | _ => parseMetaCert rest
        end
      else parseMetaCert rest
  end.

(** ** Directory and target *)

(** [url.URL], with what [Hostname], [Port] and [String] return. *)
Record URL : Type := {
  Scheme : string;
  Host : string;
  Hostname : string;
  Port : string;
  URL_String : string
}.

(** Modelled from the spec: [tailcfg.DERPNode] and [tailcfg.DERPRegion] are
    declared in package [tailcfg], which is not among the sources; a node
    carries a host name, optional IPv4 and IPv6 literals, an optional port
    (default 443), an optional pinned certificate name, the "insecure for
    tests" flag and the [STUNOnly] flag; a region carries its id, its code
    and the ordered list of its nodes. *)
Record DERPNode : Type := {
  HostName : string;
  CertName : string;
  IPv4 : string;
  IPv6 : string;
  DERPPort : Z;
  STUNOnly : bool;
  InsecureForTests : bool
}.

Record DERPRegion : Type := {
  RegionID : Z;
  RegionCode : string;
  Nodes : list DERPNode
}.

(** [netaddr.IP]: the zero value, an IPv4 address or an IPv6 address. *)
Inductive IP : Type :=
| IP_zero
| IP_v4 (a : list byte)
| IP_v6 (a : list byte) (zone : string).

Definition Is4 (ip : IP) : bool :=
  match ip with IP_v4 _ => true | _ => false end.

Definition Is6 (ip : IP) : bool :=
  match ip with IP_v6 _ _ => true | _ => false end.

(** [tls.Config]: the fields set here. *)
Record tlsConfig : Type := {
  ServerName : string;
  InsecureSkipVerify : bool;
  ExpectedCert : string;           (* tlsdial.SetConfigExpectedCert *)
  KeyLogWriter : option string     (* the file the session keys go to *)
}.

Definition tlsConfig_zero : tlsConfig :=
  {| ServerName := ""; InsecureSkipVerify := false;
     ExpectedCert := ""; KeyLogWriter := None |}.

Record Request : Type := {
  Method : string;
  RequestURL : string;
  Header : list (string * string)
}.

Fixpoint Header_Set (h : list (string * string)) (k v : string)
  : list (string * string) :=
  match h with
  | [] => [(k, v)]
  | (k', v') :: r =>
      if String.eqb k' k then (k, v) :: r else (k', v') :: Header_Set r k v
  end.

Definition Request_Set (r : Request) (k v : string) : Request :=
  {| Method := Method r; RequestURL := RequestURL r;
     Header := Header_Set (Header r) k v |}.

Record Response : Type := {
  StatusCode : Z;
  Status : string;
  Body : string
}.

Definition StatusSwitchingProtocols : Z := 101.
Definition fastStartHeader : string := "Derp-Fast-Start".
Definition ReceivedMessage := string.

(** ** The handle *)

Record Client : Type := {
  TLSConfig : option tlsConfig;
  DNSCache : bool;                 (* non-nil? its answers are in [Env] *)
  MeshKey : string;
  IsProber : bool;
  privateKey : list byte;
  url : option URL;
  getRegion : option (unit -> option DERPRegion);
  ctx : option bool;               (* c.ctx with c.cancelCtx: done? *)
  preferred : bool;
  canAckPings : bool;
  closed : bool;
  netConn : option ptr;
  client : option ptr;
  connGen : Z;
  serverPubKey : Public
}.

Definition set_preferred (c : Client) (v : bool) : Client :=
  {| TLSConfig := TLSConfig c; DNSCache := DNSCache c; MeshKey := MeshKey c;
     IsProber := IsProber c; privateKey := privateKey c; url := url c;
     getRegion := getRegion c; ctx := ctx c;
     preferred := v; canAckPings := canAckPings c; closed := closed c;
     netConn := netConn c; client := client c; connGen := connGen c;
     serverPubKey := serverPubKey c |}.

Definition set_canAckPings (c : Client) (v : bool) : Client :=
  {| TLSConfig := TLSConfig c; DNSCache := DNSCache c; MeshKey := MeshKey c;
     IsProber := IsProber c; privateKey := privateKey c; url := url c;
     getRegion := getRegion c; ctx := ctx c;
     preferred := preferred c; canAckPings := v; closed := closed c;
     netConn := netConn c; client := client c; connGen := connGen c;
     serverPubKey := serverPubKey c |}.

Definition set_closed (c : Client) (v : bool) : Client :=
  {| TLSConfig := TLSConfig c; DNSCache := DNSCache c; MeshKey := MeshKey c;
     IsProber := IsProber c; privateKey := privateKey c; url := url c;
     getRegion := getRegion c; ctx := ctx c;
     preferred := preferred c; canAckPings := canAckPings c; closed := v;
     netConn := netConn c; client := client c; connGen := connGen c;
     serverPubKey := serverPubKey c |}.

Definition set_ctx (c : Client) (v : option bool) : Client :=
  {| TLSConfig := TLSConfig c; DNSCache := DNSCache c; MeshKey := MeshKey c;
     IsProber := IsProber c; privateKey := privateKey c; url := url c;
     getRegion := getRegion c; ctx := v;
     preferred := preferred c; canAckPings := canAckPings c; closed := closed c;
     netConn := netConn c; client := client c; connGen := connGen c;
     serverPubKey := serverPubKey c |}.

Definition set_netConn (c : Client) (v : option ptr) : Client :=
  {| TLSConfig := TLSConfig c; DNSCache := DNSCache c; MeshKey := MeshKey c;
     IsProber := IsProber c; privateKey := privateKey c; url := url c;
     getRegion := getRegion c; ctx := ctx c;
     preferred := preferred c; canAckPings := canAckPings c; closed := closed c;
     netConn := v; client := client c; connGen := connGen c;
     serverPubKey := serverPubKey c |}.

Definition set_client (c : Client) (v : option ptr) : Client :=
  {| TLSConfig := TLSConfig c; DNSCache := DNSCache c; MeshKey := MeshKey c;
     IsProber := IsProber c; privateKey := privateKey c; url := url c;
     getRegion := getRegion c; ctx := ctx c;
     preferred := preferred c; canAckPings := canAckPings c; closed := closed c;
     netConn := netConn c; client := v; connGen := connGen c;
     serverPubKey := serverPubKey c |}.

Definition set_connGen (c : Client) (v : Z) : Client :=
  {| TLSConfig := TLSConfig c; DNSCache := DNSCache c; MeshKey := MeshKey c;
     IsProber := IsProber c; privateKey := privateKey c; url := url c;
     getRegion := getRegion c; ctx := ctx c;
     preferred := preferred c; canAckPings := canAckPings c; closed := closed c;
     netConn := netConn c; client := client c; connGen := v;
     serverPubKey := serverPubKey c |}.

Definition set_serverPubKey (c : Client) (v : Public) : Client :=
  {| TLSConfig := TLSConfig c; DNSCache := DNSCache c; MeshKey := MeshKey c;
     IsProber := IsProber c; privateKey := privateKey c; url := url c;
     getRegion := getRegion c; ctx := ctx c;
     preferred := preferred c; canAckPings := canAckPings c; closed := closed c;
     netConn := netConn c; client := client c; connGen := connGen c;
     serverPubKey := v |}.

(** [NewRegionClient], [NewNetcheckClient] and [NewClient] (lines 77-115);
    [url.Parse] has been applied by the caller of [NewClient]. *)
Definition NewRegionClient (privateKey : list byte)
    (getRegion : option (unit -> option DERPRegion)) : Client :=
  {| TLSConfig := None; DNSCache := false; MeshKey := ""; IsProber := false;
     privateKey := privateKey; url := None; getRegion := getRegion;
     ctx := Some false;
     preferred := false; canAckPings := false; closed := false;
     netConn := None; client := None; connGen := 0;
     serverPubKey := Public_zero |}.

Definition NewNetcheckClient : Client :=
  {| TLSConfig := None; DNSCache := false; MeshKey := ""; IsProber := false;
     privateKey := []; url := None; getRegion := None; ctx := None;
     preferred := false; canAckPings := false; closed := false;
     netConn := None; client := None; connGen := 0;
     serverPubKey := Public_zero |}.

Definition urlPort (u : URL) : string :=
  if negb (String.eqb (Port u) "") then Port u
  else if String.eqb (Scheme u) "https" then "443"
  else if String.eqb (Scheme u) "http" then "80"
  else "".

Definition NewClient (privateKey : list byte) (u : URL) : result Client :=
  if String.eqb (urlPort u) "" then
    Err (errorString ("derphttp.NewClient: invalid URL scheme " ++ Sprint_q (Scheme u)))
  else
    Ok {| TLSConfig := None; DNSCache := false; MeshKey := ""; IsProber := false;
          privateKey := privateKey; url := Some u; getRegion := None;
          ctx := Some false;
          preferred := false; canAckPings := false; closed := false;
          netConn := None; client := None; connGen := 0;
          serverPubKey := Public_zero |}.

(** ** Effects *)

Inductive Event : Type :=
| EvLookupIP (host : string)                    (* DNSCache.LookupIP *)
| EvDial (network addr : string)                (* a DialContext: a socket is opened *)
| EvDialTLS (network addr : string)             (* tls.Dialer.DialContext: a socket is
                                                   opened and a TLS handshake run on it *)
| EvConnClose (conn : ptr)                      (* Close of a connection *)
| EvConnWrite (conn : ptr) (data : string)      (* bytes written to a connection *)
| EvTLSClient (tlsConn nc : ptr) (conf : tlsConfig)
| EvHandshake (tlsConn : ptr)
| EvReqWrite (conn : ptr) (req : Request)       (* req.Write(brw) *)
| EvFlush (conn : ptr)                          (* brw.Flush() *)
| EvReadResponse (conn : ptr)                   (* http.ReadResponse *)
| EvDerpNewClient (cl conn : ptr) (meshKey : string) (serverPub : Public)
                  (canAckPings isProber : bool)
| EvDerpNotePreferred (cl : ptr) (v : bool)
| EvDerpSendPong (cl : ptr) (data : list byte)
| EvDerpRecv (cl : ptr).

(** The scheduler of one dial race: whether the [tcp6] result reaches the
    channel first, and after how many received results [ctx.Done()] wins the
    [select] (never, when [None]). *)
Record Race : Type := {
  v6_first : bool;
  ctx_done_after : option nat;
  race_ctx_err : error
}.

(** What the collaborators answer. *)
Record Env : Type := {
  env_ParseIP : string -> option IP;                     (* netaddr.ParseIP; None: error, zero IP *)
  env_LookupIP : string -> result string;                (* ip.String() *)
  env_IsSOCKSDialer : bool;
  env_DialContext : string -> string -> option error;    (* netns dialer *)
  env_ProxyFromEnvironment : string -> option URL * option error;
  env_Race : DERPNode -> Race;
  env_ProxyDial : bool -> string -> option error;        (* tls.Dialer (true) or net.Dialer *)
  env_GetAuthHeader : URL -> string * option error;
  env_proxy_Fprintf : option error;
  env_proxy_ReadResponse : result Response;
  env_proxy_ctx_err : option error;                      (* ctx.Err() on the proxy path *)
  env_proxy_watcher : bool;                              (* ctx done before the CONNECT exchange ended *)
  env_SSLKEYLOGFILE : string;
  env_OpenFile : option error;                           (* os.OpenFile of the key log *)
  env_Handshake : option error;
  env_ConnectionState : ConnectionState;
  env_NewRequest : option error;
  env_req_Write : option error;
  env_Flush : option error;
  env_ReadResponse : result Response;
  env_derp_NewClient : Public -> result Public;          (* the new client's ServerPublicKey() *)
  env_derp_NotePreferred : ptr -> bool -> option error;
  env_derp_SendPong : ptr -> list byte -> option error;
  env_derp_Recv : ptr -> option ReceivedMessage * option error;
  env_watcher : bool;                                    (* ctx done before the upgrade ended *)
  env_ctx_err : option error                             (* ctx.Err() when connect returns *)
}.

(** The monad: the next free address goes in; whether the call returned or
    panicked, the next free address and the events come out. *)
Definition M (A : Type) : Type := ptr -> outcome A * ptr * list Event.

Definition ret {A} (a : A) : M A := fun n => (Returns a, n, []).

Definition bind {A B} (m : M A) (k : A -> M B) : M B :=
  fun n =>
    let '(o, n1, t1) := m n in
    match o with
    | Returns a => let '(b, n2, t2) := k a n1 in (b, n2, (t1 ++ t2)%list)
    | Panics => (Panics, n1, t1)
    end.

Definition panic {A} : M A := fun n => (Panics, n, []).

Definition emit (e : Event) : M unit := fun n => (Returns tt, n, [e]).

Definition alloc : M ptr := fun n => (Returns n, S n, []).

Definition when (b : bool) (m : M unit) : M unit := if b then m else ret tt.

(** Dereference of a pointer that may be nil. *)
Definition deref {A} (p : option A) : M A :=
  match p with Some a => ret a | None => panic end.

Declare Scope go_scope.
Delimit Scope go_scope with go.
Notation "x <- m ;; k" := (bind m (fun x => k))
  (at level 61, m at next level, right associativity) : go_scope.
Notation "' pat <- m ;; k" := (bind m (fun x => match x with pat => k end))
  (at level 61, pat pattern, m at next level, right associativity) : go_scope.
Notation "m ;;; k" := (bind m (fun _ => k))
  (at level 61, right associativity) : go_scope.
Open Scope go_scope.

Definition value {A} (r : outcome A * ptr * list Event) : outcome A := fst (fst r).
Definition next_free {A} (r : outcome A * ptr * list Event) : ptr := snd (fst r).
Definition events {A} (r : outcome A * ptr * list Event) : list Event := snd r.

(** A computation never gives an address back. *)
Definition mono {A} (m : M A) : Prop := forall n, (n <= next_free (m n))%nat.

(** ** Naming the target (lines 152-179) *)

Definition targetString (c : Client) (reg : option DERPRegion) : M string :=
  match url c with
  | Some u => ret (URL_String u)
  | None =>
      r <- deref reg ;;
      ret ("region " ++ Sprint_int (RegionID r) ++ " (" ++ RegionCode r ++ ")")
  end.

Definition useHTTPS (c : Client) : bool :=
  match url c with
  | Some u => negb (String.eqb (Scheme u) "http")
  | None => true
  end.

Definition tlsServerName (c : Client) (node : option DERPNode) : M string :=
  match url c with
  | Some u => ret (Host u)
  | None => n <- deref node ;; ret (HostName n)
  end.

Definition urlString (c : Client) (node : option DERPNode) : M string :=
  match url c with
  | Some u => ret (URL_String u)
  | None => n <- deref node ;; ret ("https://" ++ HostName n ++ "/derp")
  end.

(** ** Dialing *)

(** [Client.dialContext] (lines 464-466): one dial of the netns dialer. *)
Definition dialContext (e : Env) (proto addr : string) : M (result ptr) :=
  emit (EvDial proto addr) ;;;
  match env_DialContext e proto addr with
  | Some err => ret (Err err)
  | None => conn <- alloc ;; ret (Ok conn)
  end.

(** [Client.dialURL] (lines 366-389). *)
Definition dialURL (e : Env) (c : Client) : M (result ptr) :=
  u <- deref (url c) ;;
  let host := Hostname u in
  r <- (if DNSCache c then
          emit (EvLookupIP host) ;;;
          match env_LookupIP e host with
          | Ok ip => ret (Ok ip)
          | Err err =>
              if env_IsSOCKSDialer e then ret (Err err) else ret (Ok host)
          end
        else ret (Ok host)) ;;
  match r with
  | Err err => ret (Err err)
  | Ok hostOrIP =>
      tc <- dialContext e "tcp" (JoinHostPort hostOrIP (urlPort u)) ;;
      match tc with
      | Err err =>
          ret (Err (errorString ("dial of " ++ host ++ ": " ++ Error err)))
      | Ok tcpConn => ret (Ok tcpConn)
      end
  end.

(** [shouldDialProto] (lines 472-478); [ip, _ := netaddr.ParseIP(s)] leaves
    the zero [IP] in [ip] when the parse fails. *)
Definition shouldDialProto (e : Env) (s : string) (pred : IP -> bool) : bool :=
  if String.eqb s "" then true
  else
    let ip := match env_ParseIP e s with Some ip => ip | None => IP_zero end in
    pred ip.

(** [dialNodeUsingProxy] (lines 570-631).  An [https] proxy is dialed with a
    [tls.Dialer], any other with a [net.Dialer].  The watcher goroutine closes
    [proxyConn] when the context ended before [done] was closed.  The
    deferred close of lines 579-585 tests the named result [proxyConn], which
    every failing [return nil, ...] has set to nil by then, so it closes
    nothing. *)
Definition dialNodeUsingProxy (e : Env) (n : DERPNode) (pu : URL)
  : M (result ptr) :=
  let https := String.eqb (Scheme pu) "https" in
  let addr := JoinHostPort (Hostname pu)
                (firstStr (Port pu) (if https then "443" else "80")) in
  emit (if https then EvDialTLS "tcp" addr else EvDial "tcp" addr) ;;;
  match env_ProxyDial e https addr with
  | Some err => ret (Err err)
  | None =>
      proxyConn <- alloc ;;
      let target := JoinHostPort (HostName n) "443" in
      let authHeader :=
        match env_GetAuthHeader e pu with
        | (_, Some _) => ""
        | (v, None) =>
            if String.eqb v "" then ""
            else "Proxy-Authorization: " ++ v ++ CRLF
        end in
      emit (EvConnWrite proxyConn
              ("CONNECT " ++ target ++ " HTTP/1.1" ++ CRLF
               ++ "Host: " ++ Hostname pu ++ CRLF ++ authHeader ++ CRLF)) ;;;
      r <- match env_proxy_Fprintf e with
           | Some err =>
               ret (Err (match env_proxy_ctx_err e with
                         | Some ce => ce
                         | None => err
                         end))
           | None =>
               emit (EvReadResponse proxyConn) ;;;
               match env_proxy_ReadResponse e with
               | Err err =>
                   ret (Err (match env_proxy_ctx_err e with
                             | Some ce => ce
                             | None => err
                             end))
               | Ok res =>
                   if negb (StatusCode res =? 200) then
                     ret (Err (errorString
                       ("invalid response status from HTTP proxy "
                        ++ URL_String pu ++ " on CONNECT to " ++ target
                        ++ ": " ++ Status res)))
                   else ret (Ok proxyConn)
               end
           end ;;
      when (env_proxy_watcher e) (emit (EvConnClose proxyConn)) ;;;
      ret r
  end.

(** The body of [startDial]'s goroutine (lines 514-522). *)
Definition startDial (e : Env) (n : DERPNode) (dstPrimary proto : string)
  : M (result ptr) :=
  let dst := if String.eqb dstPrimary "" then HostName n else dstPrimary in
  let port := if DERPPort n =? 0 then "443" else Sprint_int (DERPPort n) in
  dialContext e proto (JoinHostPort dst port).

(** The receive loop of [dialNode] (lines 542-559) over the results in the
    order they reach [resc]; [k] results have been received so far.  It
    returns what [dialNode] returns and the results nobody received. *)
Fixpoint race_loop (deadline : option nat) (ctxErr : error) (k : nat)
    (firstErr : option error) (arrivals : list (result ptr))
  : result ptr * list (result ptr) :=
  if match deadline with Some d => Nat.eqb d k | None => false end
  then (Err ctxErr, arrivals)
  else
    match arrivals with
    | [] => (Err ctxErr, [])        (* nothing left to receive: ctx.Done() *)
    | Ok conn :: rest => (Ok conn, rest)
    | Err err :: rest =>
        let firstErr' := match firstErr with
                         | None => err
                         | Some f => f
                         end in
        match rest with
        | [] => (Err firstErr', [])  (* nwait == 0 *)
        | _ => race_loop deadline ctxErr (S k) (Some firstErr') rest
        end
    end.

(** A racer whose result nobody received closes its connection when the
    context is cancelled (lines 525-528). *)
Fixpoint close_unreceived (l : list (result ptr)) : M unit :=
  match l with
  | [] => ret tt
  | Ok conn :: rest => emit (EvConnClose conn) ;;; close_unreceived rest
  | Err _ :: rest => close_unreceived rest
  end.

(** The racers [dialNode] starts (lines 532-537), with the results of their
    dials. *)
Definition start_racers (e : Env) (n : DERPNode) : M (list (result ptr)) :=
  r4 <- (if shouldDialProto e (IPv4 n) Is4
         then (r <- startDial e n (IPv4 n) "tcp4" ;; ret [r])
         else ret []) ;;
  r6 <- (if shouldDialProto e (IPv6 n) Is6
         then (r <- startDial e n (IPv6 n) "tcp6" ;; ret [r])
         else ret []) ;;
  ret (r4 ++ r6)%list.

(** [Client.dialNode] without a proxy: the race (lines 502-559). *)
Definition dialNode_race (e : Env) (n : DERPNode) : M (result ptr) :=
  started <- start_racers e n ;;
  match started with
  | [] =>                        (* nwait == 0 *)
      ret (Err (errorString
             "both IPv4 and IPv6 are explicitly disabled for node"))
  | _ =>
      let race := env_Race e n in
      let arrivals := if v6_first race then rev started else started in
      let '(r, unreceived) :=
        race_loop (ctx_done_after race) (race_ctx_err race) 0 None arrivals in
      close_unreceived unreceived ;;; ret r
  end.

(** [Client.dialNode] (lines 488-560). *)
Definition dialNode (e : Env) (c : Client) (n : DERPNode) : M (result ptr) :=
  host <- tlsServerName c (Some n) ;;
  match env_ProxyFromEnvironment e host with
  | (Some proxyURL, None) => dialNodeUsingProxy e n proxyURL
  | _ => dialNode_race e n
  end.

(** The loop of [Client.dialRegion] (lines 398-414). *)
Fixpoint dialRegion_loop (e : Env) (c : Client) (reg : DERPRegion)
    (nodes : list DERPNode) (firstErr : option error)
  : M (option ptr * option DERPNode * option error) :=
  match nodes with
  | [] => ret (None, None, firstErr)
  | n :: rest =>
      if STUNOnly n then
        match firstErr with
        | None =>
            t <- targetString c (Some reg) ;;
            dialRegion_loop e c reg rest
              (Some (errorString ("no non-STUNOnly nodes for " ++ t)))
        | Some _ => dialRegion_loop e c reg rest firstErr
        end
      else
        r <- dialNode e c n ;;
        match r with
        | Ok conn => ret (Some conn, Some n, None)
        | Err err =>
            dialRegion_loop e c reg rest
              (match firstErr with None => Some err | Some _ => firstErr end)
        end
  end.

(** [Client.dialRegion] (lines 394-415). *)
Definition dialRegion (e : Env) (c : Client) (reg : DERPRegion)
  : M (option ptr * option DERPNode * option error) :=
  match Nodes reg with
  | [] =>
      t <- targetString c (Some reg) ;;
      ret (None, None, Some (errorString ("no nodes for " ++ t)))
  | _ => dialRegion_loop e c reg (Nodes reg) None
  end.

(** ** TLS and the upgrade *)

(** Modelled from the spec: [tlsdial.Config] and
    [tlsdial.SetConfigExpectedCert] are declared in package [net/tlsdial],
    which is not among the sources; the first merges the handle's override
    with the expected server name, the second injects the node's pinned
    certificate name. *)
Definition tlsdial_Config (host : string) (base : option tlsConfig) : tlsConfig :=
  let conf := match base with Some b => b | None => tlsConfig_zero end in
  {| ServerName := host; InsecureSkipVerify := InsecureSkipVerify conf;
     ExpectedCert := ExpectedCert conf; KeyLogWriter := KeyLogWriter conf |}.

Definition SetConfigExpectedCert (conf : tlsConfig) (certName : string) : tlsConfig :=
  {| ServerName := ServerName conf; InsecureSkipVerify := InsecureSkipVerify conf;
     ExpectedCert := certName; KeyLogWriter := KeyLogWriter conf |}.

(** [Client.tlsClient] (lines 417-434); [log.Fatal] ends the process, so the
    call does not return. *)
Definition tlsClient (e : Env) (c : Client) (nc : ptr) (node : option DERPNode)
  : M ptr :=
  host <- tlsServerName c node ;;
  let tlsConf := tlsdial_Config host (TLSConfig c) in
  let tlsConf :=
    match node with
    | Some n =>
        let cf := {| ServerName := ServerName tlsConf;
                     InsecureSkipVerify := InsecureForTests n;
                     ExpectedCert := ExpectedCert tlsConf;
                     KeyLogWriter := KeyLogWriter tlsConf |} in
        if negb (String.eqb (CertName n) "")
        then SetConfigExpectedCert cf (CertName n)
        else cf
    | None => tlsConf
    end in
  tlsConf <- (if negb (String.eqb (env_SSLKEYLOGFILE e) "") then
                match env_OpenFile e with
                | Some _ => panic
                | None =>
                    ret {| ServerName := ServerName tlsConf;
                           InsecureSkipVerify := InsecureSkipVerify tlsConf;
                           ExpectedCert := ExpectedCert tlsConf;
                           KeyLogWriter := Some (env_SSLKEYLOGFILE e) |}
                end
              else ret tlsConf) ;;
  tlsConn <- alloc ;;
  emit (EvTLSClient tlsConn nc tlsConf) ;;;
  ret tlsConn.

(** What [connect] learns from the connection state (lines 293-296). *)
Definition metaCert (connState : ConnectionState) : Public * Z :=
  if Version connState >=? VersionTLS13
  then parseMetaCert (PeerCertificates connState)
  else (Public_zero, 0).

(** The test of line 311. *)
Definition fastStart (serverPub : Public) (serverProtoVersion : Z) : bool :=
  negb (IsZero serverPub) && negb (serverProtoVersion =? 0).

(** The HTTP exchange of [connect] (lines 311-342): [None] when it went
    through. *)
Definition httpUpgrade (e : Env) (httpConn : ptr) (req : Request)
    (serverPub : Public) (serverProtoVersion : Z) : M (option error) :=
  if fastStart serverPub serverProtoVersion then
    let req := Request_Set req fastStartHeader "1" in
    emit (EvReqWrite httpConn req) ;;;
    ret (env_req_Write e)
  else
    emit (EvReqWrite httpConn req) ;;;
    match env_req_Write e with
    | Some err => ret (Some err)
    | None =>
        emit (EvFlush httpConn) ;;;
        match env_Flush e with
        | Some err => ret (Some err)
        | None =>
            emit (EvReadResponse httpConn) ;;;
            match env_ReadResponse e with
            | Err err => ret (Some err)
            | Ok resp =>
                if negb (StatusCode resp =? StatusSwitchingProtocols) then
                  ret (Some (errorString
                         ("GET failed: " ++ Sprint_err None ++ ": " ++ Body resp)))
                else ret None
            end
        end
    end.

(** [connect] from the TCP connection on (lines 268-357): the new DERP client
    and its server key, or the error. *)
Definition upgrade (e : Env) (c : Client) (tcpConn : ptr) (node : option DERPNode)
  : M (result (ptr * Public)) :=
  h <- (if useHTTPS c then
          tlsConn <- tlsClient e c tcpConn node ;;
          emit (EvHandshake tlsConn) ;;;
          match env_Handshake e with
          | Some err => ret (Err err)
          | None => ret (Ok (tlsConn, metaCert (env_ConnectionState e)))
          end
        else ret (Ok (tcpConn, (Public_zero, 0)))) ;;
  match h with
  | Err err => ret (Err err)
  | Ok (httpConn, (serverPub, serverProtoVersion)) =>
      u <- urlString c node ;;
      match env_NewRequest e with
      | Some err => ret (Err err)
      | None =>
          let req := {| Method := "GET"; RequestURL := u; Header := [] |} in
          let req := Request_Set req "Upgrade" "DERP" in
          let req := Request_Set req "Connection" "Upgrade" in
          herr <- httpUpgrade e httpConn req serverPub serverProtoVersion ;;
          match herr with
          | Some err => ret (Err err)
          | None =>
              match env_derp_NewClient e serverPub with
              | Err err => ret (Err err)
              | Ok pub =>
                  derpClient <- alloc ;;
                  emit (EvDerpNewClient derpClient httpConn (MeshKey c)
                          serverPub (canAckPings c) (IsProber c)) ;;;
                  if preferred c then
                    emit (EvDerpNotePreferred derpClient true) ;;;
                    match env_derp_NotePreferred e derpClient true with
                    | Some err =>
                        emit (EvConnClose httpConn) ;;; ret (Err err)
                    | None => ret (Ok (derpClient, pub))
                    end
                  else ret (Ok (derpClient, pub))
              end
          end
      end
  end.

(** ** The connection supervisor *)

(** [connect] between the deferred function and the commit (lines 232-357):
    the TCP connection, if one was made, and the outcome of the attempt. *)
Definition connect_attempt (e : Env) (c : Client) (reg : option DERPRegion)
  : M (option ptr * result (ptr * Public)) :=
  ' (tcpConn, node, err) <-
      match url c with
      | Some _ =>
          r <- dialURL e c ;;
          match r with
          | Ok conn => ret (Some conn, None, None)
          | Err err => ret (None, None, Some err)
          end
      | None => r <- deref reg ;; dialRegion e c r
      end ;;
  match err with
  | Some err => ret (tcpConn, Err err)
  | None =>
      tc <- deref tcpConn ;;
      r <- upgrade e c tc node ;;
      when (env_watcher e) (emit (EvConnClose tc)) ;;;
      ret (tcpConn, r)
  end.

(** [Client.connect] (lines 181-364), one critical section. *)
Definition connect (e : Env) (caller : string) (c : Client)
  : M (result (ptr * Z) * Client) :=
  if closed c then ret (Err ErrClientClosed, c)
  else
    match client c with
    | Some cl => ret (Ok (cl, connGen c), c)
    | None =>
        match (match getRegion c with
               | Some f =>
                   match f tt with
                   | Some r => Ok (Some r)
                   | None => Err (errorString "DERP region not available")
                   end
               | None => Ok None
               end) with
        | Err err => ret (Err err, c)
        | Ok reg =>
            ' (tcpConn, r) <- connect_attempt e c reg ;;
            match r with
            | Err err =>
                let err :=
                  match env_ctx_err e with
                  | Some ce => errorString (Error ce ++ ": " ++ Error err)
                  | None => err
                  end in
                t <- targetString c reg ;;
                let err := errorString
                             (caller ++ " connect to " ++ t ++ ": " ++ Error err) in
                match tcpConn with
                | Some tc => emit (EvConnClose tc)
                | None => ret tt
                end ;;;
                ret (Err err, c)
            | Ok (derpClient, pub) =>
                let c := set_serverPubKey c pub in
                let c := set_client c (Some derpClient) in
                let c := set_netConn c tcpConn in
                let c := set_connGen c (wrap_int (connGen c + 1)) in
                ret (Ok (derpClient, connGen c), c)
            end
        end
    end.

Definition optptr_eqb (a b : option ptr) : bool :=
  match a, b with
  | None, None => true
  | Some x, Some y => Nat.eqb x y
  | _, _ => false
  end.

(** [Client.closeForReconnect] (lines 794-805). *)
Definition closeForReconnect (brokenClient : option ptr) (c : Client) : M Client :=
  if negb (optptr_eqb (client c) brokenClient) then ret c
  else
    c <- match netConn c with
         | Some nc => emit (EvConnClose nc) ;;; ret (set_netConn c None)
         | None => ret c
         end ;;
    ret (set_client c None).

(** [Client.Close] (lines 769-782); [c.cancelCtx] is nil in a handle made by
    [NewNetcheckClient]. *)
Definition Close (c : Client) : M (option error * Client) :=
  _ <- deref (ctx c) ;;
  let c := set_ctx c (Some true) in
  if closed c then ret (Some ErrClientClosed, c)
  else
    let c := set_closed c true in
    match netConn c with
    | Some nc => emit (EvConnClose nc)
    | None => ret tt
    end ;;;
    ret (None, c).

Definition isClosed (c : Client) : bool := closed c.

Definition SetCanAckPings (v : bool) (c : Client) : Client := set_canAckPings c v.

Definition ServerPublicKey (c : Client) : Public := serverPubKey c.

(** [Client.Connect] (lines 119-122). *)
Definition Connect (e : Env) (c : Client) : M (option error * Client) :=
  ' (r, c) <- connect e "derphttp.Client.Connect" c ;;
  match r with
  | Ok _ => ret (None, c)
  | Err err => ret (Some err, c)
  end.

(** ** Interleavings *)

(** The critical sections of the handle.  A run of the program, whatever
    its goroutines, takes them one at a time. *)
Inductive Step : Type :=
| SConnect (e : Env) (caller : string)
| SCloseForReconnect (brokenClient : option ptr)
| SClose
| SSetCanAckPings (v : bool)
| SSetPreferred (v : bool).   (* lines 690-697 of NotePreferred *)

Definition step (s : Step) (c : Client) : M Client :=
  match s with
  | SConnect e caller => ' (_, c) <- connect e caller c ;; ret c
  | SCloseForReconnect w => closeForReconnect w c
  | SClose => ' (_, c) <- Close c ;; ret c
  | SSetCanAckPings v => ret (SetCanAckPings v c)
  | SSetPreferred v =>
      if Bool.eqb (preferred c) v then ret c else ret (set_preferred c v)
  end.

Fixpoint run (steps : list Step) (c : Client) : M Client :=
  match steps with
  | [] => ret c
  | s :: rest => c <- step s c ;; run rest c
  end.

Definition is_nil {A} (p : option A) : bool :=
  match p with None => true | Some _ => false end.

(** The generations the successful [connect]s of a run return, each with
    whether that call made the connection (it found the slot empty). *)
Fixpoint observe (steps : list Step) (c : Client) : M (list (Z * bool)) :=
  match steps with
  | [] => ret []
  | SConnect e caller :: rest =>
      ' (r, c') <- connect e caller c ;;
      obs <- observe rest c' ;;
      match r with
      | Ok (_, gen) => ret ((gen, is_nil (client c)) :: obs)
      | Err _ => ret obs
      end
  | s :: rest => c' <- step s c ;; observe rest c'
  end.

(** ** The caller API *)

(** [Client.SendPong] (lines 662-676). *)
Definition SendPong (e : Env) (data : list byte) (c : Client)
  : M (option error * Client) :=
  if closed c then ret (Some ErrClientClosed, c)
  else
    match client c with
    | None => ret (Some (errorString "not connected"), c)
    | Some dc =>
        emit (EvDerpSendPong dc data) ;;;
        ret (env_derp_SendPong e dc data, c)
    end.

(** [Client.NotePreferred] (lines 689-704); [others] are the critical
    sections other goroutines take after the mutex is released. *)
Definition NotePreferred (e : Env) (v : bool) (others : list Step) (c : Client)
  : M Client :=
  if Bool.eqb (preferred c) v then ret c
  else
    let c := set_preferred c v in
    let client := client c in
    c <- run others c ;;
    match client with
    | Some cl =>
        emit (EvDerpNotePreferred cl v) ;;;
        match env_derp_NotePreferred e cl v with
        | Some _ => closeForReconnect (Some cl) c
        | None => ret c
        end
    | None => ret c
    end.

(** [Client.RecvDetail] (lines 746-759); [during] are the critical sections
    other goroutines take while [client.Recv] blocks, [after] those between
    [closeForReconnect] and [isClosed]. *)
Definition RecvDetail (e : Env) (during after : list Step) (c : Client)
  : M (option ReceivedMessage * Z * option error * Client) :=
  ' (r, c) <- connect e "derphttp.Client.Recv" c ;;
  match r with
  | Err err => ret (None, 0, Some err, c)
  | Ok (client, connGen) =>
      emit (EvDerpRecv client) ;;;
      c <- run during c ;;
      let '(m, err) := env_derp_Recv e client in
      match err with
      | Some err =>
          c <- closeForReconnect (Some client) c ;;
          c <- run after c ;;
          ret (m, connGen, Some (if isClosed c then ErrClientClosed else err), c)
      | None => ret (m, connGen, None, c)
      end
  end.

(** [Client.Recv] (lines 739-742). *)
Definition Recv (e : Env) (during after : list Step) (c : Client)
  : M (option ReceivedMessage * option error * Client) :=
  ' (m, _, err, c) <- RecvDetail e during after c ;;
  ret (m, err, c).

(** ** Counting effects *)

Definition is_dial (ev : Event) : bool :=
  match ev with EvDial _ _ | EvDialTLS _ _ => true | _ => false end.

Definition is_read_response (ev : Event) : bool :=
  match ev with EvReadResponse _ => true | _ => false end.

Definition is_note_preferred (ev : Event) : bool :=
  match ev with EvDerpNotePreferred _ _ => true | _ => false end.

Definition count (p : Event -> bool) (t : list Event) : nat :=
  List.length (filter p t).

(** A dial with network [proto] is among the events. *)
Definition tries (proto : string) (t : list Event) : Prop :=
  exists addr, In (EvDial proto addr) t.

(** The number of calls in a list of observations that made a connection. *)
Definition reconnects (obs : list (Z * bool)) : nat :=
  List.length (filter snd obs).

(** A protocol family is enabled for a node: its literal is empty, or it
    parses as an address of that family. *)
Definition family_enabled (e : Env) (s : string) (pred : IP -> bool) : Prop :=
  s = "" \/ exists ip, env_ParseIP e s = Some ip /\ pred ip = true.

(** The proxy [dialNode] goes through for a node, if any (line 498). *)
Definition proxyFor (e : Env) (c : Client) (n : DERPNode) : option URL :=
  match env_ProxyFromEnvironment e
          (match url c with Some u => Host u | None => HostName n end) with
  | (Some proxyURL, None) => Some proxyURL
  | _ => None
  end.

(** The requests written to the connection, in order. *)
Definition req_writes (t : list Event) : list Request :=
  flat_map (fun ev => match ev with EvReqWrite _ r => [r] | _ => [] end) t.

(** The request carries the header [Derp-Fast-Start]. *)
Definition has_fast_start (r : Request) : bool :=
  existsb (fun kv => String.eqb (fst kv) fastStartHeader) (Header r).

(** The upgrade took the fast-start shortcut: it wrote one request, with the
    header [Derp-Fast-Start: 1], and read no HTTP response. *)
Definition took_fast_start (t : list Event) : Prop :=
  (exists r, req_writes t = [r] /\ In (fastStartHeader, "1") (Header r)) /\
  count is_read_response t = 0%nat.

(** A certificate [parseMetaCert] returns at: a meta certificate whose key
    parses and whose serial number has at most 8 bits. *)
Definition qualifies (cert : Certificate) : bool :=
  HasPrefix (CommonName cert) "derpkey"
  && match NewPublicFromHexMem (TrimPrefix (CommonName cert) "derpkey") with
     | Ok _ => BitLen (SerialNumber cert) <=? 8
     | Err _ => false
     end.

(** The observations of a run form a chain from generation [g]: each
    successful [connect] returns the generation before it, plus one when it
    made the connection. *)
Fixpoint chain (g : Z) (obs : list (Z * bool)) : Prop :=
  match obs with
  | [] => True
  | (g', b) :: rest => g' = (if b then g + 1 else g) /\ chain g' rest
  end.

(** ** Concrete inputs *)

(** A dotted quad, read the way [netaddr.ParseIP] reads an IPv4 literal,
    and the IPv6 literal of the examples. *)
Fixpoint split_dots (s : string) (cur : string) : list string :=
  match s with
  | EmptyString => [cur]
  | String a r =>
      if Ascii.eqb a "." then cur :: split_dots r ""
      else split_dots r (cur ++ String a EmptyString)
  end.

Fixpoint octet_digits (s : string) (acc : N) : option N :=
  match s with
  | EmptyString => Some acc
  | String a r =>
      let d := N_of_ascii a in
      if ((48 <=? d) && (d <=? 57))%N
      then octet_digits r (acc * 10 + (d - 48))%N
      else None
  end.

Definition octet (s : string) : option byte :=
  if String.eqb s "" then None
  else if (3 <? String.length s)%nat then None
  else match octet_digits s 0%N with
       | Some v => Byte.of_N v
       | None => None
       end.

Definition demo_ParseIP (s : string) : option IP :=
  if String.eqb s "2001:db8::1" then
    Some (IP_v6 [x20;x01;x0d;xb8;x00;x00;x00;x00;x00;x00;x00;x00;x00;x00;x00;x01] "")
  else
    match split_dots s "" with
    | [a; b; c; d] =>
        match octet a, octet b, octet c, octet d with
        | Some x, Some y, Some z, Some w => Some (IP_v4 [x; y; z; w])
        | _, _, _, _ => None
        end
    | _ => None
    end.

Definition key64 : string :=
  "0102030405060708091011121314151617181920212223242526272829303132".

Definition demo_key : Public :=
  [x01;x02;x03;x04;x05;x06;x07;x08;x09;x10;x11;x12;x13;x14;x15;x16;
   x17;x18;x19;x20;x21;x22;x23;x24;x25;x26;x27;x28;x29;x30;x31;x32].

Definition metacert (serial : Z) : Certificate :=
  {| CommonName := "derpkey" ++ key64; SerialNumber := serial |}.

(** An environment in which every collaborator succeeds: no proxy, TLS 1.3
    with a meta certificate of serial 2, a 101 response. *)
Definition env_ok : Env :=
  {| env_ParseIP := demo_ParseIP;
     env_LookupIP := fun _ => Ok "192.0.2.1";
     env_IsSOCKSDialer := false;
     env_DialContext := fun _ _ => None;
     env_ProxyFromEnvironment := fun _ => (None, None);
     env_Race := fun _ => {| v6_first := false; ctx_done_after := None;
                             race_ctx_err := extError "context deadline exceeded" |};
     env_ProxyDial := fun _ _ => None;
     env_GetAuthHeader := fun _ => ("", None);
     env_proxy_Fprintf := None;
     env_proxy_ReadResponse :=
       Ok {| StatusCode := 200; Status := "200 OK"; Body := "" |};
     env_proxy_ctx_err := None;
     env_proxy_watcher := false;
     env_SSLKEYLOGFILE := "";
     env_OpenFile := None;
     env_Handshake := None;
     env_ConnectionState :=
       {| Version := VersionTLS13; PeerCertificates := [metacert 2] |};
     env_NewRequest := None;
     env_req_Write := None;
     env_Flush := None;
     env_ReadResponse :=
       Ok {| StatusCode := 101; Status := "101 Switching Protocols"; Body := "" |};
     env_derp_NewClient := fun _ => Ok demo_key;
     env_derp_NotePreferred := fun _ _ => None;
     env_derp_SendPong := fun _ _ => None;
     env_derp_Recv := fun _ => (Some "hi", None);
     env_watcher := false;
     env_ctx_err := None |}.

(** [env_ok] with another connection state. *)
Definition env_tls (st : ConnectionState) : Env :=
  {| env_ParseIP := env_ParseIP env_ok;
     env_LookupIP := env_LookupIP env_ok;
     env_IsSOCKSDialer := env_IsSOCKSDialer env_ok;
     env_DialContext := env_DialContext env_ok;
     env_ProxyFromEnvironment := env_ProxyFromEnvironment env_ok;
     env_Race := env_Race env_ok;
     env_ProxyDial := env_ProxyDial env_ok;
     env_GetAuthHeader := env_GetAuthHeader env_ok;
     env_proxy_Fprintf := env_proxy_Fprintf env_ok;
     env_proxy_ReadResponse := env_proxy_ReadResponse env_ok;
     env_proxy_ctx_err := env_proxy_ctx_err env_ok;
     env_proxy_watcher := env_proxy_watcher env_ok;
     env_SSLKEYLOGFILE := env_SSLKEYLOGFILE env_ok;
     env_OpenFile := env_OpenFile env_ok;
     env_Handshake := env_Handshake env_ok;
     env_ConnectionState := st;
     env_NewRequest := env_NewRequest env_ok;
     env_req_Write := env_req_Write env_ok;
     env_Flush := env_Flush env_ok;
     env_ReadResponse := env_ReadResponse env_ok;
     env_derp_NewClient := env_derp_NewClient env_ok;
     env_derp_NotePreferred := env_derp_NotePreferred env_ok;
     env_derp_SendPong := env_derp_SendPong env_ok;
     env_derp_Recv := env_derp_Recv env_ok;
     env_watcher := env_watcher env_ok;
     env_ctx_err := env_ctx_err env_ok |}.

(** [env_ok] with another dialer and DERP client. *)
Definition env_net (dial : string -> string -> option error)
    (notePreferred : ptr -> bool -> option error)
    (recv : ptr -> option ReceivedMessage * option error) : Env :=
  {| env_ParseIP := env_ParseIP env_ok;
     env_LookupIP := env_LookupIP env_ok;
     env_IsSOCKSDialer := env_IsSOCKSDialer env_ok;
     env_DialContext := dial;
     env_ProxyFromEnvironment := env_ProxyFromEnvironment env_ok;
     env_Race := env_Race env_ok;
     env_ProxyDial := env_ProxyDial env_ok;
     env_GetAuthHeader := env_GetAuthHeader env_ok;
     env_proxy_Fprintf := env_proxy_Fprintf env_ok;
     env_proxy_ReadResponse := env_proxy_ReadResponse env_ok;
     env_proxy_ctx_err := env_proxy_ctx_err env_ok;
     env_proxy_watcher := env_proxy_watcher env_ok;
     env_SSLKEYLOGFILE := env_SSLKEYLOGFILE env_ok;
     env_OpenFile := env_OpenFile env_ok;
     env_Handshake := env_Handshake env_ok;
     env_ConnectionState := env_ConnectionState env_ok;
     env_NewRequest := env_NewRequest env_ok;
     env_req_Write := env_req_Write env_ok;
     env_Flush := env_Flush env_ok;
     env_ReadResponse := env_ReadResponse env_ok;
     env_derp_NewClient := env_derp_NewClient env_ok;
     env_derp_NotePreferred := notePreferred;
     env_derp_SendPong := env_derp_SendPong env_ok;
     env_derp_Recv := recv;
     env_watcher := env_watcher env_ok;
     env_ctx_err := env_ctx_err env_ok |}.

Definition node (host v4 v6 : string) (stun : bool) : DERPNode :=
  {| HostName := host; CertName := ""; IPv4 := v4; IPv6 := v6;
     DERPPort := 0; STUNOnly := stun; InsecureForTests := false |}.

Definition region_nyc (nodes : list DERPNode) : DERPRegion :=
  {| RegionID := 1; RegionCode := "nyc"; Nodes := nodes |}.

Definition relay_url : URL :=
  {| Scheme := "https"; Host := "relay.test"; Hostname := "relay.test";
     Port := ""; URL_String := "https://relay.test/derp" |}.

(** A handle made by [NewClient] for [relay_url]. *)
Definition demo_client : Client :=
  match NewClient [] relay_url with
  | Ok c => c
  | Err _ => NewNetcheckClient
  end.

(** A handle made by [NewRegionClient] for a region. *)
Definition region_client (nodes : list DERPNode) : Client :=
  NewRegionClient [] (Some (fun _ => Some (region_nyc nodes))).

(** The handle at the end of a run. *)
Definition final (steps : list Step) (c : Client) : Client :=
  match value (run steps c 0%nat) with
  | Returns c' => c'
  | Panics => c
  end.

(** The dialer of a region in which only [healthy.test] answers. *)
Definition dial_healthy (proto addr : string) : option error :=
  if String.eqb addr "healthy.test:443" then None
  else Some (extError ("dial " ++ proto ++ " " ++ addr ++ ": connection refused")).

(** The handle of a cleartext relay, [http://relay.test:8080/derp]. *)
Definition cleartext_url : URL :=
  {| Scheme := "http"; Host := "relay.test:8080"; Hostname := "relay.test";
     Port := "8080"; URL_String := "http://relay.test:8080/derp" |}.

Definition cleartext_client : Client :=
  match NewClient [] cleartext_url with
  | Ok c => c
  | Err _ => NewNetcheckClient
  end.

(** [env_ok] with a server that drops the connection: [Recv] fails. *)
Definition env_drop : Env :=
  env_net (fun _ _ => None) (fun _ _ => None)
    (fun _ => (None, Some (extError "EOF"))).

(** An HTTP proxy, and [env_ok] with that proxy set for every host. *)
Definition proxy_url : URL :=
  {| Scheme := "http"; Host := "proxy.test:3128"; Hostname := "proxy.test";
     Port := "3128"; URL_String := "http://proxy.test:3128" |}.

Definition env_proxied : Env :=
  {| env_ParseIP := env_ParseIP env_ok;
     env_LookupIP := env_LookupIP env_ok;
     env_IsSOCKSDialer := env_IsSOCKSDialer env_ok;
     env_DialContext := env_DialContext env_ok;
     env_ProxyFromEnvironment := fun _ => (Some proxy_url, None);
     env_Race := env_Race env_ok;
     env_ProxyDial := env_ProxyDial env_ok;
     env_GetAuthHeader := env_GetAuthHeader env_ok;
     env_proxy_Fprintf := env_proxy_Fprintf env_ok;
     env_proxy_ReadResponse := env_proxy_ReadResponse env_ok;
     env_proxy_ctx_err := env_proxy_ctx_err env_ok;
     env_proxy_watcher := env_proxy_watcher env_ok;
     env_SSLKEYLOGFILE := env_SSLKEYLOGFILE env_ok;
     env_OpenFile := env_OpenFile env_ok;
     env_Handshake := env_Handshake env_ok;
     env_ConnectionState := env_ConnectionState env_ok;
     env_NewRequest := env_NewRequest env_ok;
     env_req_Write := env_req_Write env_ok;
     env_Flush := env_Flush env_ok;
     env_ReadResponse := env_ReadResponse env_ok;
     env_derp_NewClient := env_derp_NewClient env_ok;
     env_derp_NotePreferred := env_derp_NotePreferred env_ok;
     env_derp_SendPong := env_derp_SendPong env_ok;
     env_derp_Recv := env_derp_Recv env_ok;
     env_watcher := env_watcher env_ok;
     env_ctx_err := env_ctx_err env_ok |}.

(** ** The other operations of the caller API *)

(** [Client.Send] (lines 633-642).  [send] is what [client.Send] answers;
    [others] are the critical sections other goroutines take while it runs.
    The [err] of [client.Send] is declared by the [if] statement, so the
    final [return err] returns the [err] of [connect], which is nil there. *)
Definition Send (e : Env) (send : ptr -> Public -> list byte -> option error)
    (dstKey : Public) (b : list byte) (others : list Step) (c : Client)
  : M (option error * Client) :=
  ' (r, c) <- connect e "derphttp.Client.Send" c ;;
  match r with
  | Err err => ret (Some err, c)
  | Ok (client, _) =>
      c <- run others c ;;
      match send client dstKey b with
      | Some _ => c <- closeForReconnect (Some client) c ;; ret (None, c)
      | None => ret (None, c)
      end
  end.

(** [Client.ForwardPacket] (lines 644-653), written like [Send]. *)
Definition ForwardPacket (e : Env)
    (forward : ptr -> Public -> Public -> list byte -> option error)
    (from to : Public) (b : list byte) (others : list Step) (c : Client)
  : M (option error * Client) :=
  ' (r, c) <- connect e "derphttp.Client.ForwardPacket" c ;;
  match r with
  | Err err => ret (Some err, c)
  | Ok (client, _) =>
      c <- run others c ;;
      match forward client from to b with
      | Some _ => c <- closeForReconnect (Some client) c ;; ret (None, c)
      | None => ret (None, c)
      end
  end.

(** [Client.WatchConnectionChanges] (lines 710-720): here the error of the
    client is assigned to the function's [err]. *)
Definition WatchConnectionChanges (e : Env) (watch : ptr -> option error)
    (others : list Step) (c : Client) : M (option error * Client) :=
  ' (r, c) <- connect e "derphttp.Client.WatchConnectionChanges" c ;;
  match r with
  | Err err => ret (Some err, c)
  | Ok (client, _) =>
      c <- run others c ;;
      match watch client with
      | Some err => c <- closeForReconnect (Some client) c ;; ret (Some err, c)
      | None => ret (None, c)
      end
  end.

(** [Client.ClosePeer] (lines 725-735). *)
Definition ClosePeer (e : Env) (closePeer : ptr -> Public -> option error)
    (target : Public) (others : list Step) (c : Client)
  : M (option error * Client) :=
  ' (r, c) <- connect e "derphttp.Client.ClosePeer" c ;;
  match r with
  | Err err => ret (Some err, c)
  | Ok (client, _) =>
      c <- run others c ;;
      match closePeer client target with
      | Some err => c <- closeForReconnect (Some client) c ;; ret (Some err, c)
      | None => ret (None, c)
      end
  end.

(** ** Connections opened and closed *)

(** The connections among the results of the racers. *)
Definition opened (l : list (result ptr)) : list ptr :=
  flat_map (fun r => match r with Ok conn => [conn] | Err _ => [] end) l.

(** The connection a dial returns, if any. *)
Definition returned (r : result ptr) : list ptr :=
  match r with Ok conn => [conn] | Err _ => [] end.

(** The connections closed, in order. *)
Definition closes (t : list Event) : list ptr :=
  flat_map (fun ev => match ev with EvConnClose conn => [conn] | _ => [] end) t.

(** The slot holds a client exactly when it holds a transport closer. *)
Definition slot_consistent (c : Client) : Prop :=
  client c = None <-> netConn c = None.

(** Every address the handle stores was handed out before [n]. *)
Definition allocated_before (c : Client) (n : ptr) : Prop :=
  forall p, client c = Some p -> (p < n)%nat.

(** Every event of a computation satisfies [P]. *)
Definition emits {A} (P : Event -> Prop) (m : M A) : Prop :=
  forall n, Forall P (events (m n)).

(** The region [connect] dials: what [getRegion] returns, nil under the URL
    plan. *)
Definition regionOf (c : Client) : option DERPRegion :=
  match getRegion c with Some f => f tt | None => None end.

(** An upgrade request as [connect] builds it: [GET] with the headers
    [Upgrade: DERP] and [Connection: Upgrade]. *)
Definition upgrade_request (r : Request) : Prop :=
  Method r = "GET" /\ In ("Upgrade", "DERP") (Header r) /\
  In ("Connection", "Upgrade") (Header r).

(** What a cleartext upgrade may do: no TLS, and requests without the
    fast-start header. *)
Definition cleartext_event (ev : Event) : Prop :=
  match ev with
  | EvTLSClient _ _ _ => False
  | EvHandshake _ => False
  | EvReqWrite _ r => has_fast_start r = false
  | _ => True
  end.

(** The requests of an upgrade are upgrade requests. *)
Definition upgrade_event (ev : Event) : Prop :=
  match ev with
  | EvReqWrite _ r => upgrade_request r
  | _ => True
  end.

(** What dialing may do: look up, dial, write to and read from the proxy,
    close. *)
Definition dial_event (ev : Event) : Prop :=
  match ev with
  | EvLookupIP _ | EvDial _ _ | EvDialTLS _ _ | EvConnClose _
  | EvConnWrite _ _ | EvReadResponse _ => True
  | _ => False
  end.

(** No TLS is started: no TLS dial, no TLS client, no handshake. *)
Definition cleartext_only (ev : Event) : Prop :=
  match ev with
  | EvDialTLS _ _ | EvTLSClient _ _ _ | EvHandshake _ => False
  | _ => True
  end.

(** The TLS dial to the [https] proxy of one of the nodes. *)
Definition tls_dial_of (e : Env) (c : Client) (nodes : list DERPNode)
           (ev : Event) : Prop :=
  exists nd pu,
    In nd nodes /\ proxyFor e c nd = Some pu /\ Scheme pu = "https" /\
    ev = EvDialTLS "tcp" (JoinHostPort (Hostname pu) (firstStr (Port pu) "443")).

(** No [NotePreferred] call. *)
Definition quiet_event (ev : Event) : Prop := is_note_preferred ev = false.

(** The clients and generations the successful [connect]s of a run return,
    in order. *)
Fixpoint observe_clients (steps : list Step) (c : Client) : M (list (ptr * Z)) :=
  match steps with
  | [] => ret []
  | SConnect e caller :: rest =>
      ' (r, c') <- connect e caller c ;;
      obs <- observe_clients rest c' ;;
      match r with
      | Ok (cl, gen) => ret ((cl, gen) :: obs)
      | Err _ => ret obs
      end
  | s :: rest => c' <- step s c ;; observe_clients rest c'
  end.

(** The same generation exactly for the same client. *)
Definition same_connection (x y : ptr * Z) : Prop :=
  snd x = snd y <-> fst x = fst y.

(** [R] relates every element of a list to every later one. *)
Fixpoint all_pairs {A} (R : A -> A -> Prop) (l : list A) : Prop :=
  match l with
  | [] => True
  | x :: rest => Forall (R x) rest /\ all_pairs R rest
  end.

(** A successful [connect] returned client [cl1] at generation [g1] when every
    address below [n1] had been handed out: since then the handle is at [g1]
    with [cl1] or nothing in the slot, or at a later generation with a client
    made since. *)
Definition since (cl1 : ptr) (g1 : Z) (n1 : ptr) (c : Client) (n : ptr) : Prop :=
  (n1 <= n)%nat /\
  ((connGen c = g1 /\ (client c = None \/ client c = Some cl1)) \/
   (g1 < connGen c /\ forall p, client c = Some p -> (n1 <= p)%nat)).

(** * Package speedtest (src/net/speedtest/speedtest.go, lines 62-88) *)

Module speedtest.

(** [type Direction int] with [Download = iota] and [Upload]. *)
Definition Direction := Z.
Definition Download : Direction := 0.
Definition Upload : Direction := 1.

(** [Direction.String] (lines 69-78). *)
Definition Direction_String (d : Direction) : string :=
  if d =? Upload then "upload"
  else if d =? Download then "download"
  else "".

(** [Direction.Reverse] (lines 80-88), on the value behind the pointer. *)
Definition Reverse (d : Direction) : Direction :=
  if d =? Upload then Download
  else if d =? Download then Upload
  else d.

End speedtest.

(** * Package portmapper, UPnP (src/net/speedtest/speedtest.go, lines 93-349) *)

Module portmapper.

(** The errors of the package: [NoMappingError] and
    [ErrNoPortMappingServices] are declared in another file of the package
    and only passed on here; [extError] is an error of a collaborator. *)
Inductive error :=
| NoMappingError (err : error)
| ErrNoPortMappingServices
| extError (msg : string).

(** [netaddr.IP] as a number, with its zero value, and [netaddr.IPPort]. *)
Inductive IP := IP_zero | IP_addr (a : Z).
Record IPPort := IPPortFrom { IPPort_IP : IP; Port : Z }.
Definition IPPort_zero : IPPort := IPPortFrom IP_zero 0.

(** The three goupnp clients behind the [upnpClient] interface, each a
    pointer. *)
Inductive upnpClient :=
| WANIPConnection1 (p : ptr)
| WANIPConnection2 (p : ptr)
| WANPPPConnection1 (p : ptr).

(** [time.Time] and [time.Duration] in nanoseconds. *)
Definition Time := Z.
Definition Duration := Z.
Definition Second : Duration := 1000000000.
Definition Add (t : Time) (d : Duration) : Time := t + d.

(** [upnpMapping] (lines 119-128); [client] is an interface and may be
    nil. *)
Record upnpMapping := {
  gw : IP;
  external : IPPort;
  internal : IPPort;
  goodUntil : Time;
  renewAfter : Time;
  client : option upnpClient
}.

(** What [Client.mapping] can hold: a [*upnpMapping], possibly a nil
    pointer, or a mapping of another protocol. *)
Inductive mapping :=
| mapping_upnp (m : option upnpMapping)
| mapping_other (protocol : string).

(** The fields of [Client] that the UPnP code reads and writes. *)
Record Client := { Client_mapping : option mapping; localPort : Z }.

(** The arguments of [AddPortMapping] and [AddAnyPortMapping]
    (lines 140-171); [leaseDuration] is the duration whose seconds are
    sent. *)
Record Request := {
  remoteHost : string;
  externalPort : Z;
  protocol : string;
  internalPort : Z;
  internalClient : string;
  enabled : bool;
  portMappingDescription : string;
  leaseDuration : Duration
}.

Definition tsPortMappingDesc : string := "tailscale-portmap".

(** The calls that reach the network. *)
Inductive Call :=
| CallClientsByURL (u : string)
| CallAddAnyPortMapping (p : ptr) (r : Request)
| CallAddPortMapping (cl : upnpClient) (r : Request)
| CallGetExternalIPAddress (cl : upnpClient)
| CallDeletePortMapping (cl : upnpClient) (remoteHost : string) (port : Z)
                        (protocol : string).

(** The collaborators: [netaddr], [net/url], [goupnp], the clock, and the
    constant [pmpMapLifetimeSec] and the variable [DisableUPnP] of the
    package. *)
Record Env := {
  IP_String : IP -> string;
  ParseIP : string -> IP * option error;
  url_Parse : string -> option error;
  NewWANIPConnection1ClientsByURL : string -> list ptr * option error;
  NewWANIPConnection2ClientsByURL : string -> list ptr * option error;
  NewWANPPPConnection1ClientsByURL : string -> list ptr * option error;
  AddAnyPortMapping : ptr -> Request -> Z * option error;
  AddPortMapping : upnpClient -> Request -> option error;
  GetExternalIPAddress : upnpClient -> string * option error;
  Now : Time;
  pmpMapLifetimeSec : Z;
  DisableUPnP : bool
}.

(** [upnpMapping.release] (lines 133-135); a nil client panics. *)
Definition release (u : upnpMapping) : outcome unit * list Call :=
  match client u with
  | Some cl => (Returns tt, [CallDeletePortMapping cl "" (Port (external u)) "udp"])
  | None => (Panics, [])
  end.

(** [addAnyPortMapping] (lines 182-215), for a client that is not nil. *)
Definition addAnyPortMapping (e : Env) (upnp : upnpClient)
           (externalPort internalPort : Z) (internalClient : string)
           (leaseDuration : Duration) : Z * option error * list Call :=
  let r := {| remoteHost := ""; externalPort := externalPort;
              protocol := "udp"; internalPort := internalPort;
              internalClient := internalClient; enabled := true;
              portMappingDescription := tsPortMappingDesc;
              leaseDuration := leaseDuration |} in
  match upnp with
  | WANIPConnection2 p =>
      let '(newPort, err) := AddAnyPortMapping e p r in
      (newPort, err, [CallAddAnyPortMapping p r])
  | _ =>
      let err := AddPortMapping e upnp r in
      (internalPort, err, [CallAddPortMapping upnp r])
  end.

(** The loop of lines 270-275: the first error that is not nil. *)
Fixpoint first_error (errs : list (option error)) : option error :=
  match errs with
  | [] => None
  | Some err :: _ => Some err
  | None :: rest => first_error rest
  end.

(** [getUPnPClient] (lines 220-280).  The three tasks write different
    variables and all return nil, so [tasks.Wait] returns nil once the
    three are done. *)
Definition getUPnPClient (e : Env) (gw : IP)
  : option upnpClient * option error * list Call :=
  let u := "http://" ++ IP_String e gw ++ ":5000/rootDesc.xml" in
  match url_Parse e u with
  | Some err => (None, Some err, [])
  | None =>
      let '(ip1Clients, err0) := NewWANIPConnection1ClientsByURL e u in
      let '(ip2Clients, err1) := NewWANIPConnection2ClientsByURL e u in
      let '(ppp1Clients, err2) := NewWANPPPConnection1ClientsByURL e u in
      let errs := [err0; err1; err2] in
      let err : option error := None in
      let t := [CallClientsByURL u] in
      match ip2Clients with
      | p :: _ => (Some (WANIPConnection2 p), None, t)
      | [] =>
      match ip1Clients with
      | p :: _ => (Some (WANIPConnection1 p), None, t)
      | [] =>
      match ppp1Clients with
      | p :: _ => (Some (WANPPPConnection1 p), None, t)
      | [] =>
          match err with
          | Some err => (None, Some err, t)
          | None => (None, first_error errs, t)
          end
      end end end
  end.

Definition noMapping : IPPort * option error :=
  (IPPort_zero, Some (NoMappingError ErrNoPortMappingServices)).

(** [Client.getUPnPPortMapping] (lines 285-349).  The handle is read under
    the lock at lines 301-303 and written under the lock at lines 344-347;
    [during] is what other goroutines do to it while the lock is free. *)
Definition getUPnPPortMapping (e : Env) (during : Client -> Client)
           (c : Client) (gw : IP) (internal : IPPort) (prevPort : Z)
  : IPPort * option error * Client * list Call :=
  if DisableUPnP e then (noMapping, c, [])
  else
    let now := Now e in
    let found :=
      match Client_mapping c with
      | Some (mapping_upnp (Some oldMapping)) => (client oldMapping, None, [])
      | _ => getUPnPClient e gw
      end in
    let '(client, err, t1) := found in
    let c := during c in
    match err with
    | Some _ => (noMapping, c, t1)
    | None =>
    match client with
    | None => (noMapping, c, t1)
    | Some client =>
        let '(newPort, err, t2) :=
          addAnyPortMapping e client prevPort (Port internal)
                            (IP_String e (IPPort_IP internal))
                            (Second * pmpMapLifetimeSec e) in
        match err with
        | Some _ => (noMapping, c, (t1 ++ t2)%list)
        | None =>
            let '(extIP, err) := GetExternalIPAddress e client in
            let t3 := [CallGetExternalIPAddress client] in
            match err with
            | Some _ => (noMapping, c, (t1 ++ t2 ++ t3)%list)
            | None =>
                let '(externalIP, err) := ParseIP e extIP in
                match err with
                | Some _ => (noMapping, c, (t1 ++ t2 ++ t3)%list)
                | None =>
                    let d := pmpMapLifetimeSec e * Second in
                    let upnp := {| gw := gw;
                                   external := IPPortFrom externalIP newPort;
                                   internal := internal;
                                   goodUntil := Add now d;
                                   renewAfter := Add now (Z.quot d 2);
                                   client := Some client |} in
                    (external upnp, None,
                     {| Client_mapping := Some (mapping_upnp (Some upnp));
                        localPort := newPort |},
                     (t1 ++ t2 ++ t3)%list)
                end
            end
        end
    end end.

Definition is_discovery (k : Call) : bool :=
  match k with CallClientsByURL _ => true | _ => false end.

(** A router at 192.168.1.1 that answers the probes with the clients
    [v1] and [v2], maps ports as [add] says, and reports 203.0.113.7 as
    its external address. *)
Definition demo_env (disable : bool) (v1 v2 : list ptr)
           (add : option error) : Env :=
  {| IP_String := fun _ => "192.168.1.1";
     ParseIP := fun s => if String.eqb s "203.0.113.7"
                         then (IP_addr 3405803783, None)
                         else (IP_zero, Some (extError "unable to parse IP"));
     url_Parse := fun _ => None;
     NewWANIPConnection1ClientsByURL := fun _ => (v1, None);
     NewWANIPConnection2ClientsByURL := fun _ => (v2, None);
     NewWANPPPConnection1ClientsByURL :=
       fun _ => ([], Some (extError "goupnp: no services"));
     AddAnyPortMapping := fun _ _ => (40000, add);
     AddPortMapping := fun _ _ => add;
     GetExternalIPAddress := fun _ => ("203.0.113.7", None);
     Now := 1000;
     pmpMapLifetimeSec := 7200;
     DisableUPnP := disable |}.

Definition demo_gw : IP := IP_addr 3232235777.
Definition demo_internal : IPPort := IPPortFrom (IP_addr 3232235786) 41641.
Definition demo_handle : Client := {| Client_mapping := None; localPort := 0 |}.

(** A handle that holds a UPnP mapping made with the v1 client 7. *)
Definition demo_mapped : Client :=
  {| Client_mapping :=
       Some (mapping_upnp
               (Some {| gw := demo_gw;
                        external := IPPortFrom (IP_addr 3405803783) 41641;
                        internal := demo_internal;
                        goodUntil := 900; renewAfter := 500;
                        client := Some (WANIPConnection1 7%nat) |}));
     localPort := 41641 |}.

End portmapper.

(** * Properties *)

Create HintDb mono.

Ltac monad := unfold bind, ret, emit, alloc, panic, deref, when.

Lemma optptr_eqb_eq (a b : option ptr) : optptr_eqb a b = true <-> a = b.
Proof.
  destruct a as [x|], b as [y|]; simpl; split; intro H;
    try discriminate; try reflexivity.
  - apply Nat.eqb_eq in H. now subst.
  - injection H as ->. apply Nat.eqb_refl.
Qed.

Lemma wrap_int_succ (x : Z) : 0 <= x < max_int -> wrap_int (x + 1) = x + 1.
Proof.
  unfold wrap_int, max_int, int_bits. intros H.
  rewrite Z.mod_small; lia.
Qed.

(** ** Scenarios *)

(** A cleartext URL: one TCP dial, no TLS, the slow start. *)
Example cleartext_connect :
  events (connect env_ok "derphttp.Client.Send" cleartext_client 0%nat)
  = [EvDial "tcp" "relay.test:8080";
     EvReqWrite 0%nat
       {| Method := "GET"; RequestURL := "http://relay.test:8080/derp";
          Header := [("Upgrade", "DERP"); ("Connection", "Upgrade")] |};
     EvFlush 0%nat; EvReadResponse 0%nat;
     EvDerpNewClient 1%nat 0%nat "" Public_zero false false].
Proof. vm_compute. reflexivity. Qed.

(** A region [STUNOnly, unreachable, healthy]: the third node connects. *)
Example region_third_node_connects :
  value (dialRegion (env_net dial_healthy (fun _ _ => None) (fun _ => (None, None)))
           (region_client [])
           (region_nyc [node "stun.test" "" "" true;
                        node "down.test" "" "" false;
                        node "healthy.test" "" "" false]) 0%nat)
  = Returns (Some 0%nat, Some (node "healthy.test" "" "" false), None).
Proof. vm_compute. reflexivity. Qed.

(** A node with both literals: both families race, the IPv4 connection
    wins and the IPv6 one is closed. *)
Example node_race :
  dialNode env_ok (region_client [])
    (node "a.test" "203.0.113.7" "2001:db8::1" false) 0%nat
  = (Returns (Ok 0%nat), 2%nat,
     [EvDial "tcp4" "203.0.113.7:443"; EvDial "tcp6" "[2001:db8::1]:443";
      EvConnClose 1%nat]).
Proof. vm_compute. reflexivity. Qed.

(** Reconnect across generations: generation 1, the server drops the
    connection, [RecvDetail] fails and clears the slot, the next [connect]
    returns generation 2. *)
Example reconnect_next_generation :
  exists c2 n2,
    RecvDetail env_drop [] [] (final [SConnect env_ok "a"] demo_client) 3%nat
    = (Returns (None, 1, Some (extError "EOF"), c2), n2,
       [EvDerpRecv 2%nat; EvConnClose 0%nat]) /\
    client c2 = None /\
    exists c3, value (connect env_ok "derphttp.Client.Send" c2 n2)
               = Returns (Ok (5%nat, 2), c3).
Proof.
  eexists. eexists. split; [vm_compute; reflexivity|].
  split; [reflexivity|]. eexists. vm_compute. reflexivity.
Qed.

(** ** connect on a closed or a live handle *)

Lemma connect_closed e caller c n :
  closed c = true ->
  connect e caller c n = (Returns (Err ErrClientClosed, c), n, []).
Proof. unfold connect. intros ->. reflexivity. Qed.

Lemma connect_live e caller c n cl :
  closed c = false -> client c = Some cl ->
  connect e caller c n = (Returns (Ok (cl, connGen c), c), n, []).
Proof. unfold connect. intros -> ->. reflexivity. Qed.

(** C5. For every call of [connect]: on a closed handle it returns
    [ErrClientClosed]; otherwise, on a handle that stores a live DERP client,
    it returns that client and the current generation.  In both cases
    nothing is dialed (no event at all), nothing is allocated and the handle
    is left as it was. *)
Theorem connect_closed_or_live :
  forall (e : Env) (caller : string) (c : Client) (n : ptr),
    (closed c = true ->
     connect e caller c n = (Returns (Err ErrClientClosed, c), n, [])) /\
    (closed c = false ->
     forall cl, client c = Some cl ->
     connect e caller c n = (Returns (Ok (cl, connGen c), c), n, [])).
Proof.
  intros e caller c n. split.
  - apply connect_closed.
  - intros Hc cl Hcl. now apply connect_live.
Qed.

Lemma connect_closed_or_live_witness :
  connect env_ok "derphttp.Client.Send" (final [SConnect env_ok "a"; SClose] demo_client) 7%nat
  = (Returns (Err ErrClientClosed, final [SConnect env_ok "a"; SClose] demo_client), 7%nat, [])
  /\ connect env_ok "derphttp.Client.Send" (final [SConnect env_ok "a"] demo_client) 7%nat
     = (Returns (Ok (2%nat, 1), final [SConnect env_ok "a"] demo_client), 7%nat, []).
Proof.
  split.
  - apply (connect_closed_or_live env_ok "derphttp.Client.Send"
             (final [SConnect env_ok "a"; SClose] demo_client) 7%nat).
    reflexivity.
  - apply (proj2 (connect_closed_or_live env_ok "derphttp.Client.Send"
                    (final [SConnect env_ok "a"] demo_client) 7%nat));
      reflexivity.
Defined.

(** ** SendPong *)

(** C7. [SendPong] never connects: it dials nothing, allocates nothing and
    leaves the handle as it was.  On a closed handle it returns
    [ErrClientClosed]; otherwise with an empty slot it returns the error
    "not connected"; otherwise it returns what the live client's [SendPong]
    returned, and an error of that call tears nothing down. *)
Theorem SendPong_never_connects :
  forall (e : Env) (data : list byte) (c : Client) (n : ptr),
    (exists err, value (SendPong e data c n) = Returns (err, c)) /\
    next_free (SendPong e data c n) = n /\
    count is_dial (events (SendPong e data c n)) = 0%nat /\
    (closed c = true ->
     SendPong e data c n = (Returns (Some ErrClientClosed, c), n, [])) /\
    (closed c = false -> client c = None ->
     SendPong e data c n
     = (Returns (Some (errorString "not connected"), c), n, [])) /\
    (closed c = false -> forall dc, client c = Some dc ->
     SendPong e data c n
     = (Returns (env_derp_SendPong e dc data, c), n, [EvDerpSendPong dc data])).
Proof.
  intros e data c n. unfold SendPong.
  destruct (closed c) eqn:Hc; [| destruct (client c) as [dc|] eqn:Hcl];
    monad; simpl; repeat split;
    try (eexists; reflexivity); intros; congruence.
Qed.

Lemma SendPong_never_connects_witness :
  SendPong env_ok [x01] (final [SConnect env_ok "a"] demo_client) 3%nat
  = (Returns (None, final [SConnect env_ok "a"] demo_client), 3%nat,
     [EvDerpSendPong 2%nat [x01]]).
Proof.
  apply (proj2 (proj2 (proj2 (proj2 (proj2
           (SendPong_never_connects env_ok [x01]
              (final [SConnect env_ok "a"] demo_client) 3%nat))))));
    reflexivity.
Defined.

(** ** The monad *)

Lemma bind_Returns {A B} (m : M A) (k : A -> M B) n b n' t :
  bind m k n = (Returns b, n', t) ->
  exists a n1 t1 t2,
    m n = (Returns a, n1, t1) /\ k a n1 = (Returns b, n', t2) /\
    t = (t1 ++ t2)%list.
Proof.
  unfold bind. destruct (m n) as [[[a|] n1] t1]; [|discriminate].
  destruct (k a n1) as [[b' n2] t2] eqn:Hk. intros H.
  injection H as -> -> <-. eauto 8.
Qed.

Lemma mono_ret {A} (a : A) : mono (ret a).
Proof. intros n. apply Nat.le_refl. Qed.

Lemma mono_panic {A} : mono (@panic A).
Proof. intros n. apply Nat.le_refl. Qed.

Lemma mono_emit ev : mono (emit ev).
Proof. intros n. apply Nat.le_refl. Qed.

Lemma mono_alloc : mono alloc.
Proof. intros n. unfold alloc, next_free. simpl. lia. Qed.

Lemma mono_bind {A B} (m : M A) (k : A -> M B) :
  mono m -> (forall a, mono (k a)) -> mono (bind m k).
Proof.
  intros Hm Hk n. unfold bind. specialize (Hm n).
  destruct (m n) as [[[a|] n1] t1]; unfold next_free in *; simpl in *; auto.
  specialize (Hk a n1). destruct (k a n1) as [[b n2] t2].
  unfold next_free in Hk. simpl in *. lia.
Qed.

Lemma mono_deref {A} (p : option A) : mono (deref p).
Proof. destruct p; [apply mono_ret | apply mono_panic]. Qed.

Lemma mono_when b m : mono m -> mono (when b m).
Proof. destruct b; simpl; [auto | intros _; apply mono_ret]. Qed.

Lemma mono_le {A} (m : M A) n o n' t :
  mono m -> m n = (o, n', t) -> (n <= n')%nat.
Proof. intros Hm H. specialize (Hm n). rewrite H in Hm. exact Hm. Qed.

#[local] Hint Resolve mono_ret mono_panic mono_emit mono_alloc mono_deref : mono.

Ltac mono_step :=
  match goal with
  | |- mono (bind _ _) => apply mono_bind; [| intros ?]
  | |- mono (when _ _) => apply mono_when
  | |- mono (match ?x with _ => _ end) => destruct x
  | |- mono (if ?x then _ else _) => destruct x
  | |- mono _ => solve [auto with mono]
  end.

Ltac mono_auto := repeat mono_step.

Ltac mono_from H := eapply mono_le; [| exact H]; mono_auto.

Lemma mono_targetString c reg : mono (targetString c reg).
Proof. unfold targetString. mono_auto. Qed.

Lemma mono_tlsServerName c nd : mono (tlsServerName c nd).
Proof. unfold tlsServerName. mono_auto. Qed.

Lemma mono_urlString c nd : mono (urlString c nd).
Proof. unfold urlString. mono_auto. Qed.

Lemma mono_dialContext e proto addr : mono (dialContext e proto addr).
Proof. unfold dialContext. mono_auto. Qed.

#[local] Hint Resolve mono_targetString mono_tlsServerName mono_urlString
  mono_dialContext : mono.

Lemma mono_dialURL e c : mono (dialURL e c).
Proof. unfold dialURL. mono_auto. Qed.

Lemma mono_dialNodeUsingProxy e n pu : mono (dialNodeUsingProxy e n pu).
Proof. unfold dialNodeUsingProxy. mono_auto. Qed.

Lemma mono_startDial e n d p : mono (startDial e n d p).
Proof. unfold startDial. auto with mono. Qed.

Lemma mono_close_unreceived l : mono (close_unreceived l).
Proof. induction l as [|[conn|err] l IH]; simpl; mono_auto; auto. Qed.

#[local] Hint Resolve mono_dialURL mono_dialNodeUsingProxy mono_startDial
  mono_close_unreceived : mono.

Lemma mono_start_racers e n : mono (start_racers e n).
Proof. unfold start_racers. mono_auto. Qed.

#[local] Hint Resolve mono_start_racers : mono.

Lemma mono_dialNode_race e n : mono (dialNode_race e n).
Proof. unfold dialNode_race. mono_auto. Qed.

#[local] Hint Resolve mono_dialNode_race : mono.

Lemma mono_dialNode e c n : mono (dialNode e c n).
Proof. unfold dialNode. mono_auto. Qed.

#[local] Hint Resolve mono_dialNode : mono.

Lemma mono_dialRegion_loop e c reg nodes :
  forall firstErr, mono (dialRegion_loop e c reg nodes firstErr).
Proof.
  induction nodes as [|n rest IH]; intros firstErr; simpl; mono_auto; auto.
Qed.

#[local] Hint Resolve mono_dialRegion_loop : mono.

Lemma mono_dialRegion e c reg : mono (dialRegion e c reg).
Proof. unfold dialRegion. mono_auto. Qed.

Lemma mono_tlsClient e c nc nd : mono (tlsClient e c nc nd).
Proof. unfold tlsClient. mono_auto. Qed.

Lemma mono_httpUpgrade e conn req pub v : mono (httpUpgrade e conn req pub v).
Proof. unfold httpUpgrade. mono_auto. Qed.

#[local] Hint Resolve mono_dialRegion mono_tlsClient mono_httpUpgrade : mono.

Lemma mono_upgrade e c tc nd : mono (upgrade e c tc nd).
Proof. unfold upgrade. mono_auto. Qed.

#[local] Hint Resolve mono_upgrade : mono.

Lemma mono_connect_attempt e c reg : mono (connect_attempt e c reg).
Proof. unfold connect_attempt. mono_auto. Qed.

#[local] Hint Resolve mono_connect_attempt : mono.

Lemma mono_connect e caller c : mono (connect e caller c).
Proof. unfold connect. mono_auto. Qed.

Lemma mono_closeForReconnect w c : mono (closeForReconnect w c).
Proof. unfold closeForReconnect. mono_auto. Qed.

Lemma mono_Close c : mono (Close c).
Proof. unfold Close. mono_auto. Qed.

#[local] Hint Resolve mono_connect mono_closeForReconnect mono_Close : mono.

Lemma mono_step_ s c : mono (step s c).
Proof. destruct s; simpl; mono_auto. Qed.

#[local] Hint Resolve mono_step_ : mono.

Lemma mono_run steps : forall c, mono (run steps c).
Proof. induction steps as [|s rest IH]; intros c; simpl; mono_auto; auto. Qed.

(** ** Fresh addresses *)

Lemma upgrade_fresh e c tc nd n dc pub n' t :
  upgrade e c tc nd n = (Returns (Ok (dc, pub)), n', t) ->
  (n <= dc < n')%nat.
Proof.
  unfold upgrade. intros H.
  apply bind_Returns in H. destruct H as (h & n1 & t1 & t2 & Hh & Hk & _).
  assert (n <= n1)%nat as Hn1.
  { eapply mono_le; [| exact Hh]. mono_auto. }
  destruct h as [[httpConn [serverPub v]]|err];
    [| unfold ret in Hk; discriminate].
  apply bind_Returns in Hk. destruct Hk as (u & n2 & t3 & t4 & Hu & Hk & _).
  assert (n1 <= n2)%nat as Hn2 by mono_from Hu.
  destruct (env_NewRequest e); [unfold ret in Hk; discriminate|].
  apply bind_Returns in Hk. destruct Hk as (herr & n3 & t5 & t6 & Hh' & Hk & _).
  assert (n2 <= n3)%nat as Hn3 by mono_from Hh'.
  destruct herr; [unfold ret in Hk; discriminate|].
  destruct (env_derp_NewClient e serverPub); [|unfold ret in Hk; discriminate].
  revert Hk. monad.
  destruct (preferred c); simpl;
    [destruct (env_derp_NotePreferred e n3 true); simpl|];
    intros Hk; inversion Hk; subst; lia.
Qed.

Lemma connect_attempt_fresh e c reg n tcpConn dc pub n' t :
  connect_attempt e c reg n = (Returns (tcpConn, Ok (dc, pub)), n', t) ->
  (n <= dc < n')%nat.
Proof.
  unfold connect_attempt. intros H.
  apply bind_Returns in H. destruct H as (x & n1 & t1 & t2 & Hd & Hk & _).
  assert (n <= n1)%nat as Hn1.
  { eapply mono_le; [| exact Hd]. mono_auto. }
  destruct x as [[tc nd] err].
  destruct err; [unfold ret in Hk; inversion Hk|].
  apply bind_Returns in Hk. destruct Hk as (tc' & n2 & t3 & t4 & Htc & Hk & _).
  assert (n1 <= n2)%nat as Hn2 by mono_from Htc.
  apply bind_Returns in Hk. destruct Hk as (r & n3 & t5 & t6 & Hup & Hk & _).
  apply bind_Returns in Hk. destruct Hk as (u & n4 & t7 & t8 & Hw & Hk & _).
  unfold ret in Hk. inversion Hk; subst.
  apply upgrade_fresh in Hup.
  assert (n3 <= n')%nat.
  { eapply mono_le; [| exact Hw]. mono_auto. }
  lia.
Qed.

(** What one [connect] does to the handle: nothing, or it stores a client
    at a fresh address and adds one to the generation. *)
Lemma connect_cases e caller c n r c' n' t :
  connect e caller c n = (Returns (r, c'), n', t) ->
  (n <= n')%nat /\
  ((c' = c /\
    match r with
    | Ok (cl, gen) => closed c = false /\ client c = Some cl /\ gen = connGen c
    | Err _ => True
    end)
   \/
   (exists dc, r = Ok (dc, connGen c') /\ closed c = false /\
               client c = None /\ client c' = Some dc /\
               connGen c' = wrap_int (connGen c + 1) /\
               closed c' = false /\ preferred c' = preferred c /\
               (n <= dc < n')%nat)).
Proof.
  intros H. split; [mono_from H; apply mono_connect|].
  revert H. unfold connect.
  destruct (closed c) eqn:Hc.
  { unfold ret. intros H. inversion H; subst. left. auto. }
  destruct (client c) as [cl|] eqn:Hcl.
  { unfold ret. intros H. inversion H; subst. left. auto. }
  match goal with
  | |- context [match ?x with Ok _ => _ | Err _ => _ end] => destruct x as [reg|err]
  end.
  2:{ unfold ret. intros H. inversion H; subst. left. auto. }
  intros H. apply bind_Returns in H.
  destruct H as ([tcpConn ra] & n1 & t1 & t2 & Ha & Hk & _).
  destruct ra as [[dc pub]|err].
  - unfold ret in Hk. inversion Hk; subst. right. exists dc.
    apply connect_attempt_fresh in Ha. simpl. rewrite Hc. auto 10.
  - apply bind_Returns in Hk. destruct Hk as (ts & n2 & t3 & t4 & Ht & Hk & _).
    apply bind_Returns in Hk. destruct Hk as (u & n3 & t5 & t6 & Hcl' & Hk & _).
    unfold ret in Hk. inversion Hk; subst. left. auto.
Qed.

Lemma closeForReconnect_eq w c n :
  closeForReconnect w c n =
  if optptr_eqb (client c) w
  then (Returns (set_client (set_netConn c None) None), n,
        match netConn c with Some nc => [EvConnClose nc] | None => [] end)
  else (Returns c, n, []).
Proof.
  unfold closeForReconnect. destruct (optptr_eqb (client c) w); simpl;
    [| reflexivity].
  destruct c as [? ? ? ? ? ? ? ? ? ? ? nc ? ? ?]; destruct nc; reflexivity.
Qed.

Lemma Close_eq c n :
  Close c n =
  match ctx c with
  | None => (Panics, n, [])
  | Some _ =>
      if closed c then (Returns (Some ErrClientClosed, set_ctx c (Some true)), n, [])
      else (Returns (None, set_closed (set_ctx c (Some true)) true), n,
            match netConn c with Some nc => [EvConnClose nc] | None => [] end)
  end.
Proof.
  unfold Close. destruct c as [? ? ? ? ? ? ? cx ? ? cl nc ? ? ?].
  destruct cx, cl, nc; reflexivity.
Qed.

(** A step leaves the stored client alone, clears it, or stores one at a
    fresh address. *)
Lemma step_client s c n c' n' t :
  step s c n = (Returns c', n', t) ->
  (n <= n')%nat /\
  (client c' = client c \/ client c' = None \/
   exists dc, client c' = Some dc /\ (n <= dc < n')%nat).
Proof.
  intros H. split; [mono_from H; apply mono_step_|].
  destruct s as [e caller|w| | v|v]; simpl in H.
  - apply bind_Returns in H. destruct H as ([r c1] & n1 & t1 & t2 & Hc & Hk & _).
    unfold ret in Hk. inversion Hk; subst.
    apply connect_cases in Hc. destruct Hc as [_ [[-> _]|(dc & _ & _ & _ & Hd & _ & _ & _ & Hr)]];
      eauto.
  - rewrite closeForReconnect_eq in H.
    destruct (optptr_eqb (client c) w); inversion H; subst; simpl; auto.
  - apply bind_Returns in H. destruct H as ([r c1] & n1 & t1 & t2 & Hc & Hk & _).
    unfold ret in Hk. inversion Hk; subst.
    rewrite Close_eq in Hc. destruct (ctx c); [|discriminate].
    destruct (closed c); inversion Hc; subst; simpl; auto.
  - unfold ret in H. inversion H; subst. simpl. auto.
  - destruct (Bool.eqb (preferred c) v); unfold ret in H; inversion H; subst;
      simpl; auto.
Qed.

(** An address handed out earlier is never stored again once it has left
    the slot. *)
Lemma run_never_restores p steps :
  forall c n c' n' t,
    (p < n)%nat -> client c <> Some p ->
    run steps c n = (Returns c', n', t) ->
    (p < n')%nat /\ client c' <> Some p.
Proof.
  induction steps as [|s rest IH]; intros c n c' n' t Hp Hc H; simpl in H.
  - unfold ret in H. inversion H; subst. auto.
  - apply bind_Returns in H. destruct H as (c1 & n1 & t1 & t2 & Hs & Hr & _).
    apply step_client in Hs. destruct Hs as [Hn Hs].
    apply (IH c1 n1 c' n' t2); [lia | | exact Hr].
    destruct Hs as [-> | [-> | (dc & -> & Hd)]]; try congruence.
    intros [=]. lia.
Qed.

(** ** closeForReconnect *)

(** C6. [closeForReconnect] is a guarded teardown.  When the stored client
    is not the witness, nothing changes and nothing happens.  When it is,
    the transport is closed and both the transport closer and the client are
    cleared.  Of two calls with the same witness [p], whatever critical
    sections [mid] the other goroutines take between them, the first
    performs the teardown and the second changes nothing. *)
Theorem closeForReconnect_guarded :
  (forall (w : option ptr) (c : Client) (n : ptr),
      client c <> w -> closeForReconnect w c n = (Returns c, n, [])) /\
  (forall (w : option ptr) (c : Client) (n : ptr),
      client c = w ->
      closeForReconnect w c n
      = (Returns (set_client (set_netConn c None) None), n,
         match netConn c with Some nc => [EvConnClose nc] | None => [] end)) /\
  (forall (p : ptr) (c : Client) (n : ptr) (mid : list Step)
          (c1 : Client) (n1 : ptr) (t1 : list Event)
          (c2 : Client) (n2 : ptr) (t2 : list Event),
      client c = Some p -> (p < n)%nat ->
      closeForReconnect (Some p) c n = (Returns c1, n1, t1) ->
      run mid c1 n1 = (Returns c2, n2, t2) ->
      (client c1 = None /\ netConn c1 = None /\
       t1 = match netConn c with Some nc => [EvConnClose nc] | None => [] end) /\
      closeForReconnect (Some p) c2 n2 = (Returns c2, n2, [])).
Proof.
  split; [| split].
  - intros w c n H. rewrite closeForReconnect_eq.
    destruct (optptr_eqb (client c) w) eqn:E; [| reflexivity].
    apply optptr_eqb_eq in E. contradiction.
  - intros w c n H. rewrite closeForReconnect_eq.
    apply optptr_eqb_eq in H. rewrite H. reflexivity.
  - intros p c n mid c1 n1 t1 c2 n2 t2 Hc Hp H1 Hrun.
    rewrite closeForReconnect_eq in H1.
    assert (optptr_eqb (client c) (Some p) = true) as E
        by (apply optptr_eqb_eq; exact Hc).
    rewrite E in H1. inversion H1; subst. simpl.
    split; [auto|].
    assert (client c2 <> Some p) as Hne.
    { eapply (run_never_restores p mid); [exact Hp | | exact Hrun].
      simpl. discriminate. }
    rewrite closeForReconnect_eq.
    destruct (optptr_eqb (client c2) (Some p)) eqn:E2; [| reflexivity].
    apply optptr_eqb_eq in E2. contradiction.
Qed.

Lemma closeForReconnect_guarded_witness :
  closeForReconnect (Some 2%nat)
    (final [SConnect env_ok "a"; SCloseForReconnect (Some 2%nat);
            SConnect env_ok "b"] demo_client) 6%nat
  = (Returns (final [SConnect env_ok "a"; SCloseForReconnect (Some 2%nat);
                     SConnect env_ok "b"] demo_client), 6%nat, []).
Proof.
  apply (proj2 (proj2 (proj2 closeForReconnect_guarded) 2%nat
           (final [SConnect env_ok "a"] demo_client) 3%nat
           [SConnect env_ok "b"]
           (final [SConnect env_ok "a"; SCloseForReconnect (Some 2%nat)] demo_client)
           3%nat [EvConnClose 0%nat]
           (final [SConnect env_ok "a"; SCloseForReconnect (Some 2%nat);
                   SConnect env_ok "b"] demo_client)
           6%nat
           (events (run [SConnect env_ok "b"]
              (final [SConnect env_ok "a"; SCloseForReconnect (Some 2%nat)] demo_client)
              3%nat))
           eq_refl ltac:(lia) eq_refl eq_refl)).
Defined.

(** ** Close *)

(** C3, as stated, fails: after a connect and a [Close] the handle is
    closed and still stores the client and the transport closer. *)
Lemma closed_slot_not_empty :
  closed (final [SConnect env_ok "derphttp.Client.Connect"; SClose] demo_client) = true /\
  ~ (client (final [SConnect env_ok "derphttp.Client.Connect"; SClose] demo_client) = None /\
     netConn (final [SConnect env_ok "derphttp.Client.Connect"; SClose] demo_client) = None).
Proof.
  split; [reflexivity|]. intros [H _]. vm_compute in H. discriminate.
Qed.

(** C3, amended. [Close] on a handle that is not closed marks it closed and
    closes the transport if one is stored; it leaves the stored client and
    the stored transport closer as they were, so the slot is empty after
    [Close] exactly when it was empty before.  From then on [connect] and
    [SendPong] return [ErrClientClosed] without looking at the slot. *)
Theorem Close_marks_closed_keeps_slot :
  forall (c : Client) (n : ptr),
    ctx c <> None -> closed c = false ->
    exists c',
      Close c n
      = (Returns (None, c'), n,
         match netConn c with Some nc => [EvConnClose nc] | None => [] end) /\
      closed c' = true /\
      client c' = client c /\ netConn c' = netConn c /\
      connGen c' = connGen c /\
      (forall e caller k,
          connect e caller c' k = (Returns (Err ErrClientClosed, c'), k, [])) /\
      (forall e data k,
          SendPong e data c' k = (Returns (Some ErrClientClosed, c'), k, [])).
Proof.
  intros c n Hctx Hcl. rewrite Close_eq.
  destruct (ctx c) eqn:E; [| contradiction]. rewrite Hcl.
  eexists. split; [reflexivity|]. simpl. repeat split.
Qed.

Lemma Close_marks_closed_keeps_slot_witness :
  exists c',
    Close (final [SConnect env_ok "a"] demo_client) 3%nat
    = (Returns (None, c'), 3%nat, [EvConnClose 0%nat]) /\
    closed c' = true /\
    client c' = Some 2%nat /\ netConn c' = Some 0%nat /\
    connGen c' = 1 /\
    (forall e caller k,
        connect e caller c' k = (Returns (Err ErrClientClosed, c'), k, [])) /\
    (forall e data k,
        SendPong e data c' k = (Returns (Some ErrClientClosed, c'), k, [])).
Proof.
  apply (Close_marks_closed_keeps_slot (final [SConnect env_ok "a"] demo_client) 3%nat);
    [discriminate | reflexivity].
Defined.

(** ** Recv *)

(** C10. [Recv] is [RecvDetail] with the generation dropped: same message,
    same error, same handle, same effects, whatever the other goroutines do
    meanwhile.  When [RecvDetail] returns an error and the handle is closed
    by then, the error is [ErrClientClosed], and so is [Recv]'s. *)
Theorem Recv_is_RecvDetail :
  forall (e : Env) (during after : list Step) (c : Client) (n : ptr),
    Recv e during after c n
    = match RecvDetail e during after c n with
      | (Returns (m, _, err, c'), n', t) => (Returns (m, err, c'), n', t)
      | (Panics, n', t) => (Panics, n', t)
      end /\
    (forall m gen err c' n' t,
        RecvDetail e during after c n = (Returns (m, gen, Some err, c'), n', t) ->
        closed c' = true ->
        err = ErrClientClosed /\
        Recv e during after c n = (Returns (m, Some ErrClientClosed, c'), n', t)).
Proof.
  intros e during after c n.
  assert (Recv e during after c n
          = match RecvDetail e during after c n with
            | (Returns (m, _, err, c'), n', t) => (Returns (m, err, c'), n', t)
            | (Panics, n', t) => (Panics, n', t)
            end) as Heq.
  { unfold Recv, bind.
    destruct (RecvDetail e during after c n) as [[[[[[m g] err] c']|] n'] t];
      simpl; [rewrite app_nil_r|]; reflexivity. }
  split; [exact Heq|].
  intros m gen err c' n' t H Hcl.
  assert (err = ErrClientClosed) as ->.
  { revert H. unfold RecvDetail. intros H.
    apply bind_Returns in H. destruct H as ([r c1] & n1 & t1 & t2 & Hc & Hk & _).
    destruct r as [[cl g]|err0].
    - apply bind_Returns in Hk. destruct Hk as (u & n2 & t3 & t4 & _ & Hk & _).
      apply bind_Returns in Hk. destruct Hk as (c2 & n3 & t5 & t6 & _ & Hk & _).
      destruct (env_derp_Recv e cl) as [m0 [rerr|]].
      + apply bind_Returns in Hk. destruct Hk as (c3 & n4 & t7 & t8 & _ & Hk & _).
        apply bind_Returns in Hk. destruct Hk as (c4 & n5 & t9 & t10 & _ & Hk & _).
        unfold ret in Hk. inversion Hk; subst. unfold isClosed. rewrite Hcl.
        reflexivity.
      + unfold ret in Hk. inversion Hk.
    - assert (c1 = c) as ->.
      { apply connect_cases in Hc. destruct Hc as [_ [[-> _]|(dc & Hd & _)]];
          [reflexivity | discriminate]. }
      unfold ret in Hk. inversion Hk; subst.
      rewrite (connect_closed e "derphttp.Client.Recv" c' n Hcl) in Hc.
      inversion Hc. reflexivity. }
  split; [reflexivity|]. rewrite Heq, H. reflexivity.
Qed.

Lemma Recv_is_RecvDetail_witness :
  exists m c' n' t,
    Recv (env_net (fun _ _ => None) (fun _ _ => None)
            (fun _ => (None, Some (extError "EOF"))))
         [SClose] [] demo_client 0%nat
    = (Returns (m, Some ErrClientClosed, c'), n', t).
Proof.
  do 4 eexists.
  refine (proj2 (proj2 (Recv_is_RecvDetail _ [SClose] [] demo_client 0%nat)
                   _ _ _ _ _ _ _ _)).
  - vm_compute. reflexivity.
  - reflexivity.
Defined.

(** ** NotePreferred *)

Lemma NotePreferred_same e v others c n :
  preferred c = v -> NotePreferred e v others c n = (Returns c, n, []).
Proof.
  intros <-. unfold NotePreferred. rewrite Bool.eqb_reflx. reflexivity.
Qed.

Lemma NotePreferred_changed e v c n :
  preferred c <> v ->
  NotePreferred e v [] c n =
  match client c with
  | None => (Returns (set_preferred c v), n, [])
  | Some cl =>
      match env_derp_NotePreferred e cl v with
      | None => (Returns (set_preferred c v), n, [EvDerpNotePreferred cl v])
      | Some _ =>
          (Returns (set_client (set_netConn (set_preferred c v) None) None), n,
           EvDerpNotePreferred cl v ::
           match netConn c with Some nc => [EvConnClose nc] | None => [] end)
      end
  end.
Proof.
  intros H. unfold NotePreferred.
  destruct (Bool.eqb (preferred c) v) eqn:E.
  { apply Bool.eqb_prop in E. contradiction. }
  simpl run. monad. simpl.
  destruct (client c) as [cl|] eqn:Hcl; [| reflexivity].
  destruct (env_derp_NotePreferred e cl v); [| reflexivity].
  rewrite closeForReconnect_eq. simpl. rewrite Hcl. simpl.
  rewrite Nat.eqb_refl. reflexivity.
Qed.



(** ** The node dialer *)

Lemma shouldDialProto_enabled e s pred :
  pred IP_zero = false ->
  (shouldDialProto e s pred = true <-> family_enabled e s pred).
Proof.
  intros Hz. unfold shouldDialProto, family_enabled.
  destruct (String.eqb s "") eqn:E.
  - apply String.eqb_eq in E. tauto.
  - apply String.eqb_neq in E.
    destruct (env_ParseIP e s) as [ip|].
    + split; [eauto | intros [H|(ip' & [= <-] & H)]; [contradiction | exact H]].
    + rewrite Hz. split; [discriminate | intros [H|(ip' & [=] & _)]; contradiction].
Qed.

Lemma startDial_events e n d proto k :
  exists r k',
    startDial e n d proto k
    = (Returns r, k',
       [EvDial proto
          (JoinHostPort (if String.eqb d "" then HostName n else d)
             (if DERPPort n =? 0 then "443" else Sprint_int (DERPPort n)))]).
Proof.
  unfold startDial, dialContext. monad.
  destruct (env_DialContext e proto _); simpl; eauto.
Qed.

(** The racers started are exactly those of the enabled families. *)
Lemma start_racers_events e n k :
  let addr d := JoinHostPort (if String.eqb d "" then HostName n else d)
                  (if DERPPort n =? 0 then "443" else Sprint_int (DERPPort n)) in
  exists rs k',
    start_racers e n k
    = (Returns rs, k',
       ((if shouldDialProto e (IPv4 n) Is4
         then [EvDial "tcp4" (addr (IPv4 n))] else [])
        ++ (if shouldDialProto e (IPv6 n) Is6
            then [EvDial "tcp6" (addr (IPv6 n))] else []))%list) /\
    (rs = [] <-> shouldDialProto e (IPv4 n) Is4 = false /\
                 shouldDialProto e (IPv6 n) Is6 = false) /\
    (rs = [] -> k' = k).
Proof.
  intros addr. subst addr. unfold start_racers.
  destruct (startDial_events e n (IPv4 n) "tcp4" k) as (r4 & k4 & H4).
  destruct (shouldDialProto e (IPv4 n) Is4).
  - destruct (startDial_events e n (IPv6 n) "tcp6" k4) as (r6 & k6 & H6).
    destruct (shouldDialProto e (IPv6 n) Is6);
      cbv [bind ret]; rewrite H4; cbv beta iota; rewrite ?H6; cbv beta iota;
      simpl; eexists; eexists;
      (split; [reflexivity|]);
      (split; [|discriminate]);
      (split; [discriminate | intros [? ?]; discriminate]).
  - destruct (startDial_events e n (IPv6 n) "tcp6" k) as (r6 & k6 & H6).
    destruct (shouldDialProto e (IPv6 n) Is6).
    + cbv [bind ret]. rewrite H6. cbv beta iota. simpl.
      eexists; eexists. split; [reflexivity|].
      split; [|discriminate].
      split; [discriminate | intros [? ?]; discriminate].
    + cbv [bind ret]. simpl. exists [], k.
      split; [reflexivity|]. tauto.
Qed.

Lemma close_unreceived_events l :
  forall k, exists t,
    close_unreceived l k = (Returns tt, k, t) /\
    forall proto addr, ~ In (EvDial proto addr) t.
Proof.
  induction l as [|[conn|err] l IH]; intros k; simpl.
  - exists []. split; [reflexivity | intros ? ? []].
  - destruct (IH k) as (t & Ht & Hno). unfold bind, emit. rewrite Ht.
    eexists. split; [reflexivity|]. simpl. intros proto addr [H|H];
      [discriminate | exact (Hno _ _ H)].
  - apply IH.
Qed.

Lemma tlsServerName_Some c n k :
  tlsServerName c (Some n) k
  = (Returns (match url c with Some u => Host u | None => HostName n end), k, []).
Proof. unfold tlsServerName. destruct (url c); reflexivity. Qed.

Lemma race_loop_total deadline ctxErr arrivals :
  forall k firstErr, exists r unreceived,
    race_loop deadline ctxErr k firstErr arrivals = (r, unreceived).
Proof. intros. destruct (race_loop _ _ _ _ _); eauto. Qed.

Lemma dialNode_no_proxy e c n k :
  proxyFor e c n = None -> dialNode e c n k = dialNode_race e n k.
Proof.
  intros Hp. unfold dialNode. unfold bind at 1. rewrite tlsServerName_Some.
  unfold proxyFor in Hp.
  destruct (env_ProxyFromEnvironment e _) as [[pu|] [err|]];
    try discriminate;
    destruct (dialNode_race e n k) as [[o k'] t]; reflexivity.
Qed.

(** The race starts the racers, fails at once when there are none, and
    otherwise only closes connections after the dials. *)
Lemma dialNode_race_events e n k :
  exists rs k1 t1,
    start_racers e n k = (Returns rs, k1, t1) /\
    match rs with
    | [] =>
        dialNode_race e n k
        = (Returns (Err (errorString
             "both IPv4 and IPv6 are explicitly disabled for node")), k1, t1)
    | _ =>
        exists r t2,
          dialNode_race e n k = (Returns r, k1, (t1 ++ t2)%list) /\
          forall proto addr, ~ In (EvDial proto addr) t2
    end.
Proof.
  destruct (start_racers_events e n k) as (rs & k1 & Hs & _).
  exists rs, k1. eexists. split; [exact Hs|].
  destruct rs as [|r0 rs']; unfold dialNode_race; unfold bind at 1; rewrite Hs.
  - unfold ret. rewrite app_nil_r. reflexivity.
  - cbv zeta.
    match goal with
    | |- context [race_loop ?a ?b ?d ?f ?g] =>
        destruct (race_loop a b d f g) as [r unreceived]
    end.
    destruct (close_unreceived_events unreceived k1) as (t2 & Ht2 & Hno).
    unfold bind. rewrite Ht2. unfold ret. rewrite app_nil_r.
    exists r, t2. split; [reflexivity | exact Hno].
Qed.




(** ** The region dialer *)

Lemma value_bind {A B} (m : M A) (k : A -> M B) n a n1 t1 :
  m n = (Returns a, n1, t1) -> value (bind m k n) = value (k a n1).
Proof.
  intros H. unfold bind. rewrite H. destruct (k a n1) as [[b n2] t2].
  reflexivity.
Qed.

Lemma targetString_reg c reg k :
  targetString c (Some reg) k
  = (Returns (match url c with
              | Some u => URL_String u
              | None => "region " ++ Sprint_int (RegionID reg)
                        ++ " (" ++ RegionCode reg ++ ")"
              end), k, []).
Proof. unfold targetString. destruct (url c); reflexivity. Qed.

(** Once a first error is recorded, failing nodes do not replace it. *)
Lemma dialRegion_loop_keeps_first e c reg f nodes :
  (forall n k, In n nodes -> STUNOnly n = false ->
               exists err, value (dialNode e c n k) = Returns (Err err)) ->
  forall k,
    value (dialRegion_loop e c reg nodes (Some f) k)
    = Returns (None, None, Some f).
Proof.
  induction nodes as [|n rest IH]; intros Hfail k; simpl.
  - reflexivity.
  - destruct (STUNOnly n) eqn:Hs.
    + apply IH. intros n' k' Hin. apply Hfail. now right.
    + destruct (Hfail n k (or_introl eq_refl) Hs) as (err & Herr).
      destruct (dialNode e c n k) as [[o k1] t1] eqn:Hd.
      unfold value in Herr. simpl in Herr. subst o.
      rewrite (value_bind _ _ _ _ _ _ Hd).
      apply IH. intros n' k' Hin. apply Hfail. now right.
Qed.

(** C2, what the code does.  When the node list of a region begins with a
    STUN-only node and every other node is STUN-only or fails to dial,
    [dialRegion] returns the synthesized "no non-STUNOnly nodes" error: the
    errors of the failing nodes never replace it.  An empty node list gives
    the "no nodes for" error, without a dial. *)
Theorem dialRegion_stun_first_masks_error :
  forall (e : Env) (c : Client) (reg : DERPRegion) (k : ptr),
    (forall n0 rest,
        Nodes reg = n0 :: rest -> STUNOnly n0 = true ->
        (forall n k', In n rest -> STUNOnly n = false ->
                      exists err, value (dialNode e c n k') = Returns (Err err)) ->
        exists t,
          value (targetString c (Some reg) k) = Returns t /\
          value (dialRegion e c reg k)
          = Returns (None, None,
                     Some (errorString ("no non-STUNOnly nodes for " ++ t)))) /\
    (Nodes reg = [] ->
     exists t,
       value (targetString c (Some reg) k) = Returns t /\
       dialRegion e c reg k
       = (Returns (None, None, Some (errorString ("no nodes for " ++ t))), k, [])).
Proof.
  intros e c reg k. split.
  - intros n0 rest Hn Hs Hfail. rewrite targetString_reg.
    eexists. split; [reflexivity|].
    unfold dialRegion. rewrite Hn. simpl. rewrite Hs.
    rewrite (value_bind _ _ _ _ _ _ (targetString_reg c reg k)).
    apply dialRegion_loop_keeps_first. exact Hfail.
  - intros Hn. rewrite targetString_reg. eexists. split; [reflexivity|].
    unfold dialRegion. rewrite Hn. unfold bind. rewrite targetString_reg.
    reflexivity.
Qed.

Lemma dialRegion_stun_first_masks_error_witness :
  exists t,
    value (targetString (region_client []) (Some (region_nyc
             [node "stun.test" "" "" true; node "down.test" "" "" false])) 0%nat)
    = Returns t /\
    value (dialRegion (env_net dial_healthy (fun _ _ => None) (fun _ => (None, None)))
             (region_client [])
             (region_nyc [node "stun.test" "" "" true; node "down.test" "" "" false])
             0%nat)
    = Returns (None, None, Some (errorString ("no non-STUNOnly nodes for " ++ t))).
Proof.
  apply (proj1 (dialRegion_stun_first_masks_error
                  (env_net dial_healthy (fun _ _ => None) (fun _ => (None, None)))
                  (region_client [])
                  (region_nyc [node "stun.test" "" "" true; node "down.test" "" "" false])
                  0%nat)
           (node "stun.test" "" "" true) [node "down.test" "" "" false]
           eq_refl eq_refl).
  intros n k' [<-|[]] _. eexists. vm_compute. reflexivity.
Defined.

(** ** The meta certificate and the fast start *)

Lemma BitLen_le_8 (x : Z) : (BitLen x <=? 8) = true <-> -255 <= x <= 255.
Proof.
  unfold BitLen. destruct (Z.abs x =? 0) eqn:E.
  - apply Z.eqb_eq in E. split; [lia | reflexivity].
  - apply Z.eqb_neq in E. rewrite Z.leb_le.
    assert (0 < Z.abs x) as Hpos by lia.
    pose proof (Z.log2_lt_pow2 (Z.abs x) 8 Hpos) as H.
    change (2 ^ 8) with 256 in H. split; intros H'.
    + assert (Z.abs x < 256) by (apply H; lia). lia.
    + assert (Z.log2 (Z.abs x) < 8) by (apply H; lia). lia.
Qed.

Lemma Int64_small (x : Z) : -255 <= x <= 255 -> Int64 x = x.
Proof.
  intros H. unfold Int64, wrap_int, int_bits.
  assert (Z.abs x mod 2 ^ 64 = Z.abs x) as -> by (apply Z.mod_small; lia).
  assert ((Z.abs x + 2 ^ (64 - 1)) mod 2 ^ 64 - 2 ^ (64 - 1) = Z.abs x) as ->.
  { rewrite Z.mod_small; lia. }
  destruct (x <? 0) eqn:E.
  - apply Z.ltb_lt in E. rewrite Z.mod_small; lia.
  - apply Z.ltb_ge in E. lia.
Qed.

(** [parseMetaCert] returns at the first qualifying certificate. *)
Lemma parseMetaCert_first certs :
  (exists pre cert post pub,
      certs = (pre ++ cert :: post)%list /\
      (forall c', In c' pre -> qualifies c' = false) /\
      HasPrefix (CommonName cert) "derpkey" = true /\
      NewPublicFromHexMem (TrimPrefix (CommonName cert) "derpkey") = Ok pub /\
      -255 <= SerialNumber cert <= 255 /\
      parseMetaCert certs = (pub, SerialNumber cert))
  \/ ((forall c', In c' certs -> qualifies c' = false) /\
      parseMetaCert certs = (Public_zero, 0)).
Proof.
  induction certs as [|cert rest IH].
  - right. split; [intros ? [] | reflexivity].
  - destruct (qualifies cert) eqn:Hq.
    + left. unfold qualifies in Hq. apply andb_true_iff in Hq.
      destruct Hq as [Hp Hq].
      destruct (NewPublicFromHexMem (TrimPrefix (CommonName cert) "derpkey"))
        as [pub|err] eqn:Hk; [| discriminate].
      exists [], cert, rest, pub. simpl. rewrite Hp, Hk, Hq.
      apply BitLen_le_8 in Hq. rewrite (Int64_small _ Hq).
      repeat split; auto; try lia.
    + assert (parseMetaCert (cert :: rest) = parseMetaCert rest) as Heq.
      { simpl. unfold qualifies in Hq.
        destruct (HasPrefix (CommonName cert) "derpkey"); [| reflexivity].
        destruct (NewPublicFromHexMem _); [| reflexivity].
        simpl in Hq. rewrite Hq. reflexivity. }
      rewrite Heq.
      destruct IH as [(pre & cert' & post & pub & -> & Hpre & Hp & Hk & Hs & Hr)
                     | [Hall Hr]].
      * left. exists (cert :: pre), cert', post, pub.
        repeat split; auto; try lia.
        intros c' [<-|Hin]; auto.
      * right. split; [| exact Hr]. intros c' [<-|Hin]; auto.
Qed.

Lemma httpUpgrade_eq e conn req pub v n :
  httpUpgrade e conn req pub v n =
  if fastStart pub v then
    (Returns (env_req_Write e), n,
     [EvReqWrite conn (Request_Set req fastStartHeader "1")])
  else
    match env_req_Write e with
    | Some err => (Returns (Some err), n, [EvReqWrite conn req])
    | None =>
        match env_Flush e with
        | Some err => (Returns (Some err), n, [EvReqWrite conn req; EvFlush conn])
        | None =>
            (Returns
               match env_ReadResponse e with
               | Err err => Some err
               | Ok resp =>
                   if negb (StatusCode resp =? StatusSwitchingProtocols)
                   then Some (errorString
                                ("GET failed: <nil>: " ++ Body resp))
                   else None
               end, n,
             [EvReqWrite conn req; EvFlush conn; EvReadResponse conn])
        end
    end.
Proof.
  unfold httpUpgrade. destruct (fastStart pub v); [reflexivity|].
  destruct (env_req_Write e); [reflexivity|].
  destruct (env_Flush e); [reflexivity|].
  destruct (env_ReadResponse e) as [resp|err]; [| reflexivity].
  destruct (negb (StatusCode resp =? StatusSwitchingProtocols)); reflexivity.
Qed.

Lemma parseMetaCert_at pre cert post pub :
  (forall c', In c' pre -> qualifies c' = false) ->
  HasPrefix (CommonName cert) "derpkey" = true ->
  NewPublicFromHexMem (TrimPrefix (CommonName cert) "derpkey") = Ok pub ->
  -255 <= SerialNumber cert <= 255 ->
  parseMetaCert (pre ++ cert :: post) = (pub, SerialNumber cert).
Proof.
  intros Hpre Hp Hk Hs. induction pre as [|c0 pre IH]; simpl.
  - rewrite Hp, Hk. apply BitLen_le_8 in Hs. rewrite Hs.
    apply BitLen_le_8 in Hs. now rewrite Int64_small.
  - assert (qualifies c0 = false) as Hq by (apply Hpre; now left).
    unfold qualifies in Hq.
    destruct (HasPrefix (CommonName c0) "derpkey");
      [| apply IH; intros; apply Hpre; now right].
    destruct (NewPublicFromHexMem (TrimPrefix (CommonName c0) "derpkey"));
      [| apply IH; intros; apply Hpre; now right].
    simpl in Hq. rewrite Hq. apply IH. intros; apply Hpre; now right.
Qed.

(** The test of line 311 on what [connect] learned from the TLS state. *)
Lemma fastStart_metaCert (st : ConnectionState) :
  fastStart (fst (metaCert st)) (snd (metaCert st)) = true <->
  VersionTLS13 <= Version st /\
  exists pre cert post pub,
    PeerCertificates st = (pre ++ cert :: post)%list /\
    (forall c', In c' pre -> qualifies c' = false) /\
    HasPrefix (CommonName cert) "derpkey" = true /\
    NewPublicFromHexMem (TrimPrefix (CommonName cert) "derpkey") = Ok pub /\
    -255 <= SerialNumber cert <= 255 /\
    IsZero pub = false /\ SerialNumber cert <> 0.
Proof.
  unfold metaCert. split.
  - destruct (Version st >=? VersionTLS13) eqn:Hv; [| discriminate].
    assert (VersionTLS13 <= Version st) as Hv' by lia.
    destruct (parseMetaCert_first (PeerCertificates st))
      as [(pre & cert & post & pub & Hc & Hpre & Hp & Hk & Hs & Hr) | [_ Hr]];
      rewrite Hr; simpl; [| discriminate].
    unfold fastStart. intros H. apply andb_true_iff in H. destruct H as [Hz Hn].
    apply negb_true_iff in Hz, Hn. apply Z.eqb_neq in Hn.
    split; [exact Hv'|]. exists pre, cert, post, pub. auto 10.
  - intros (Hv & pre & cert & post & pub & Hc & Hpre & Hp & Hk & Hs & Hz & Hn).
    assert ((Version st >=? VersionTLS13) = true) as -> by lia.
    rewrite Hc, (parseMetaCert_at pre cert post pub) by assumption. simpl.
    unfold fastStart. rewrite Hz. apply Z.eqb_neq in Hn. rewrite Hn. reflexivity.
Qed.

Lemma tlsClient_returns e c tc nd n :
  (url c <> None \/ nd <> None) ->
  (env_SSLKEYLOGFILE e = "" \/ env_OpenFile e = None) ->
  exists conf, tlsClient e c tc nd n = (Returns n, S n, [EvTLSClient n tc conf]).
Proof.
  intros Ht Hk. unfold tlsClient, tlsServerName.
  destruct (url c) as [u|], nd as [nd|];
    try (destruct Ht as [Ht|Ht]; congruence);
    monad; simpl;
    (destruct (String.eqb (env_SSLKEYLOGFILE e) "") eqn:E; simpl;
     [eexists; reflexivity|]);
    (destruct Hk as [Hk|Hk];
     [rewrite Hk in E; discriminate | rewrite Hk; eexists; reflexivity]).
Qed.

Lemma urlString_returns c nd k :
  (url c <> None \/ nd <> None) ->
  exists u, urlString c nd k = (Returns u, k, []).
Proof.
  intros Ht. unfold urlString.
  destruct (url c) as [u|], nd as [nd|];
    try (destruct Ht as [Ht|Ht]; congruence); eexists; reflexivity.
Qed.

(** What the upgrade does after a TLS handshake that went through: the
    fast start when the test of line 311 holds, the slow start otherwise. *)
Lemma upgrade_tls_branch e c tc nd n :
  useHTTPS c = true ->
  (url c <> None \/ nd <> None) ->
  (env_SSLKEYLOGFILE e = "" \/ env_OpenFile e = None) ->
  env_Handshake e = None -> env_NewRequest e = None ->
  if fastStart (fst (metaCert (env_ConnectionState e)))
               (snd (metaCert (env_ConnectionState e)))
  then took_fast_start (events (upgrade e c tc nd n))
  else
    (exists req, req_writes (events (upgrade e c tc nd n)) = [req] /\
                 has_fast_start req = false) /\
    (count is_read_response (events (upgrade e c tc nd n)) <= 1)%nat /\
    (env_req_Write e = None -> env_Flush e = None ->
     count is_read_response (events (upgrade e c tc nd n)) = 1%nat) /\
    (forall x, value (upgrade e c tc nd n) = Returns (Ok x) ->
               exists resp, env_ReadResponse e = Ok resp /\
                            StatusCode resp = StatusSwitchingProtocols).
Proof.
  intros Hs Ht Hk Hh Hr.
  destruct (tlsClient_returns e c tc nd n Ht Hk) as (conf & Htls).
  destruct (urlString_returns c nd (S n) Ht) as (u & Hu).
  unfold upgrade. rewrite Hs, Hh, Hr.
  cbv [bind]. rewrite Htls. cbv [emit ret]. cbv beta iota.
  destruct (metaCert (env_ConnectionState e)) as [pub v]. simpl fst. simpl snd.
  rewrite Hu. rewrite httpUpgrade_eq.
  destruct (fastStart pub v).
  - unfold took_fast_start.
    destruct (env_req_Write e); destruct (env_derp_NewClient e pub);
      destruct (preferred c); cbv [alloc]; simpl;
      try destruct (env_derp_NotePreferred e (S n) true); simpl;
      (split; [eexists; split; [reflexivity|]; simpl; auto | reflexivity]).
  - destruct (env_req_Write e) eqn:Hw; destruct (env_Flush e) eqn:Hf;
      destruct (env_ReadResponse e) as [resp|err] eqn:Hresp;
      try destruct (StatusCode resp =? StatusSwitchingProtocols) eqn:Est;
      destruct (env_derp_NewClient e pub); destruct (preferred c);
      cbv [alloc]; simpl;
      try destruct (env_derp_NotePreferred e (S n) true); simpl;
      (split; [eexists; split; reflexivity|]);
      (split; [unfold count; simpl; lia|]);
      (split; [intros; try discriminate; reflexivity|]);
      intros x Hx; try discriminate Hx;
      exists resp; (split; [reflexivity | now apply Z.eqb_eq]).
Qed.

Lemma took_fast_start_not_slow t req :
  req_writes t = [req] -> has_fast_start req = false -> ~ took_fast_start t.
Proof.
  intros Hw Hf [(r & Hr & Hin) _]. rewrite Hw in Hr. injection Hr as <-.
  unfold has_fast_start in Hf.
  assert (existsb (fun kv => String.eqb (fst kv) fastStartHeader) (Header req)
          = true) as H.
  { apply existsb_exists. exists (fastStartHeader, "1").
    split; [exact Hin | apply String.eqb_refl]. }
  congruence.
Qed.

(** C4, as stated, fails: under TLS 1.3 with a meta certificate whose key
    parses and whose serial number is 0, which fits in [0, 255], [connect]
    takes the slow start: it reads an HTTP response. *)
Lemma fast_start_not_taken_for_serial_zero :
  (VersionTLS13 <= VersionTLS13 /\
   exists cert pub,
     In cert [metacert 0] /\
     HasPrefix (CommonName cert) "derpkey" = true /\
     NewPublicFromHexMem (TrimPrefix (CommonName cert) "derpkey") = Ok pub /\
     0 <= SerialNumber cert <= 255) /\
  ~ took_fast_start
      (events (connect (env_tls {| Version := VersionTLS13;
                                   PeerCertificates := [metacert 0] |})
                 "derphttp.Client.Connect" demo_client 0%nat)) /\
  count is_read_response
    (events (connect (env_tls {| Version := VersionTLS13;
                                 PeerCertificates := [metacert 0] |})
               "derphttp.Client.Connect" demo_client 0%nat)) = 1%nat.
Proof.
  split; [| split].
  - split; [lia|]. exists (metacert 0), demo_key.
    split; [now left|]. split; [vm_compute; reflexivity|].
    split; [vm_compute; reflexivity|]. simpl. lia.
  - intros [_ H]. vm_compute in H. discriminate H.
  - vm_compute. reflexivity.
Qed.

Lemma upgrade_no_request e c tc nd n err :
  useHTTPS c = true ->
  (url c <> None \/ nd <> None) ->
  (env_SSLKEYLOGFILE e = "" \/ env_OpenFile e = None) ->
  env_Handshake e = None -> env_NewRequest e = Some err ->
  req_writes (events (upgrade e c tc nd n)) = [] /\
  count is_read_response (events (upgrade e c tc nd n)) = 0%nat /\
  value (upgrade e c tc nd n) = Returns (Err err).
Proof.
  intros Hs Ht Hk Hh Hr.
  destruct (tlsClient_returns e c tc nd n Ht Hk) as (conf & Htls).
  destruct (urlString_returns c nd (S n) Ht) as (u & Hu).
  unfold upgrade. rewrite Hs, Hh, Hr.
  cbv [bind]. rewrite Htls. cbv [emit ret]. cbv beta iota.
  destruct (metaCert (env_ConnectionState e)) as [pub v].
  rewrite Hu. repeat split.
Qed.

(** C4, amended.  After a TLS handshake that went through, [connect] takes
    the fast-start shortcut (one request, with the header
    [Derp-Fast-Start: 1], and no HTTP response read) exactly when the upgrade
    request could be built ([http.NewRequest] returned no error), the
    negotiated version is at least TLS 1.3 and the first peer certificate
    whose common name begins with "derpkey", whose remainder parses as a hex
    public key and whose serial number has at most 8 bits carries a key that
    is not zero and a serial number that is not 0.  When the request could
    not be built, nothing is written, no response is read and the upgrade
    fails with the error of [http.NewRequest].  In every other case the
    request goes out without that header, at most one HTTP response is read,
    exactly one once the request was written and flushed, and the upgrade
    succeeds only if that response has status 101. *)
Theorem fast_start_exactly :
  forall (e : Env) (c : Client) (tc : ptr) (nd : option DERPNode) (n : ptr),
    useHTTPS c = true ->
    (url c <> None \/ nd <> None) ->
    (env_SSLKEYLOGFILE e = "" \/ env_OpenFile e = None) ->
    env_Handshake e = None ->
    (took_fast_start (events (upgrade e c tc nd n)) <->
     env_NewRequest e = None /\
     VersionTLS13 <= Version (env_ConnectionState e) /\
     exists pre cert post pub,
       PeerCertificates (env_ConnectionState e) = (pre ++ cert :: post)%list /\
       (forall c', In c' pre -> qualifies c' = false) /\
       HasPrefix (CommonName cert) "derpkey" = true /\
       NewPublicFromHexMem (TrimPrefix (CommonName cert) "derpkey") = Ok pub /\
       -255 <= SerialNumber cert <= 255 /\
       IsZero pub = false /\ SerialNumber cert <> 0) /\
    (forall err, env_NewRequest e = Some err ->
       req_writes (events (upgrade e c tc nd n)) = [] /\
       count is_read_response (events (upgrade e c tc nd n)) = 0%nat /\
       value (upgrade e c tc nd n) = Returns (Err err)) /\
    (env_NewRequest e = None ->
     ~ took_fast_start (events (upgrade e c tc nd n)) ->
     (exists req, req_writes (events (upgrade e c tc nd n)) = [req] /\
                  has_fast_start req = false) /\
     (count is_read_response (events (upgrade e c tc nd n)) <= 1)%nat /\
     (env_req_Write e = None -> env_Flush e = None ->
      count is_read_response (events (upgrade e c tc nd n)) = 1%nat) /\
     (forall x, value (upgrade e c tc nd n) = Returns (Ok x) ->
                exists resp, env_ReadResponse e = Ok resp /\
                             StatusCode resp = StatusSwitchingProtocols)).
Proof.
  intros e c tc nd n Hs Ht Hk Hh.
  destruct (env_NewRequest e) as [rerr|] eqn:Hr.
  - destruct (upgrade_no_request e c tc nd n rerr Hs Ht Hk Hh Hr)
      as (Hw & Hrd & Hv).
    split; [| split].
    + split; [| intros [Hn _]; discriminate Hn].
      intros [(r & Hreq & _) _]. rewrite Hw in Hreq. discriminate Hreq.
    + intros err [= <-]. auto.
    + intros Hn. discriminate Hn.
  - pose proof (upgrade_tls_branch e c tc nd n Hs Ht Hk Hh Hr) as Hb.
    pose proof (fastStart_metaCert (env_ConnectionState e)) as [Hm1 Hm2].
    split; [| split; [intros err Hn; discriminate Hn|]].
    + destruct (fastStart (fst (metaCert (env_ConnectionState e)))
                          (snd (metaCert (env_ConnectionState e)))).
      * split; [intros _; split; [reflexivity | exact (Hm1 eq_refl)]
               | intros _; exact Hb].
      * split; [| intros [_ H]; discriminate (Hm2 H)]. intros Hf. exfalso.
        destruct Hb as [(req & Hw & Hq) _].
        exact (took_fast_start_not_slow _ _ Hw Hq Hf).
    + intros _ Hn.
      destruct (fastStart (fst (metaCert (env_ConnectionState e)))
                          (snd (metaCert (env_ConnectionState e)))).
      * contradiction.
      * exact Hb.
Qed.

Lemma fast_start_exactly_witness :
  took_fast_start (events (upgrade env_ok demo_client 0%nat None 1%nat)).
Proof.
  assert (useHTTPS demo_client = true) as H1 by reflexivity.
  assert (url demo_client <> None \/ @None DERPNode <> None) as H2
    by (left; discriminate).
  assert (env_SSLKEYLOGFILE env_ok = "" \/ env_OpenFile env_ok = None) as H3
    by (left; reflexivity).
  assert (env_Handshake env_ok = None) as H4 by reflexivity.
  apply (proj2 (proj1 (fast_start_exactly env_ok demo_client 0%nat None 1%nat
                         H1 H2 H3 H4))).
  split; [reflexivity|].
  split; [simpl; unfold VersionTLS13; lia|].
  exists [], (metacert 2), [], demo_key.
  split; [reflexivity|]. split; [intros c' []|].
  split; [vm_compute; reflexivity|]. split; [vm_compute; reflexivity|].
  split; [simpl; lia|]. split; [vm_compute; reflexivity|].
  simpl. lia.
Defined.

(** ** The generation number *)

Lemma observe_chain steps :
  forall c n obs n' t,
    0 <= connGen c -> (client c <> None -> 1 <= connGen c) ->
    connGen c + Z.of_nat (List.length steps) <= max_int ->
    observe steps c n = (Returns obs, n', t) ->
    chain (connGen c) obs /\ Forall (fun o => 1 <= fst o) obs.
Proof.
  induction steps as [|s rest IH]; intros c n obs n' t H0 H1 Hb H.
  - simpl in H. unfold ret in H. inversion H; subst. simpl. auto.
  - assert (Z.of_nat (List.length (s :: rest)) = Z.of_nat (List.length rest) + 1) as Hlen
        by (simpl List.length; lia).
    rewrite Hlen in Hb.
    destruct s as [e caller|w| |v|v].
    + simpl in H. apply bind_Returns in H.
      destruct H as ([r c1] & n1 & t1 & t2 & Hc & Hk & _).
      apply bind_Returns in Hk. destruct Hk as (obs' & n2 & t3 & t4 & Ho & Hk & _).
      apply connect_cases in Hc.
      destruct Hc as [_ [[-> Hr]|(dc & -> & Hcl & Hnil & Hsome & Hgen & _)]].
      * apply IH in Ho; [| assumption | assumption | lia].
        destruct r as [[cl gen]|err]; unfold ret in Hk; inversion Hk; subst;
          [| exact Ho].
        destruct Hr as (_ & Hcl & ->). destruct Ho as [Hch Hall].
        rewrite Hcl. simpl. split; [auto|].
        constructor; [simpl; apply H1; congruence | exact Hall].
      * rewrite wrap_int_succ in Hgen by lia.
        apply IH in Ho; [| lia | intros _; lia | lia].
        unfold ret in Hk. inversion Hk; subst. rewrite Hnil. simpl.
        destruct Ho as [Hch Hall]. split; [split; [exact Hgen | exact Hch]|].
        constructor; [simpl; lia | exact Hall].
    + simpl in H. apply bind_Returns in H.
      destruct H as (c1 & n1 & t1 & t2 & Hc & Ho & _).
      simpl in Hc. rewrite closeForReconnect_eq in Hc.
      assert (connGen c1 = connGen c /\ (client c1 <> None -> client c <> None))
        as [Hg Hcl].
      { destruct (optptr_eqb (client c) w); inversion Hc; subst; simpl;
          (split; [reflexivity | congruence]). }
      rewrite <- Hg. apply IH in Ho; [exact Ho | lia | | lia].
      intros Hn. rewrite Hg. auto.
    + simpl in H. apply bind_Returns in H.
      destruct H as (c1 & n1 & t1 & t2 & Hc & Ho & _).
      simpl in Hc. apply bind_Returns in Hc.
      destruct Hc as ([r c2] & n3 & t3 & t4 & Hc & Hk & _).
      unfold ret in Hk. inversion Hk; subst.
      rewrite Close_eq in Hc. destruct (ctx c); [| discriminate].
      assert (connGen c1 = connGen c /\ client c1 = client c) as [Hg Hcl].
      { destruct (closed c); inversion Hc; subst; simpl; auto. }
      rewrite <- Hg. apply IH in Ho; [exact Ho | lia | | lia].
      rewrite Hg, Hcl. exact H1.
    + simpl in H. apply bind_Returns in H.
      destruct H as (c1 & n1 & t1 & t2 & Hc & Ho & _).
      simpl in Hc. unfold ret in Hc. inversion Hc; subst.
      apply IH in Ho; [exact Ho | exact H0 | exact H1 | simpl; lia].
    + simpl in H. apply bind_Returns in H.
      destruct H as (c1 & n1 & t1 & t2 & Hc & Ho & _).
      simpl in Hc.
      assert (connGen c1 = connGen c /\ client c1 = client c) as [Hg Hcl].
      { destruct (Bool.eqb (preferred c) v); unfold ret in Hc; inversion Hc;
          subst; simpl; auto. }
      rewrite <- Hg. apply IH in Ho; [exact Ho | lia | | lia].
      rewrite Hg, Hcl. exact H1.
Qed.

Lemma chain_tail o1 :
  forall g g1 b1 o2, chain g (o1 ++ (g1, b1) :: o2) -> chain g1 o2.
Proof.
  induction o1 as [|[g' b'] o1 IH]; intros g g1 b1 o2 H; simpl in H.
  - tauto.
  - destruct H as [_ H]. exact (IH _ _ _ _ H).
Qed.

Lemma reconnects_cons g b o :
  reconnects ((g, b) :: o) = ((if b then 1 else 0) + reconnects o)%nat.
Proof. unfold reconnects. simpl. destruct b; reflexivity. Qed.

Lemma chain_count o :
  forall g g2 b2 o3,
    chain g (o ++ (g2, b2) :: o3) ->
    g2 = g + Z.of_nat (reconnects (o ++ [(g2, b2)])).
Proof.
  induction o as [|[g' b'] o IH]; intros g g2 b2 o3 H; simpl in H.
  - destruct H as [-> _]. simpl app. rewrite reconnects_cons.
    unfold reconnects. simpl. destruct b2; lia.
  - destruct H as [-> H]. apply IH in H. simpl app. rewrite reconnects_cons.
    destruct b'; lia.
Qed.

(** C1. In a run that starts from a new handle, whatever its critical
    sections, as long as the counter cannot overflow: the first successful
    [connect] returns generation 1; each later successful [connect] returns
    the generation of the one before, or exactly one more when it connected
    anew; so of two successful calls the later one's generation is the
    earlier one's plus the number of reconnects since, hence not smaller,
    and greater when there was a reconnect.  Neither [closeForReconnect] nor
    [Close] changes the counter. *)
Theorem connGen_monotone :
  forall (steps : list Step) (c : Client) (n : ptr)
         (obs : list (Z * bool)) (n' : ptr) (t : list Event),
    connGen c = 0 -> client c = None ->
    Z.of_nat (List.length steps) <= max_int ->
    observe steps c n = (Returns obs, n', t) ->
    (forall g b rest, obs = (g, b) :: rest -> g = 1 /\ b = true) /\
    (forall o1 g1 b1 g2 b2 o2,
        obs = (o1 ++ (g1, b1) :: (g2, b2) :: o2)%list ->
        g2 = if b2 then g1 + 1 else g1) /\
    (forall o1 g1 b1 o2 g2 b2 o3,
        obs = (o1 ++ (g1, b1) :: o2 ++ (g2, b2) :: o3)%list ->
        g2 = g1 + Z.of_nat (reconnects (o2 ++ [(g2, b2)])) /\
        g1 <= g2 /\
        ((0 < reconnects (o2 ++ [(g2, b2)]))%nat -> g1 < g2)) /\
    (forall w c0 k c1 k1 t1,
        closeForReconnect w c0 k = (Returns c1, k1, t1) ->
        connGen c1 = connGen c0) /\
    (forall c0 k r c1 k1 t1,
        Close c0 k = (Returns (r, c1), k1, t1) -> connGen c1 = connGen c0).
Proof.
  intros steps c n obs n' t Hg Hcl Hb H.
  apply observe_chain in H;
    [| lia | intros Hn; congruence | lia].
  rewrite Hg in H. destruct H as [Hch Hall].
  split; [| split; [| split; [| split]]].
  - intros g b rest ->. simpl in Hch. destruct Hch as [Hgb _].
    inversion Hall as [|? ? H1 _]; subst. simpl in H1.
    destruct b; [split; [lia | reflexivity] | lia].
  - intros o1 g1 b1 g2 b2 o2 ->. apply chain_tail in Hch. simpl in Hch. tauto.
  - intros o1 g1 b1 o2 g2 b2 o3 ->. apply chain_tail in Hch.
    apply chain_count in Hch. split; [exact Hch | lia].
  - intros w c0 k c1 k1 t1 Hc. rewrite closeForReconnect_eq in Hc.
    destruct (optptr_eqb (client c0) w); inversion Hc; subst; reflexivity.
  - intros c0 k r c1 k1 t1 Hc. rewrite Close_eq in Hc.
    destruct (ctx c0); [| discriminate].
    destruct (closed c0); inversion Hc; subst; reflexivity.
Qed.

Lemma connGen_monotone_witness :
  observe [SConnect env_ok "a"; SCloseForReconnect (Some 2%nat);
           SConnect env_ok "b"; SConnect env_ok "c"; SClose;
           SConnect env_ok "d"] demo_client 0%nat
  = (Returns [(1, true); (2, true); (2, false)], 6%nat,
     events (observe [SConnect env_ok "a"; SCloseForReconnect (Some 2%nat);
                      SConnect env_ok "b"; SConnect env_ok "c"; SClose;
                      SConnect env_ok "d"] demo_client 0%nat)) /\
  (1 <= 2 /\ ((0 < 1)%nat -> 1 < 2)).
Proof.
  assert (connGen demo_client = 0) as H1 by reflexivity.
  assert (client demo_client = None) as H2 by reflexivity.
  assert (Z.of_nat (List.length [SConnect env_ok "a"; SCloseForReconnect (Some 2%nat);
                            SConnect env_ok "b"; SConnect env_ok "c"; SClose;
                            SConnect env_ok "d"]) <= max_int) as H3
      by (vm_compute; discriminate).
  assert (observe [SConnect env_ok "a"; SCloseForReconnect (Some 2%nat);
                   SConnect env_ok "b"; SConnect env_ok "c"; SClose;
                   SConnect env_ok "d"] demo_client 0%nat
          = (Returns [(1, true); (2, true); (2, false)], 6%nat,
             events (observe [SConnect env_ok "a"; SCloseForReconnect (Some 2%nat);
                              SConnect env_ok "b"; SConnect env_ok "c"; SClose;
                              SConnect env_ok "d"] demo_client 0%nat))) as H4
      by (vm_compute; reflexivity).
  split; [exact H4|].
  exact (proj2 (proj1 (proj2 (proj2 (connGen_monotone _ _ _ _ _ _ H1 H2 H3 H4)))
                  [] 1 true [] 2 true [(2, false)] eq_refl)).
Defined.

(** * Further properties *)

(** ** Send, ForwardPacket, WatchConnectionChanges, ClosePeer *)

Lemma closeForReconnect_forgets cl c n c' n' t :
  closeForReconnect (Some cl) c n = (Returns c', n', t) ->
  client c' <> Some cl.
Proof.
  rewrite closeForReconnect_eq.
  destruct (optptr_eqb (client c) (Some cl)) eqn:E; intros H; inversion H; subst.
  - simpl. discriminate.
  - intros Heq. apply optptr_eqb_eq in Heq. congruence.
Qed.

(** X1. [Send] and [ForwardPacket] report only the error of [connect].  Once
    [connect] has succeeded they return nil, also when the DERP client's
    call fails; in that case the handle no longer stores that client. *)
Theorem Send_reports_only_connect_errors :
  forall (e : Env) (send : ptr -> Public -> list byte -> option error)
         (forward : ptr -> Public -> Public -> list byte -> option error)
         (k1 k2 : Public) (b : list byte) (others : list Step) (c : Client)
         (n : ptr),
    (forall r c' n' t,
        Send e send k1 b others c n = (Returns (r, c'), n', t) ->
        (exists err, r = Some err /\
           connect e "derphttp.Client.Send" c n = (Returns (Err err, c'), n', t)) \/
        (exists cl g c1 n1 t1, r = None /\
           connect e "derphttp.Client.Send" c n = (Returns (Ok (cl, g), c1), n1, t1) /\
           (send cl k1 b <> None -> client c' <> Some cl))) /\
    (forall r c' n' t,
        ForwardPacket e forward k1 k2 b others c n = (Returns (r, c'), n', t) ->
        (exists err, r = Some err /\
           connect e "derphttp.Client.ForwardPacket" c n
           = (Returns (Err err, c'), n', t)) \/
        (exists cl g c1 n1 t1, r = None /\
           connect e "derphttp.Client.ForwardPacket" c n
           = (Returns (Ok (cl, g), c1), n1, t1) /\
           (forward cl k1 k2 b <> None -> client c' <> Some cl))).
Proof.
  intros e send forward k1 k2 b others c n. split.
  - intros r c' n' t H. unfold Send in H.
    apply bind_Returns in H. destruct H as ([r0 c1] & n1 & t1 & t2 & Hc & Hk & Ht).
    destruct r0 as [[cl g]|err].
    + right. exists cl, g, c1, n1, t1.
      apply bind_Returns in Hk. destruct Hk as (c2 & n2 & t3 & t4 & Hr & Hk & _).
      destruct (send cl k1 b) as [serr|].
      * apply bind_Returns in Hk. destruct Hk as (c3 & n3 & t5 & t6 & Hf & Hk & _).
        unfold ret in Hk. inversion Hk; subst.
        repeat split; auto. intros _. exact (closeForReconnect_forgets _ _ _ _ _ _ Hf).
      * unfold ret in Hk. inversion Hk; subst.
        repeat split; auto; intros Hn; contradiction.
    + left. exists err. unfold ret in Hk. inversion Hk; subst.
      rewrite app_nil_r. auto.
  - intros r c' n' t H. unfold ForwardPacket in H.
    apply bind_Returns in H. destruct H as ([r0 c1] & n1 & t1 & t2 & Hc & Hk & Ht).
    destruct r0 as [[cl g]|err].
    + right. exists cl, g, c1, n1, t1.
      apply bind_Returns in Hk. destruct Hk as (c2 & n2 & t3 & t4 & Hr & Hk & _).
      destruct (forward cl k1 k2 b) as [serr|].
      * apply bind_Returns in Hk. destruct Hk as (c3 & n3 & t5 & t6 & Hf & Hk & _).
        unfold ret in Hk. inversion Hk; subst.
        repeat split; auto. intros _. exact (closeForReconnect_forgets _ _ _ _ _ _ Hf).
      * unfold ret in Hk. inversion Hk; subst.
        repeat split; auto; intros Hn; contradiction.
    + left. exists err. unfold ret in Hk. inversion Hk; subst.
      rewrite app_nil_r. auto.
Qed.

(** X2. [WatchConnectionChanges] and [ClosePeer] return the error of
    [connect], or else what the DERP client's call returned; when that call
    fails the handle no longer stores that client. *)
Theorem ClosePeer_reports_client_errors :
  forall (e : Env) (watch : ptr -> option error)
         (closePeer : ptr -> Public -> option error)
         (target : Public) (others : list Step) (c : Client) (n : ptr),
    (forall r c' n' t,
        WatchConnectionChanges e watch others c n = (Returns (r, c'), n', t) ->
        (exists err, r = Some err /\
           connect e "derphttp.Client.WatchConnectionChanges" c n
           = (Returns (Err err, c'), n', t)) \/
        (exists cl g c1 n1 t1, r = watch cl /\
           connect e "derphttp.Client.WatchConnectionChanges" c n
           = (Returns (Ok (cl, g), c1), n1, t1) /\
           (watch cl <> None -> client c' <> Some cl))) /\
    (forall r c' n' t,
        ClosePeer e closePeer target others c n = (Returns (r, c'), n', t) ->
        (exists err, r = Some err /\
           connect e "derphttp.Client.ClosePeer" c n
           = (Returns (Err err, c'), n', t)) \/
        (exists cl g c1 n1 t1, r = closePeer cl target /\
           connect e "derphttp.Client.ClosePeer" c n
           = (Returns (Ok (cl, g), c1), n1, t1) /\
           (closePeer cl target <> None -> client c' <> Some cl))).
Proof.
  intros e watch closePeer target others c n. split.
  - intros r c' n' t H. unfold WatchConnectionChanges in H.
    apply bind_Returns in H. destruct H as ([r0 c1] & n1 & t1 & t2 & Hc & Hk & Ht).
    destruct r0 as [[cl g]|err].
    + right. exists cl, g, c1, n1, t1.
      apply bind_Returns in Hk. destruct Hk as (c2 & n2 & t3 & t4 & Hr & Hk & _).
      destruct (watch cl) as [serr|].
      * apply bind_Returns in Hk. destruct Hk as (c3 & n3 & t5 & t6 & Hf & Hk & _).
        unfold ret in Hk. inversion Hk; subst.
        repeat split; auto. intros _. exact (closeForReconnect_forgets _ _ _ _ _ _ Hf).
      * unfold ret in Hk. inversion Hk; subst.
        repeat split; auto; intros Hn; contradiction.
    + left. exists err. unfold ret in Hk. inversion Hk; subst.
      rewrite app_nil_r. auto.
  - intros r c' n' t H. unfold ClosePeer in H.
    apply bind_Returns in H. destruct H as ([r0 c1] & n1 & t1 & t2 & Hc & Hk & Ht).
    destruct r0 as [[cl g]|err].
    + right. exists cl, g, c1, n1, t1.
      apply bind_Returns in Hk. destruct Hk as (c2 & n2 & t3 & t4 & Hr & Hk & _).
      destruct (closePeer cl target) as [serr|].
      * apply bind_Returns in Hk. destruct Hk as (c3 & n3 & t5 & t6 & Hf & Hk & _).
        unfold ret in Hk. inversion Hk; subst.
        repeat split; auto. intros _. exact (closeForReconnect_forgets _ _ _ _ _ _ Hf).
      * unfold ret in Hk. inversion Hk; subst.
        repeat split; auto; intros Hn; contradiction.
    + left. exists err. unfold ret in Hk. inversion Hk; subst.
      rewrite app_nil_r. auto.
Qed.

(** ** Construction and the URL plan *)

Lemma urlPort_empty u :
  urlPort u = "" <->
  Port u = "" /\ Scheme u <> "https" /\ Scheme u <> "http".
Proof.
  unfold urlPort.
  destruct (String.eqb (Port u) "") eqn:Ep; simpl.
  - apply String.eqb_eq in Ep.
    destruct (String.eqb (Scheme u) "https") eqn:Es.
    + apply String.eqb_eq in Es. split; [discriminate | tauto].
    + apply String.eqb_neq in Es.
      destruct (String.eqb (Scheme u) "http") eqn:Eh.
      * apply String.eqb_eq in Eh. split; [discriminate | tauto].
      * apply String.eqb_neq in Eh. tauto.
  - apply String.eqb_neq in Ep. tauto.
Qed.

(** X3. [NewClient] fails, with the "invalid URL scheme" error, exactly when
    the URL names no port and its scheme is neither [https] nor [http].
    Otherwise it returns a handle for that URL that is empty, not closed and
    at generation 0; an [https] URL without a port gets port 443 and an
    [http] URL without a port gets port 80. *)
Theorem NewClient_invalid_scheme :
  forall (privateKey : list byte) (u : URL),
    (NewClient privateKey u
     = Err (errorString ("derphttp.NewClient: invalid URL scheme "
                         ++ Sprint_q (Scheme u)))
     <-> Port u = "" /\ Scheme u <> "https" /\ Scheme u <> "http") /\
    (~ (Port u = "" /\ Scheme u <> "https" /\ Scheme u <> "http") ->
     exists c, NewClient privateKey u = Ok c /\ url c = Some u /\
               getRegion c = None /\ client c = None /\ netConn c = None /\
               closed c = false /\ connGen c = 0) /\
    (Port u = "" -> Scheme u = "https" -> urlPort u = "443") /\
    (Port u = "" -> Scheme u = "http" -> urlPort u = "80") /\
    (Port u <> "" -> urlPort u = Port u).
Proof.
  intros pk u. pose proof (urlPort_empty u) as Hu.
  unfold NewClient. destruct (String.eqb (urlPort u) "") eqn:E.
  - apply String.eqb_eq in E. split; [tauto|]. split; [tauto|].
    unfold urlPort in *.
    destruct (String.eqb (Port u) "") eqn:Ep; simpl in *.
    + apply String.eqb_eq in Ep.
      repeat split; intros; try congruence.
      * subst. rewrite H0 in E. simpl in E. discriminate.
      * subst. rewrite H0 in E. simpl in E. discriminate.
    + apply String.eqb_neq in Ep. repeat split; intros; congruence.
  - apply String.eqb_neq in E. split; [split; [discriminate | tauto]|].
    split; [intros _; eexists; split; [reflexivity | simpl; auto 10]|].
    unfold urlPort.
    repeat split; intros.
    + rewrite H, H0. reflexivity.
    + rewrite H, H0. reflexivity.
    + apply String.eqb_neq in H. rewrite H. reflexivity.
Qed.

(** X4. [dialURL] makes one dial, to the port of the URL (443 or 80 when
    none is named): to the host name when there is no DNS cache, to the
    address the cache returns when it has one, and to the host name again
    when the lookup fails and the dialer is not a SOCKS dialer.  When the
    lookup fails and the dialer is a SOCKS dialer, it returns the lookup
    error and dials nothing.  A failed dial is reported as
    "dial of <host>: <error>". *)
Theorem dialURL_target :
  forall (e : Env) (c : Client) (u : URL) (n : ptr),
    url c = Some u ->
    let host := Hostname u in
    let dial hostOrIP :=
      match env_DialContext e "tcp" (JoinHostPort hostOrIP (urlPort u)) with
      | Some err =>
          (Returns (Err (errorString ("dial of " ++ host ++ ": " ++ Error err))), n,
           [EvDial "tcp" (JoinHostPort hostOrIP (urlPort u))])
      | None =>
          (Returns (Ok n), S n, [EvDial "tcp" (JoinHostPort hostOrIP (urlPort u))])
      end in
    (DNSCache c = false -> dialURL e c n = dial host) /\
    (DNSCache c = true ->
     match env_LookupIP e host with
     | Ok ip =>
         value (dialURL e c n) = value (dial ip) /\
         events (dialURL e c n) = EvLookupIP host :: events (dial ip)
     | Err err =>
         if env_IsSOCKSDialer e
         then dialURL e c n = (Returns (Err err), n, [EvLookupIP host])
         else value (dialURL e c n) = value (dial host) /\
              events (dialURL e c n) = EvLookupIP host :: events (dial host)
     end) /\
    (count is_dial (events (dialURL e c n)) <= 1)%nat.
Proof.
  intros e c u n Hu host dial. subst host dial. unfold dialURL, dialContext.
  rewrite Hu. monad. simpl.
  destruct (DNSCache c).
  - split; [discriminate|].
    destruct (env_LookupIP e (Hostname u)) as [ip|err]; simpl.
    + destruct (env_DialContext e "tcp" _); simpl; auto.
    + destruct (env_IsSOCKSDialer e); simpl.
      * split; [intros _; reflexivity | unfold count; simpl; lia].
      * destruct (env_DialContext e "tcp" _); simpl; auto.
  - simpl. destruct (env_DialContext e "tcp" _); simpl;
      (split; [reflexivity|]); (split; [discriminate | auto]).
Qed.

Lemma dialURL_target_witness :
  dialURL env_ok demo_client 0%nat
  = (Returns (Ok 0%nat), 1%nat, [EvDial "tcp" "relay.test:443"]).
Proof.
  assert (url demo_client = Some relay_url) as H by reflexivity.
  exact (proj1 (dialURL_target env_ok demo_client relay_url 0%nat H) eq_refl).
Defined.

(** ** The dial race *)

Lemma race_loop_consumed arrivals :
  forall deadline ctxErr k firstErr r unreceived,
    race_loop deadline ctxErr k firstErr arrivals = (r, unreceived) ->
    exists consumed,
      arrivals = (consumed ++ unreceived)%list /\
      opened consumed = returned r.
Proof.
  induction arrivals as [|a rest IH]; intros deadline ctxErr k firstErr r u H.
  - simpl in H.
    destruct (match deadline with Some d => Nat.eqb d k | None => false end);
      inversion H; subst; exists []; auto.
  - simpl in H.
    destruct (match deadline with Some d => Nat.eqb d k | None => false end).
    + inversion H; subst. exists []. auto.
    + destruct a as [conn|err].
      * inversion H; subst. exists [Ok conn]. auto.
      * destruct rest as [|b rest'].
        -- inversion H; subst. exists [Err err]. auto.
        -- apply IH in H. destruct H as (consumed & Hc & Ho).
           exists (Err err :: consumed). rewrite Hc. auto.
Qed.

Lemma close_unreceived_closes l k :
  close_unreceived l k = (Returns tt, k, map EvConnClose (opened l)).
Proof.
  induction l as [|[conn|err] l IH]; simpl.
  - reflexivity.
  - unfold bind, emit. rewrite IH. reflexivity.
  - exact IH.
Qed.

Lemma closes_map_close l : closes (map EvConnClose l) = l.
Proof. induction l as [|a l IH]; simpl; [| rewrite IH]; reflexivity. Qed.

Lemma closes_app t1 t2 : closes (t1 ++ t2) = (closes t1 ++ closes t2)%list.
Proof. unfold closes. apply flat_map_app. Qed.

Lemma opened_app l1 l2 : opened (l1 ++ l2) = (opened l1 ++ opened l2)%list.
Proof. unfold opened. apply flat_map_app. Qed.

Lemma opened_rev l : Permutation (opened (rev l)) (opened l).
Proof.
  induction l as [|a l IH]; simpl; [constructor|].
  rewrite opened_app. simpl. rewrite app_nil_r.
  eapply Permutation_trans; [apply Permutation_app_comm|].
  apply Permutation_app_head. exact IH.
Qed.

Lemma start_racers_no_close e n k :
  closes (events (start_racers e n k)) = [].
Proof.
  destruct (start_racers_events e n k) as (rs & k1 & Hs & _).
  rewrite Hs. unfold events. simpl.
  destruct (shouldDialProto e (IPv4 n) Is4), (shouldDialProto e (IPv6 n) Is6);
    reflexivity.
Qed.

Lemma dialNode_race_eq e n k rs k1 t1 :
  start_racers e n k = (Returns rs, k1, t1) ->
  dialNode_race e n k =
  match rs with
  | [] =>
      (Returns (Err (errorString
         "both IPv4 and IPv6 are explicitly disabled for node")), k1, t1)
  | _ =>
      let '(r, unreceived) :=
        race_loop (ctx_done_after (env_Race e n)) (race_ctx_err (env_Race e n))
          0 None (if v6_first (env_Race e n) then rev rs else rs) in
      (Returns r, k1, (t1 ++ map EvConnClose (opened unreceived))%list)
  end.
Proof.
  intros Hs. unfold dialNode_race. unfold bind at 1. rewrite Hs.
  destruct rs as [|r0 rs'].
  - unfold ret. rewrite app_nil_r. reflexivity.
  - cbv zeta.
    match goal with
    | |- context [race_loop ?a ?b ?d ?f ?g] =>
        destruct (race_loop a b d f g) as [r unreceived]
    end.
    unfold bind. rewrite close_unreceived_closes. unfold ret.
    rewrite app_nil_r. reflexivity.
Qed.

(** X5. The race of [dialNode] leaks no connection: whatever the order in
    which the results arrive and whenever the context ends, every
    connection a racer opened is either the one [dialNode] returns or is
    closed, once. *)
Theorem dialNode_race_closes_the_losers :
  forall (e : Env) (n : DERPNode) (k : ptr),
  exists rs k1 t1 r,
    start_racers e n k = (Returns rs, k1, t1) /\
    value (dialNode_race e n k) = Returns r /\
    Permutation (opened rs)
      (returned r ++ closes (events (dialNode_race e n k))).
Proof.
  intros e n k.
  destruct (start_racers_events e n k) as (rs & k1 & Hs & _).
  pose proof (start_racers_no_close e n k) as Hnc. rewrite Hs in Hnc.
  unfold events in Hnc. simpl in Hnc.
  rewrite (dialNode_race_eq e n k _ _ _ Hs).
  exists rs, k1. eexists.
  destruct rs as [|r0 rs'].
  - eexists. split; [exact Hs|]. split; [reflexivity|].
    unfold events. simpl. rewrite Hnc. constructor.
  - destruct (race_loop _ _ 0%nat None
                (if v6_first (env_Race e n) then rev (r0 :: rs') else r0 :: rs'))
      as [r unreceived] eqn:Hr.
    exists r. split; [exact Hs|]. split; [reflexivity|].
    unfold events. simpl snd.
    rewrite closes_app, Hnc, closes_map_close. simpl app.
    apply race_loop_consumed in Hr. destruct Hr as (consumed & Hc & Ho).
    rewrite <- Ho.
    assert (Permutation (opened (r0 :: rs'))
              (opened (if v6_first (env_Race e n) then rev (r0 :: rs')
                       else r0 :: rs'))) as Hp.
    { destruct (v6_first (env_Race e n));
        [apply Permutation_sym, opened_rev | apply Permutation_refl]. }
    eapply Permutation_trans; [exact Hp|].
    rewrite Hc, opened_app. apply Permutation_refl.
Qed.

(** X6. The receive loop of [dialNode]: as long as the context has not
    ended, the first success received wins, whatever errors came before it;
    when every racer fails the first error received is returned; and when
    the context ends before any result is received the context's error is
    returned and every result stays unreceived. *)
Theorem race_loop_first_result :
  forall (ctxErr : error) (errs : list error),
    (forall conn rest k firstErr,
        race_loop None ctxErr k firstErr (map Err errs ++ Ok conn :: rest)
        = (Ok conn, rest)) /\
    (forall err k,
        race_loop None ctxErr k None (Err err :: map Err errs) = (Err err, [])) /\
    (forall arrivals k firstErr,
        race_loop (Some k) ctxErr k firstErr arrivals = (Err ctxErr, arrivals)).
Proof.
  intros ctxErr errs. split; [| split].
  - induction errs as [|e0 errs IH]; intros conn rest k firstErr; simpl.
    + reflexivity.
    + destruct (map Err errs ++ Ok conn :: rest)%list eqn:E.
      * destruct errs; discriminate.
      * rewrite <- E. apply IH.
  - intros err k.
    assert (forall f k', race_loop None ctxErr k' (Some f) (map Err errs)
                         = (Err (match errs with [] => ctxErr | _ => f end), []))
      as Hrest.
    { induction errs as [|e0 errs IH]; intros f k'; simpl; [reflexivity|].
      destruct errs as [|e1 errs']; [reflexivity|].
      rewrite IH. reflexivity. }
    simpl. destruct errs as [|e0 errs']; [reflexivity|].
    change (Err e0 :: map Err errs') with (map (@Err ptr) (e0 :: errs')).
    rewrite Hrest. reflexivity.
  - intros arrivals k firstErr. destruct arrivals; simpl;
      rewrite Nat.eqb_refl; reflexivity.
Qed.

(** ** The proxy path *)

Ltac proxy_cases e :=
  unfold dialNodeUsingProxy;
  match goal with
  | |- context [env_ProxyDial e ?h ?a] =>
      destruct (env_ProxyDial e h a) as [derr|] eqn:Hd
  end;
  [| destruct (env_proxy_Fprintf e) as [werr|] eqn:Hw;
     [| destruct (env_proxy_ReadResponse e) as [res|rerr] eqn:Hr;
        [destruct (StatusCode res =? 200) eqn:Hs|]];
     destruct (env_proxy_watcher e)];
  monad; simpl.

Lemma proxy_dials_once e n pu k :
  exists rest,
    events (dialNodeUsingProxy e n pu k)
    = (if String.eqb (Scheme pu) "https"
       then EvDialTLS "tcp" (JoinHostPort (Hostname pu) (firstStr (Port pu) "443"))
       else EvDial "tcp" (JoinHostPort (Hostname pu) (firstStr (Port pu) "80")))
      :: rest /\
    count is_dial rest = 0%nat.
Proof.
  destruct (String.eqb (Scheme pu) "https") eqn:Hh;
    proxy_cases e; rewrite ?Hh; eexists; split; reflexivity.
Qed.

Lemma proxy_success e n pu k :
  (exists conn, value (dialNodeUsingProxy e n pu k) = Returns (Ok conn)) <->
  env_ProxyDial e (String.eqb (Scheme pu) "https")
    (JoinHostPort (Hostname pu)
       (firstStr (Port pu)
          (if String.eqb (Scheme pu) "https" then "443" else "80"))) = None /\
  env_proxy_Fprintf e = None /\
  exists res, env_proxy_ReadResponse e = Ok res /\ StatusCode res = 200.
Proof.
  proxy_cases e; (split; [intros [conn H] | intros (H1 & H2 & res' & H3 & H4)]);
    try discriminate.
  all: try (injection H3 as <-; apply Z.eqb_neq in Hs; contradiction).
  all: try (eexists; reflexivity).
  all: repeat split; try reflexivity;
    eexists; (split; [reflexivity | now apply Z.eqb_eq]).
Qed.

Lemma proxy_returns_its_conn e n pu k conn :
  value (dialNodeUsingProxy e n pu k) = Returns (Ok conn) -> conn = k.
Proof.
  proxy_cases e; intros H; try discriminate H; injection H as <-; reflexivity.
Qed.

Lemma proxy_connect_line e n pu k :
  env_ProxyDial e (String.eqb (Scheme pu) "https")
    (JoinHostPort (Hostname pu)
       (firstStr (Port pu)
          (if String.eqb (Scheme pu) "https" then "443" else "80"))) = None ->
  exists rest,
    In (EvConnWrite k ("CONNECT " ++ JoinHostPort (HostName n) "443"
                       ++ " HTTP/1.1" ++ CRLF ++ rest))
       (events (dialNodeUsingProxy e n pu k)).
Proof.
  intros H0. proxy_cases e; try congruence;
    eexists; right; left; reflexivity.
Qed.

Lemma proxy_closes e n pu k :
  closes (events (dialNodeUsingProxy e n pu k))
  = match env_ProxyDial e (String.eqb (Scheme pu) "https")
            (JoinHostPort (Hostname pu)
               (firstStr (Port pu)
                  (if String.eqb (Scheme pu) "https" then "443" else "80")))
    with
    | None => if env_proxy_watcher e then [k] else []
    | Some _ => []
    end.
Proof.
  destruct (String.eqb (Scheme pu) "https") eqn:Hh;
    unfold dialNodeUsingProxy; rewrite ?Hh;
    match goal with
    | |- context [env_ProxyDial e ?h ?a] => destruct (env_ProxyDial e h a)
    end;
    try (monad; reflexivity);
    (destruct (env_proxy_Fprintf e);
     [| destruct (env_proxy_ReadResponse e) as [res|rerr];
        [destruct (StatusCode res =? 200)|]]);
    destruct (env_proxy_watcher e); monad; reflexivity.
Qed.

Lemma proxy_dial_failure e n pu k err :
  env_ProxyDial e (String.eqb (Scheme pu) "https")
    (JoinHostPort (Hostname pu)
       (firstStr (Port pu)
          (if String.eqb (Scheme pu) "https" then "443" else "80"))) = Some err ->
  value (dialNodeUsingProxy e n pu k) = Returns (Err err) /\
  next_free (dialNodeUsingProxy e n pu k) = k /\
  List.length (events (dialNodeUsingProxy e n pu k)) = 1%nat.
Proof.
  intros H0. unfold dialNodeUsingProxy. monad. rewrite H0.
  repeat split.
Qed.

(** X7. [dialNodeUsingProxy] dials the proxy once: with a [tls.Dialer], so
    with a TLS handshake, on port 443 by default when the proxy's scheme is
    [https], and with a plain dialer on port 80 by default otherwise.  It
    returns the proxy connection exactly when the dial, the write of the
    CONNECT request and the read of the response went through and the status
    is 200.  The CONNECT request names the node's host with port 443,
    whatever the node's [DERPPort].  The function itself never closes the
    proxy connection: it is closed only by the watcher, when the context
    ended, so a failure after the dial with a live context leaves the
    connection open. *)
Theorem dialNodeUsingProxy_outcomes :
  forall (e : Env) (n : DERPNode) (pu : URL) (k : ptr),
    let https := String.eqb (Scheme pu) "https" in
    let addr := JoinHostPort (Hostname pu)
                  (firstStr (Port pu) (if https then "443" else "80")) in
    (exists rest,
        events (dialNodeUsingProxy e n pu k)
        = (if https
           then EvDialTLS "tcp" (JoinHostPort (Hostname pu) (firstStr (Port pu) "443"))
           else EvDial "tcp" (JoinHostPort (Hostname pu) (firstStr (Port pu) "80")))
          :: rest /\
        count is_dial rest = 0%nat) /\
    ((exists conn, value (dialNodeUsingProxy e n pu k) = Returns (Ok conn)) <->
     env_ProxyDial e https addr = None /\ env_proxy_Fprintf e = None /\
     exists res, env_proxy_ReadResponse e = Ok res /\ StatusCode res = 200) /\
    (forall conn, value (dialNodeUsingProxy e n pu k) = Returns (Ok conn) ->
                  conn = k) /\
    (env_ProxyDial e https addr = None ->
     exists rest,
       In (EvConnWrite k ("CONNECT " ++ JoinHostPort (HostName n) "443"
                          ++ " HTTP/1.1" ++ CRLF ++ rest))
          (events (dialNodeUsingProxy e n pu k))) /\
    closes (events (dialNodeUsingProxy e n pu k))
    = match env_ProxyDial e https addr with
      | None => if env_proxy_watcher e then [k] else []
      | Some _ => []
      end /\
    (forall err, env_ProxyDial e https addr = Some err ->
                 value (dialNodeUsingProxy e n pu k) = Returns (Err err) /\
                 next_free (dialNodeUsingProxy e n pu k) = k /\
                 List.length (events (dialNodeUsingProxy e n pu k)) = 1%nat).
Proof.
  intros e n pu k https addr. subst https addr.
  split; [apply proxy_dials_once|].
  split; [apply proxy_success|].
  split; [intros conn; apply proxy_returns_its_conn|].
  split; [intros H; apply proxy_connect_line; exact H|].
  split; [apply proxy_closes|].
  intros err. apply proxy_dial_failure.
Qed.

(** ** The region dialer, further *)

Lemma dialRegion_loop_result e c reg nodes :
  forall firstErr k conn nd err n' t,
    dialRegion_loop e c reg nodes firstErr k = (Returns (conn, nd, err), n', t) ->
    (exists cn n, conn = Some cn /\ nd = Some n /\ err = None /\
                  In n nodes /\ STUNOnly n = false) \/
    (conn = None /\ nd = None /\
     (firstErr <> None \/ nodes <> [] -> err <> None)).
Proof.
  induction nodes as [|n rest IH]; intros firstErr k conn nd err n' t H;
    simpl in H.
  - unfold ret in H. inversion H; subst. right.
    repeat split. intros [Hf|Hn]; [exact Hf | congruence].
  - destruct (STUNOnly n) eqn:Hs.
    + destruct firstErr as [f|].
      * apply IH in H. destruct H as [(cn & n1 & -> & -> & -> & Hin & Hst)|(-> & -> & Hne)].
        -- left. exists cn, n1. repeat split; auto. now right.
        -- right. repeat split. intros _. apply Hne. left. discriminate.
      * apply bind_Returns in H. destruct H as (ts & k1 & t1 & t2 & _ & H & _).
        apply IH in H. destruct H as [(cn & n1 & -> & -> & -> & Hin & Hst)|(-> & -> & Hne)].
        -- left. exists cn, n1. repeat split; auto. now right.
        -- right. repeat split. intros _. apply Hne. left. discriminate.
    + apply bind_Returns in H. destruct H as (r & k1 & t1 & t2 & _ & H & _).
      destruct r as [cn|derr].
      * unfold ret in H. inversion H; subst. left. exists cn, n.
        repeat split; auto. now left.
      * apply IH in H. destruct H as [(cn & n1 & -> & -> & -> & Hin & Hst)|(-> & -> & Hne)].
        -- left. exists cn, n1. repeat split; auto. now right.
        -- right. repeat split. intros _. apply Hne. left.
           destruct firstErr; discriminate.
Qed.

(** X8. [dialRegion] returns either a connection together with the node it
    reached, which is a node of the region that is not STUN-only, and no
    error; or no connection, no node and an error.  It never returns nil
    for all three. *)
Theorem dialRegion_conn_or_error :
  forall (e : Env) (c : Client) (reg : DERPRegion) (k : ptr)
         (conn : option ptr) (nd : option DERPNode) (err : option error)
         (n' : ptr) (t : list Event),
    dialRegion e c reg k = (Returns (conn, nd, err), n', t) ->
    (exists cn n, conn = Some cn /\ nd = Some n /\ err = None /\
                  In n (Nodes reg) /\ STUNOnly n = false) \/
    (exists er, conn = None /\ nd = None /\ err = Some er).
Proof.
  intros e c reg k conn nd err n' t H. unfold dialRegion in H.
  destruct (Nodes reg) as [|n0 rest] eqn:Hn.
  - unfold bind in H. rewrite targetString_reg in H. unfold ret in H.
    inversion H; subst. right. eexists. auto.
  - apply dialRegion_loop_result in H.
    destruct H as [H|(-> & -> & Hne)]; [left; exact H|].
    right. destruct err as [er|]; [eexists; auto|].
    exfalso. apply Hne; [right; discriminate | reflexivity].
Qed.

Lemma dialRegion_conn_or_error_witness :
  (exists cn n, Some 0%nat = Some cn /\ Some (node "healthy.test" "" "" false) = Some n /\
                @None error = None /\
                In n (Nodes (region_nyc [node "stun.test" "" "" true;
                                         node "healthy.test" "" "" false])) /\
                STUNOnly n = false) \/
  (exists er, Some 0%nat = None /\ Some (node "healthy.test" "" "" false) = None /\
              @None error = Some er).
Proof.
  assert (dialRegion env_ok (region_client [])
            (region_nyc [node "stun.test" "" "" true;
                         node "healthy.test" "" "" false]) 0%nat
          = (Returns (Some 0%nat, Some (node "healthy.test" "" "" false), None),
             2%nat,
             events (dialRegion env_ok (region_client [])
                       (region_nyc [node "stun.test" "" "" true;
                                    node "healthy.test" "" "" false]) 0%nat)))
    as H by (vm_compute; reflexivity).
  exact (dialRegion_conn_or_error _ _ _ _ _ _ _ _ _ H).
Defined.

Lemma dialRegion_loop_all_stun e c reg f nodes k :
  (forall n, In n nodes -> STUNOnly n = true) ->
  dialRegion_loop e c reg nodes (Some f) k = (Returns (None, None, Some f), k, []).
Proof.
  induction nodes as [|n rest IH]; intros Hall; simpl; [reflexivity|].
  rewrite (Hall n (or_introl eq_refl)). apply IH.
  intros n' Hin. apply Hall. now right.
Qed.

(** X9. In a region whose nodes are all STUN-only, [dialRegion] dials
    nothing and returns the "no non-STUNOnly nodes" error. *)
Theorem dialRegion_only_stun_nodes :
  forall (e : Env) (c : Client) (reg : DERPRegion) (k : ptr),
    Nodes reg <> [] ->
    (forall n, In n (Nodes reg) -> STUNOnly n = true) ->
    exists t,
      value (targetString c (Some reg) k) = Returns t /\
      dialRegion e c reg k
      = (Returns (None, None,
                  Some (errorString ("no non-STUNOnly nodes for " ++ t))), k, []).
Proof.
  intros e c reg k Hne Hall. rewrite targetString_reg.
  eexists. split; [reflexivity|]. unfold dialRegion.
  destruct (Nodes reg) as [|n0 rest]; [congruence|].
  simpl. rewrite (Hall n0 (or_introl eq_refl)).
  unfold bind. rewrite targetString_reg.
  rewrite dialRegion_loop_all_stun by (intros n' Hin; apply Hall; now right).
  reflexivity.
Qed.

Lemma dialRegion_only_stun_nodes_witness :
  exists t,
    value (targetString (region_client [])
             (Some (region_nyc [node "stun.test" "" "" true])) 0%nat) = Returns t /\
    dialRegion env_ok (region_client [])
      (region_nyc [node "stun.test" "" "" true]) 0%nat
    = (Returns (None, None,
                Some (errorString ("no non-STUNOnly nodes for " ++ t))), 0%nat, []).
Proof.
  apply (dialRegion_only_stun_nodes env_ok (region_client [])
           (region_nyc [node "stun.test" "" "" true]) 0%nat).
  - discriminate.
  - intros n [<-|[]]. reflexivity.
Defined.

(** X10. When the first node of a region is not STUN-only and fails to dial,
    and every later node is STUN-only or fails too, [dialRegion] returns the
    error of that first node. *)
Theorem dialRegion_first_node_error :
  forall (e : Env) (c : Client) (reg : DERPRegion) (k : ptr)
         (n0 : DERPNode) (rest : list DERPNode) (err0 : error),
    Nodes reg = n0 :: rest -> STUNOnly n0 = false ->
    value (dialNode e c n0 k) = Returns (Err err0) ->
    (forall n k', In n rest -> STUNOnly n = false ->
                  exists err, value (dialNode e c n k') = Returns (Err err)) ->
    value (dialRegion e c reg k) = Returns (None, None, Some err0).
Proof.
  intros e c reg k n0 rest err0 Hn Hs H0 Hrest.
  unfold dialRegion. rewrite Hn. simpl. rewrite Hs.
  destruct (dialNode e c n0 k) as [[o k1] t1] eqn:Hd.
  unfold value in H0. simpl in H0. subst o.
  rewrite (value_bind _ _ _ _ _ _ Hd).
  apply dialRegion_loop_keeps_first. exact Hrest.
Qed.

Lemma dialRegion_first_node_error_witness :
  value (dialRegion (env_net dial_healthy (fun _ _ => None) (fun _ => (None, None)))
           (region_client [])
           (region_nyc [node "down.test" "" "" false; node "stun.test" "" "" true])
           0%nat)
  = Returns (None, None,
             Some (extError "dial tcp4 down.test:443: connection refused")).
Proof.
  apply (dialRegion_first_node_error
           (env_net dial_healthy (fun _ _ => None) (fun _ => (None, None)))
           (region_client [])
           (region_nyc [node "down.test" "" "" false; node "stun.test" "" "" true])
           0%nat (node "down.test" "" "" false) [node "stun.test" "" "" true]).
  - reflexivity.
  - reflexivity.
  - vm_compute. reflexivity.
  - intros n k' [<-|[]] H. discriminate H.
Defined.

(** ** What a computation emits *)

Lemma emits_ret {A} P (a : A) : emits P (ret a).
Proof. intros n. constructor. Qed.

Lemma emits_panic {A} P : emits P (@panic A).
Proof. intros n. constructor. Qed.

Lemma emits_alloc P : emits P alloc.
Proof. intros n. constructor. Qed.

Lemma emits_emit (P : Event -> Prop) ev : P ev -> emits P (emit ev).
Proof. intros H n. constructor; [exact H | constructor]. Qed.

Lemma emits_deref {A} P (p : option A) : emits P (deref p).
Proof. destruct p; [apply emits_ret | apply emits_panic]. Qed.

Lemma emits_bind {A B} P (m : M A) (k : A -> M B) :
  emits P m -> (forall a, emits P (k a)) -> emits P (bind m k).
Proof.
  intros Hm Hk n. unfold bind. specialize (Hm n).
  destruct (m n) as [[[a|] n1] t1]; unfold events in *; simpl in *; auto.
  specialize (Hk a n1). destruct (k a n1) as [[b n2] t2].
  unfold events in Hk. simpl in *. apply Forall_app. auto.
Qed.

Lemma emits_when P b m : emits P m -> emits P (when b m).
Proof. destruct b; simpl; [auto | intros _; apply emits_ret]. Qed.

Lemma emits_weaken {A} (P Q : Event -> Prop) (m : M A) :
  (forall ev, P ev -> Q ev) -> emits P m -> emits Q m.
Proof. intros H Hm n. eapply Forall_impl; [exact H | apply Hm]. Qed.

Lemma emits_In {A} P (m : M A) n ev :
  emits P m -> In ev (events (m n)) -> P ev.
Proof. intros Hm Hin. specialize (Hm n). rewrite Forall_forall in Hm. auto. Qed.

Create HintDb emits.
#[local] Hint Resolve emits_ret emits_panic emits_alloc emits_deref : emits.

Ltac emits_step :=
  match goal with
  | |- emits _ (bind _ _) => apply emits_bind; [| intros ?]
  | |- emits _ (when _ _) => apply emits_when
  | |- emits _ (emit _) => apply emits_emit; simpl; auto
  | |- emits _ (match ?x with _ => _ end) => destruct x
  | |- emits _ (if ?x then _ else _) => destruct x
  | |- emits _ _ => solve [auto with emits]
  end.

Ltac emits_auto := repeat emits_step.

Lemma dial_targetString c reg : emits dial_event (targetString c reg).
Proof. unfold targetString. emits_auto. Qed.

Lemma dial_tlsServerName c nd : emits dial_event (tlsServerName c nd).
Proof. unfold tlsServerName. emits_auto. Qed.

Lemma dial_dialContext e proto addr : emits dial_event (dialContext e proto addr).
Proof. unfold dialContext. emits_auto. Qed.

#[local] Hint Resolve dial_targetString dial_tlsServerName dial_dialContext : emits.

Lemma dial_dialURL e c : emits dial_event (dialURL e c).
Proof. unfold dialURL. emits_auto. Qed.

Lemma dial_dialNodeUsingProxy e n pu : emits dial_event (dialNodeUsingProxy e n pu).
Proof.
  unfold dialNodeUsingProxy. destruct (String.eqb (Scheme pu) "https"); emits_auto.
Qed.

Lemma dial_startDial e n d p : emits dial_event (startDial e n d p).
Proof. unfold startDial. auto with emits. Qed.

Lemma dial_close_unreceived l : emits dial_event (close_unreceived l).
Proof. induction l as [|[conn|err] l IH]; simpl; emits_auto; auto. Qed.

#[local] Hint Resolve dial_dialURL dial_dialNodeUsingProxy dial_startDial
  dial_close_unreceived : emits.

Lemma dial_start_racers e n : emits dial_event (start_racers e n).
Proof. unfold start_racers. emits_auto. Qed.

#[local] Hint Resolve dial_start_racers : emits.

Lemma dial_dialNode_race e n : emits dial_event (dialNode_race e n).
Proof. unfold dialNode_race. emits_auto. Qed.

#[local] Hint Resolve dial_dialNode_race : emits.

Lemma dial_dialNode e c n : emits dial_event (dialNode e c n).
Proof. unfold dialNode. emits_auto. Qed.

#[local] Hint Resolve dial_dialNode : emits.

Lemma dial_dialRegion_loop e c reg nodes :
  forall firstErr, emits dial_event (dialRegion_loop e c reg nodes firstErr).
Proof.
  induction nodes as [|n rest IH]; intros firstErr; simpl; emits_auto; auto.
Qed.

#[local] Hint Resolve dial_dialRegion_loop : emits.

Lemma dial_dialRegion e c reg : emits dial_event (dialRegion e c reg).
Proof. unfold dialRegion. emits_auto. Qed.

Lemma emits_and {A} (P Q : Event -> Prop) (m : M A) :
  emits P m -> emits Q m -> emits (fun ev => P ev /\ Q ev) m.
Proof.
  intros HP HQ n. specialize (HP n). specialize (HQ n).
  rewrite Forall_forall in *. auto.
Qed.

Lemma clear_targetString c reg : emits cleartext_only (targetString c reg).
Proof. unfold targetString. emits_auto. Qed.

Lemma clear_dialContext e proto addr :
  emits cleartext_only (dialContext e proto addr).
Proof. unfold dialContext. emits_auto. Qed.

#[local] Hint Resolve clear_targetString clear_dialContext : emits.

Lemma clear_dialURL e c : emits cleartext_only (dialURL e c).
Proof. unfold dialURL. emits_auto. Qed.

Lemma clear_startDial e n d p : emits cleartext_only (startDial e n d p).
Proof. unfold startDial. auto with emits. Qed.

Lemma clear_close_unreceived l : emits cleartext_only (close_unreceived l).
Proof. induction l as [|[conn|err] l IH]; simpl; emits_auto; auto. Qed.

#[local] Hint Resolve clear_startDial clear_close_unreceived : emits.

Lemma clear_start_racers e n : emits cleartext_only (start_racers e n).
Proof. unfold start_racers. emits_auto. Qed.

#[local] Hint Resolve clear_start_racers : emits.

Lemma clear_dialNode_race e n : emits cleartext_only (dialNode_race e n).
Proof. unfold dialNode_race. emits_auto. Qed.

Lemma tls_dialNodeUsingProxy e n pu :
  emits (fun ev => cleartext_only ev \/
                   (Scheme pu = "https" /\
                    ev = EvDialTLS "tcp" (JoinHostPort (Hostname pu)
                                            (firstStr (Port pu) "443"))))
        (dialNodeUsingProxy e n pu).
Proof.
  unfold dialNodeUsingProxy.
  destruct (String.eqb (Scheme pu) "https") eqn:Hh;
    [apply String.eqb_eq in Hh|]; emits_auto.
Qed.

Lemma tls_dialNode e c n :
  emits (fun ev => cleartext_only ev \/ tls_dial_of e c [n] ev) (dialNode e c n).
Proof.
  assert (forall k, dialNode e c n k
                    = match proxyFor e c n with
                      | Some pu => dialNodeUsingProxy e n pu k
                      | None => dialNode_race e n k
                      end) as Heq.
  { intros k. unfold dialNode. unfold bind at 1. rewrite tlsServerName_Some.
    unfold proxyFor.
    destruct (env_ProxyFromEnvironment e _) as [[pu|] [err|]];
      try (destruct (dialNode_race e n k) as [[o k'] t]; reflexivity).
    destruct (dialNodeUsingProxy e n pu k) as [[o k'] t]. reflexivity. }
  intros k. rewrite Heq. destruct (proxyFor e c n) as [pu|] eqn:Hp.
  - eapply Forall_impl; [| apply (tls_dialNodeUsingProxy e n pu k)].
    intros ev [H|[Hs Hev]]; [left; exact H | right].
    exists n, pu. repeat split; auto. left. reflexivity.
  - eapply Forall_impl; [| apply (clear_dialNode_race e n k)].
    intros ev H. left. exact H.
Qed.

Lemma tls_dialRegion_loop e c reg nodes :
  forall firstErr,
    emits (fun ev => cleartext_only ev \/ tls_dial_of e c nodes ev)
          (dialRegion_loop e c reg nodes firstErr).
Proof.
  induction nodes as [|n rest IH]; intros firstErr; simpl.
  - apply emits_ret.
  - assert (forall f, emits (fun ev => cleartext_only ev
                                       \/ tls_dial_of e c (n :: rest) ev)
                            (dialRegion_loop e c reg rest f)) as Hrest.
    { intros f. eapply emits_weaken; [| apply IH].
      intros ev [H|(nd & pu & Hin & H)]; [left; exact H | right].
      exists nd, pu. split; [right; exact Hin | exact H]. }
    destruct (STUNOnly n).
    + destruct firstErr; [apply Hrest|].
      apply emits_bind; [| intros t; apply Hrest].
      eapply emits_weaken; [| apply clear_targetString]. intros ev H. left. exact H.
    + apply emits_bind.
      * eapply emits_weaken; [| apply tls_dialNode].
        intros ev [H|(nd & pu & Hin & H)]; [left; exact H | right].
        exists nd, pu. split; [| exact H].
        destruct Hin as [<-|[]]. left. reflexivity.
      * intros [conn|err]; [apply emits_ret|].
        destruct firstErr; apply Hrest.
Qed.

Lemma tls_dialRegion e c reg :
  emits (fun ev => cleartext_only ev \/ tls_dial_of e c (Nodes reg) ev)
        (dialRegion e c reg).
Proof.
  unfold dialRegion. destruct (Nodes reg) as [|n rest] eqn:Hn.
  - apply emits_bind; [| intros t; apply emits_ret].
    eapply emits_weaken; [| apply clear_targetString]. intros ev H. left. exact H.
  - apply tls_dialRegion_loop.
Qed.

(** X11. Dialing only looks up names, dials, writes to and reads from the
    proxy connection and closes connections: it writes no upgrade request and
    makes no DERP client and no TLS client.  Under the URL plan it starts no
    TLS at all.  Under the region plan the only TLS it starts is the
    [tls.Dialer] dial to the [https] proxy of a node of the region, so with no
    such proxy it starts none either. *)
Theorem dialing_only_dials :
  forall (e : Env) (c : Client) (reg : DERPRegion) (n : ptr) (ev : Event),
    (In ev (events (dialURL e c n)) -> dial_event ev /\ cleartext_only ev) /\
    (In ev (events (dialRegion e c reg n)) ->
     dial_event ev /\
     (cleartext_only ev \/ tls_dial_of e c (Nodes reg) ev) /\
     ((forall nd pu, In nd (Nodes reg) -> proxyFor e c nd = Some pu ->
                     Scheme pu <> "https") ->
      cleartext_only ev)).
Proof.
  intros e c reg n ev. split; intros H.
  - split.
    + exact (emits_In _ _ _ _ (dial_dialURL e c) H).
    + exact (emits_In _ _ _ _ (clear_dialURL e c) H).
  - split; [exact (emits_In _ _ _ _ (dial_dialRegion e c reg) H)|].
    pose proof (emits_In _ _ _ _ (tls_dialRegion e c reg) H) as Ht.
    split; [exact Ht|].
    intros Hno. destruct Ht as [Ht|(nd & pu & Hin & Hp & Hs & _)]; [exact Ht|].
    exfalso. exact (Hno nd pu Hin Hp Hs).
Qed.

(** ** What connect emits *)

Section ConnectEmits.
Variable P : Event -> Prop.
Variables (e : Env) (c : Client) (caller : string).
Hypothesis P_dial : forall ev, dial_event ev -> P ev.
Hypothesis P_upgrade : forall tc nd, emits P (upgrade e c tc nd).

Lemma emits_connect_attempt reg : emits P (connect_attempt e c reg).
Proof.
  unfold connect_attempt. apply emits_bind.
  - destruct (url c).
    + apply (emits_weaken dial_event); [exact P_dial|]. emits_auto.
    + apply (emits_weaken dial_event); [exact P_dial|].
      apply emits_bind; [auto with emits | intros r; apply dial_dialRegion].
  - intros [[tcpConn nd] err]. destruct err; [apply emits_ret|].
    apply emits_bind; [apply emits_deref | intros tc].
    apply emits_bind; [apply P_upgrade | intros r].
    apply emits_bind; [| intros _; apply emits_ret].
    apply emits_when. apply emits_emit. apply P_dial. exact I.
Qed.

Lemma emits_connect : emits P (connect e caller c).
Proof.
  unfold connect. destruct (closed c); [apply emits_ret|].
  destruct (client c); [apply emits_ret|].
  match goal with
  | |- context [match ?x with Ok _ => _ | Err _ => _ end] =>
      destruct x as [reg|err]
  end; [| apply emits_ret].
  apply emits_bind; [apply emits_connect_attempt|].
  intros [tcpConn [[dc pub]|err]]; [apply emits_ret|].
  apply emits_bind;
    [apply (emits_weaken dial_event); [exact P_dial | apply dial_targetString]|].
  intros t. apply emits_bind; [| intros _; apply emits_ret].
  destruct tcpConn; [| apply emits_ret].
  apply emits_emit. apply P_dial. exact I.
Qed.
End ConnectEmits.

Lemma upgrade_requests e c tc nd : emits upgrade_event (upgrade e c tc nd).
Proof.
  unfold upgrade. apply emits_bind.
  - destruct (useHTTPS c); [| apply emits_ret].
    apply emits_bind.
    + unfold tlsClient, tlsServerName. emits_auto.
    + intros tlsConn. emits_auto.
  - intros [[httpConn [pub v]]|err]; [| apply emits_ret].
    apply emits_bind; [unfold urlString; emits_auto | intros u].
    destruct (env_NewRequest e); [apply emits_ret|].
    apply emits_bind.
    + unfold httpUpgrade.
      destruct (fastStart pub v).
      * apply emits_bind; [| intros _; apply emits_ret].
        apply emits_emit. unfold upgrade_event, upgrade_request. simpl. auto.
      * apply emits_bind.
        -- apply emits_emit. unfold upgrade_event, upgrade_request. simpl. auto.
        -- intros _. emits_auto.
    + intros herr. emits_auto.
Qed.



Lemma emits_bind_ret {A B} P (a : A) (k : A -> M B) :
  emits P (k a) -> emits P (bind (ret a) k).
Proof.
  intros H n. specialize (H n). unfold bind, ret.
  destruct (k a n) as [[b n2] t2]. exact H.
Qed.

Lemma cleartext_upgrade e c tc nd :
  useHTTPS c = false -> emits cleartext_event (upgrade e c tc nd).
Proof.
  intros Hs. unfold upgrade. rewrite Hs. apply emits_bind_ret.
  apply emits_bind; [unfold urlString; emits_auto | intros u].
  destruct (env_NewRequest e); [apply emits_ret|].
  apply emits_bind.
  - unfold httpUpgrade.
    assert (fastStart Public_zero 0 = false) as -> by reflexivity.
    apply emits_bind; [apply emits_emit; reflexivity|].
    intros _. emits_auto.
  - intros herr. emits_auto.
Qed.



(** ** A failed connect *)

Lemma targetString_value c reg k :
  exists o, forall k', targetString c reg k' = (o, k', []) /\
                       value (targetString c reg k) = o.
Proof.
  unfold targetString. destruct (url c); [| destruct reg]; eexists; intros k';
    split; reflexivity.
Qed.

Lemma connect_open_empty e caller c n :
  closed c = false -> client c = None ->
  (forall f, getRegion c = Some f -> f tt <> None) ->
  connect e caller c n =
  (bind (connect_attempt e c (regionOf c))
     (fun x =>
        match x with
        | (tcpConn, Err err) =>
            let err :=
              match env_ctx_err e with
              | Some ce => errorString (Error ce ++ ": " ++ Error err)
              | None => err
              end in
            t <- targetString c (regionOf c) ;;
            let err := errorString
                         (caller ++ " connect to " ++ t ++ ": " ++ Error err) in
            match tcpConn with
            | Some tc => emit (EvConnClose tc)
            | None => ret tt
            end ;;;
            ret (Err err, c)
        | (tcpConn, Ok (derpClient, pub)) =>
            let c := set_serverPubKey c pub in
            let c := set_client c (Some derpClient) in
            let c := set_netConn c tcpConn in
            let c := set_connGen c (wrap_int (connGen c + 1)) in
            ret (Ok (derpClient, connGen c), c)
        end)) n.
Proof.
  intros Hc Hcl Hreg. unfold connect, regionOf. rewrite Hc, Hcl.
  destruct (getRegion c) as [f|] eqn:Hg; [| reflexivity].
  destruct (f tt) as [r|] eqn:Hf; [reflexivity|].
  exfalso. exact (Hreg f eq_refl Hf).
Qed.

Lemma connect_attempt_failed e caller c n err c' n' t :
  closed c = false -> client c = None ->
  (forall f, getRegion c = Some f -> f tt <> None) ->
  connect e caller c n = (Returns (Err err, c'), n', t) ->
  exists target tcpConn aerr t1,
    closed c = false /\ client c = None /\
    connect_attempt e c (regionOf c) n = (Returns (tcpConn, Err aerr), n', t1) /\
    t = (t1 ++ match tcpConn with Some tc => [EvConnClose tc] | None => [] end)%list /\
    value (targetString c (regionOf c) n) = Returns target /\
    err = errorString
            (caller ++ " connect to " ++ target ++ ": "
             ++ match env_ctx_err e with
                | Some ce => Error ce ++ ": " ++ Error aerr
                | None => Error aerr
                end).
Proof.
  intros Hc Hcl Hreg H. rewrite (connect_open_empty e caller c n Hc Hcl Hreg) in H.
  apply bind_Returns in H.
  destruct H as ([tcpConn ra] & n1 & t1 & t2 & Ha & Hk & Ht).
  destruct ra as [[dc pub]|aerr]; [unfold ret in Hk; inversion Hk|].
  apply bind_Returns in Hk. destruct Hk as (ts & n2 & t3 & t4 & Hts & Hk & Ht2).
  apply bind_Returns in Hk. destruct Hk as (u & n3 & t5 & t6 & Hcls & Hk & Ht4).
  unfold ret in Hk. inversion Hk; subst n3 t6 err c'. clear Hk.
  destruct (targetString_value c (regionOf c) n) as (o & Ho).
  destruct (Ho n1) as [Ho1 Hv]. rewrite Ho1 in Hts.
  inversion Hts as [[Hts' Hn2 Ht3]]. rewrite Hts' in Hv. subst n2 t3.
  assert (n' = n1 /\ t5 = match tcpConn with
                          | Some tc => [EvConnClose tc]
                          | None => []
                          end) as [-> ->].
  { destruct tcpConn; unfold emit, ret in Hcls; inversion Hcls; auto. }
  exists ts, tcpConn, aerr, t1.
  split; [exact Hc|]. split; [exact Hcl|]. split; [exact Ha|]. split.
  { subst t t2 t4. simpl. rewrite app_nil_r. reflexivity. }
  split; [exact Hv|].
  destruct (env_ctx_err e); reflexivity.
Qed.





(** ** Invariants of the handle *)

Lemma connect_attempt_ok_tcp e c reg n tcpConn x n' t :
  connect_attempt e c reg n = (Returns (tcpConn, Ok x), n', t) ->
  exists tc, tcpConn = Some tc.
Proof.
  unfold connect_attempt. intros H.
  apply bind_Returns in H. destruct H as ([[tc nd] err] & n1 & t1 & t2 & _ & Hk & _).
  destruct err; [unfold ret in Hk; inversion Hk|].
  apply bind_Returns in Hk. destruct Hk as (tc' & n2 & t3 & t4 & Htc & Hk & _).
  apply bind_Returns in Hk. destruct Hk as (r & n3 & t5 & t6 & _ & Hk & _).
  apply bind_Returns in Hk. destruct Hk as (u & n4 & t7 & t8 & _ & Hk & _).
  unfold ret in Hk. inversion Hk; subst.
  destruct tcpConn as [p|]; [eauto | discriminate Htc].
Qed.

Lemma connect_writes_only_the_slot_aux :
  forall (e : Env) (caller : string) (c : Client) (n : ptr)
         (r : result (ptr * Z)) (c' : Client) (n' : ptr) (t : list Event),
    connect e caller c n = (Returns (r, c'), n', t) ->
    c' = c \/
    (client c = None /\ closed c = false /\
     exists dc pub tc,
       r = Ok (dc, wrap_int (connGen c + 1)) /\
       c' = set_connGen
              (set_netConn (set_client (set_serverPubKey c pub) (Some dc)) (Some tc))
              (wrap_int (connGen c + 1))).
Proof.
  intros e caller c n r c' n' t. unfold connect.
  destruct (closed c) eqn:Hc.
  { unfold ret. intros H. inversion H; subst. now left. }
  destruct (client c) as [cl|] eqn:Hcl.
  { unfold ret. intros H. inversion H; subst. now left. }
  match goal with
  | |- context [match ?x with Ok _ => _ | Err _ => _ end] => destruct x as [reg|err]
  end.
  2:{ unfold ret. intros H. inversion H; subst. now left. }
  intros H. apply bind_Returns in H.
  destruct H as ([tcpConn ra] & n1 & t1 & t2 & Ha & Hk & _).
  destruct ra as [[dc pub]|err].
  - apply connect_attempt_ok_tcp in Ha. destruct Ha as (tc & ->).
    unfold ret in Hk. inversion Hk; subst. right.
    split; [reflexivity|]. split; [reflexivity|].
    exists dc, pub, tc. split; reflexivity.
  - apply bind_Returns in Hk. destruct Hk as (ts & n2 & t3 & t4 & Ht & Hk & _).
    apply bind_Returns in Hk. destruct Hk as (u & n3 & t5 & t6 & _ & Hk & _).
    unfold ret in Hk. inversion Hk; subst. now left.
Qed.


Lemma step_slot_consistent s c n c' n' t :
  slot_consistent c -> step s c n = (Returns c', n', t) -> slot_consistent c'.
Proof.
  unfold slot_consistent. intros Hs H.
  destruct s as [e caller|w| |v|v]; simpl in H.
  - apply bind_Returns in H. destruct H as ([r c1] & n1 & t1 & t2 & Hc & Hk & _).
    unfold ret in Hk. inversion Hk; subst.
    apply connect_writes_only_the_slot_aux in Hc.
    destruct Hc as [-> | (_ & _ & dc & pub & tc & _ & ->)]; [exact Hs|].
    simpl. split; discriminate.
  - rewrite closeForReconnect_eq in H.
    destruct (optptr_eqb (client c) w); inversion H; subst; simpl; tauto.
  - apply bind_Returns in H. destruct H as ([r c1] & n1 & t1 & t2 & Hc & Hk & _).
    unfold ret in Hk. inversion Hk; subst.
    rewrite Close_eq in Hc. destruct (ctx c); [| discriminate].
    destruct (closed c); inversion Hc; subst; simpl; exact Hs.
  - unfold ret in H. inversion H; subst. simpl. exact Hs.
  - destruct (Bool.eqb (preferred c) v); unfold ret in H; inversion H; subst;
      simpl; exact Hs.
Qed.


(** X17. The slot holds a client exactly when it holds a transport closer:
    every critical section keeps this, so it holds throughout every run
    that starts from a handle where it holds, such as a new one. *)
Theorem run_keeps_slot_consistent :
  forall (steps : list Step) (c : Client) (n : ptr)
         (c' : Client) (n' : ptr) (t : list Event),
    slot_consistent c ->
    run steps c n = (Returns c', n', t) ->
    slot_consistent c'.
Proof.
  induction steps as [|s rest IH]; intros c n c' n' t Hs H; simpl in H.
  - unfold ret in H. inversion H; subst. exact Hs.
  - apply bind_Returns in H. destruct H as (c1 & n1 & t1 & t2 & Hst & Hr & _).
    eapply IH; [| exact Hr]. eapply step_slot_consistent; eauto.
Qed.

Lemma run_keeps_slot_consistent_witness :
  slot_consistent
    (final [SConnect env_ok "a"; SCloseForReconnect (Some 2%nat);
            SConnect env_ok "b"; SClose] demo_client).
Proof.
  assert (slot_consistent demo_client) as H0 by (split; reflexivity).
  assert (run [SConnect env_ok "a"; SCloseForReconnect (Some 2%nat);
               SConnect env_ok "b"; SClose] demo_client 0%nat
          = (Returns (final [SConnect env_ok "a"; SCloseForReconnect (Some 2%nat);
                             SConnect env_ok "b"; SClose] demo_client),
             6%nat,
             events (run [SConnect env_ok "a"; SCloseForReconnect (Some 2%nat);
                          SConnect env_ok "b"; SClose] demo_client 0%nat))) as H
      by (vm_compute; reflexivity).
  exact (run_keeps_slot_consistent _ _ _ _ _ _ H0 H).
Defined.

Lemma step_closed s c n c' n' t :
  closed c = true -> step s c n = (Returns c', n', t) ->
  closed c' = true /\ connGen c' = connGen c /\
  serverPubKey c' = serverPubKey c /\ n' = n /\ count is_dial t = 0%nat.
Proof.
  intros Hc H. destruct s as [e caller|w| |v|v]; simpl in H.
  - unfold bind in H. rewrite (connect_closed e caller c n Hc) in H.
    unfold ret in H. inversion H; subst. auto.
  - rewrite closeForReconnect_eq in H.
    destruct (optptr_eqb (client c) w); inversion H; subst; simpl;
      try destruct (netConn c); auto.
  - unfold bind in H. rewrite Close_eq in H.
    destruct (ctx c); [| discriminate]. rewrite Hc in H.
    unfold ret in H. inversion H; subst. simpl. auto.
  - unfold ret in H. inversion H; subst. simpl. auto.
  - destruct (Bool.eqb (preferred c) v); unfold ret in H; inversion H; subst;
      simpl; auto.
Qed.

Lemma count_app p t1 t2 :
  count p (t1 ++ t2) = (count p t1 + count p t2)%nat.
Proof. unfold count. rewrite filter_app, length_app. reflexivity. Qed.

(** X18. Closed is absorbing: once the handle is closed, whatever critical
    sections follow, it stays closed, no connection is dialed, nothing is
    allocated, and the generation and the cached server key stay as they
    are. *)
Theorem closed_is_absorbing :
  forall (steps : list Step) (c : Client) (n : ptr)
         (c' : Client) (n' : ptr) (t : list Event),
    closed c = true ->
    run steps c n = (Returns c', n', t) ->
    closed c' = true /\ connGen c' = connGen c /\
    serverPubKey c' = serverPubKey c /\ n' = n /\ count is_dial t = 0%nat.
Proof.
  induction steps as [|s rest IH]; intros c n c' n' t Hc H; simpl in H.
  - unfold ret in H. inversion H; subst. auto.
  - apply bind_Returns in H. destruct H as (c1 & n1 & t1 & t2 & Hst & Hr & ->).
    apply (step_closed _ _ _ _ _ _ Hc) in Hst.
    destruct Hst as (Hc1 & Hg & Hk & -> & Hd).
    apply (IH _ _ _ _ _ Hc1) in Hr. destruct Hr as (Hc2 & Hg2 & Hk2 & -> & Hd2).
    rewrite count_app. repeat split; try congruence. lia.
Qed.

Lemma closed_is_absorbing_witness :
  closed (final [SConnect env_ok "a"; SClose; SConnect env_ok "b";
                 SCloseForReconnect (Some 2%nat); SConnect env_ok "c"]
            demo_client) = true.
Proof.
  assert (closed (final [SConnect env_ok "a"; SClose] demo_client) = true) as H0
      by reflexivity.
  assert (run [SConnect env_ok "b"; SCloseForReconnect (Some 2%nat);
               SConnect env_ok "c"]
            (final [SConnect env_ok "a"; SClose] demo_client) 3%nat
          = (Returns (final [SConnect env_ok "a"; SClose; SConnect env_ok "b";
                             SCloseForReconnect (Some 2%nat); SConnect env_ok "c"]
                        demo_client), 3%nat, [EvConnClose 0%nat])) as H
      by (vm_compute; reflexivity).
  exact (proj1 (closed_is_absorbing _ _ _ _ _ _ H0 H)).
Defined.

(** X19. [Close] on a closed handle returns [ErrClientClosed], closes
    nothing and leaves the slot and the closed flag as they are, so the
    transport is closed by [Close] at most once.  On a handle made by
    [NewNetcheckClient], which has no cancel function, [Close] panics. *)
Theorem Close_again_returns_closed :
  forall (c : Client) (n : ptr),
    (ctx c <> None -> closed c = true ->
     exists c',
       Close c n = (Returns (Some ErrClientClosed, c'), n, []) /\
       closed c' = true /\ client c' = client c /\ netConn c' = netConn c /\
       connGen c' = connGen c /\ ctx c' = Some true) /\
    (ctx c <> None -> closed c = false ->
     exists c1 t1,
       Close c n = (Returns (None, c1), n, t1) /\
       Close c1 n = (Returns (Some ErrClientClosed, c1), n, [])) /\
    Close NewNetcheckClient n = (Panics, n, []).
Proof.
  intros c n. split; [| split].
  - intros Hx Hc. rewrite Close_eq. destruct (ctx c); [| contradiction].
    rewrite Hc. eexists. split; [reflexivity|]. simpl. auto.
  - intros Hx Hc. rewrite Close_eq. destruct (ctx c); [| contradiction].
    rewrite Hc. eexists. eexists. split; [reflexivity|].
    rewrite Close_eq. reflexivity.
  - reflexivity.
Qed.

(** ** RecvDetail *)



(** ** The preferred flag on connect *)

Lemma upgrade_notifies e c tc nd n dc pub n' t :
  upgrade e c tc nd n = (Returns (Ok (dc, pub)), n', t) ->
  preferred c = true ->
  In (EvDerpNotePreferred dc true) t /\ env_derp_NotePreferred e dc true = None.
Proof.
  unfold upgrade. intros H Hp.
  apply bind_Returns in H. destruct H as (h & n1 & t1 & t2 & Hh & Hk & ->).
  destruct h as [[httpConn [serverPub v]]|err];
    [| unfold ret in Hk; discriminate].
  apply bind_Returns in Hk. destruct Hk as (u & n2 & t3 & t4 & Hu & Hk & ->).
  destruct (env_NewRequest e); [unfold ret in Hk; discriminate|].
  apply bind_Returns in Hk. destruct Hk as (herr & n3 & t5 & t6 & Hh' & Hk & ->).
  destruct herr; [unfold ret in Hk; discriminate|].
  destruct (env_derp_NewClient e serverPub); [|unfold ret in Hk; discriminate].
  revert Hk. rewrite Hp. monad. simpl.
  destruct (env_derp_NotePreferred e n3 true) eqn:Hn; simpl;
    intros Hk; inversion Hk; subst.
  split; [| exact Hn].
  apply in_or_app. right. apply in_or_app. right. apply in_or_app. right.
  simpl. auto.
Qed.

Lemma upgrade_quiet e c tc nd :
  preferred c = false -> emits quiet_event (upgrade e c tc nd).
Proof.
  intros Hp. unfold upgrade. rewrite Hp. apply emits_bind.
  - destruct (useHTTPS c); [| apply emits_ret].
    apply emits_bind.
    + unfold tlsClient, tlsServerName. emits_auto; reflexivity.
    + intros tlsConn. emits_auto; reflexivity.
  - intros [[httpConn [pub v]]|err]; [| apply emits_ret].
    apply emits_bind; [unfold urlString; emits_auto | intros u].
    destruct (env_NewRequest e); [apply emits_ret|].
    apply emits_bind.
    + unfold httpUpgrade. emits_auto; reflexivity.
    + intros herr. emits_auto; reflexivity.
Qed.

Lemma count_zero p t : Forall (fun ev => p ev = false) t -> count p t = 0%nat.
Proof.
  unfold count. induction 1 as [|ev t Hev _ IH]; simpl; [reflexivity|].
  rewrite Hev. exact IH.
Qed.

(** X21. A [connect] that makes a connection tells the new DERP client that
    this is the preferred node exactly when the handle's [preferred] flag is
    set: with the flag set the new client was sent [NotePreferred(true)] and
    accepted it; with the flag clear no [NotePreferred] is sent at all. *)
Theorem connect_propagates_preferred :
  forall (e : Env) (caller : string) (c : Client) (n : ptr)
         (dc : ptr) (g : Z) (c' : Client) (n' : ptr) (t : list Event),
    client c = None ->
    connect e caller c n = (Returns (Ok (dc, g), c'), n', t) ->
    (preferred c = true ->
     In (EvDerpNotePreferred dc true) t /\
     env_derp_NotePreferred e dc true = None) /\
    (preferred c = false -> count is_note_preferred t = 0%nat).
Proof.
  intros e caller c n dc g c' n' t Hcl H. split.
  - intros Hp. revert H. unfold connect.
    destruct (closed c); [unfold ret; intros H; inversion H|].
    rewrite Hcl.
    match goal with
    | |- context [match ?x with Ok _ => _ | Err _ => _ end] =>
        destruct x as [reg|err]
    end; [| unfold ret; intros H; inversion H].
    intros H. apply bind_Returns in H.
    destruct H as ([tcpConn ra] & n1 & t1 & t2 & Ha & Hk & ->).
    destruct ra as [[dc' pub]|err].
    + unfold ret in Hk. inversion Hk; subst.
      unfold connect_attempt in Ha.
      apply bind_Returns in Ha.
      destruct Ha as ([[tc nd] derr] & n2 & t3 & t4 & _ & Ha & ->).
      destruct derr; [unfold ret in Ha; inversion Ha|].
      apply bind_Returns in Ha. destruct Ha as (tc' & n3 & t5 & t6 & _ & Ha & ->).
      apply bind_Returns in Ha. destruct Ha as (r & n4 & t7 & t8 & Hup & Ha & ->).
      apply bind_Returns in Ha. destruct Ha as (u & n5 & t9 & t10 & _ & Ha & ->).
      unfold ret in Ha. inversion Ha; subst.
      destruct (upgrade_notifies _ _ _ _ _ _ _ _ _ Hup Hp) as [Hin Hn].
      split; [| exact Hn].
      apply in_or_app. left. apply in_or_app. right. apply in_or_app. right.
      apply in_or_app. left. exact Hin.
    + apply bind_Returns in Hk. destruct Hk as (ts & n2 & t3 & t4 & _ & Hk & _).
      apply bind_Returns in Hk. destruct Hk as (u & n3 & t5 & t6 & _ & Hk & _).
      unfold ret in Hk. inversion Hk.
  - intros Hp.
    assert (emits quiet_event (connect e caller c)) as Hq.
    { apply emits_connect.
      - intros ev. destruct ev; simpl; try tauto; reflexivity.
      - intros tc nd. apply upgrade_quiet. exact Hp. }
    specialize (Hq n). rewrite H in Hq. unfold events in Hq. simpl in Hq.
    apply count_zero. exact Hq.
Qed.

Lemma connect_propagates_preferred_witness :
  In (EvDerpNotePreferred 2%nat true)
     (events (connect env_ok "a" (set_preferred demo_client true) 0%nat)).
Proof.
  assert (client (set_preferred demo_client true) = None) as H0 by reflexivity.
  assert (connect env_ok "a" (set_preferred demo_client true) 0%nat
          = (Returns (Ok (2%nat, 1),
                      final [SConnect env_ok "a"] (set_preferred demo_client true)),
             3%nat,
             events (connect env_ok "a" (set_preferred demo_client true) 0%nat)))
    as H by (vm_compute; reflexivity).
  exact (proj1 (proj1 (connect_propagates_preferred _ _ _ _ _ _ _ _ _ H0 H)
                  eq_refl)).
Defined.

(** ** The generation identifies the connection *)

Section Anchor.
(** A successful [connect] returned client [cl1] at generation [g1], and
    every address below [n1] had been handed out by then. *)
Variables (cl1 : ptr) (g1 : Z) (n1 : ptr).
Hypothesis cl1_old : (cl1 < n1)%nat.

Local Abbreviation since := (since cl1 g1 n1).

Lemma since_connect e caller c n r c' n' t :
  since c n -> connGen c < max_int -> 0 <= connGen c ->
  connect e caller c n = (Returns (r, c'), n', t) ->
  since c' n' /\
  forall cl g, r = Ok (cl, g) -> same_connection (cl1, g1) (cl, g).
Proof.
  intros [Hn Hs] Hb H0 H. apply connect_cases in H.
  destruct H as [Hle [[-> Hr]|(dc & -> & _ & Hnil & Hsome & Hgen & _ & _ & Hf)]].
  - split; [split; [lia | exact Hs]|].
    intros cl g ->. destruct Hr as (_ & Hcl & ->).
    unfold same_connection. simpl.
    destruct Hs as [[Hg [Hc|Hc]]|[Hg Hp]].
    + congruence.
    + rewrite Hcl in Hc. injection Hc as ->. split; intros; congruence.
    + specialize (Hp cl Hcl). split; intros; lia.
  - rewrite wrap_int_succ in Hgen by lia.
    assert (g1 <= connGen c) as Hge by (destruct Hs as [[-> _]|[Hg _]]; lia).
    split.
    + split; [lia|]. right. split; [lia|].
      intros p Hp. rewrite Hsome in Hp. injection Hp as <-. lia.
    + intros cl g [= <- <-]. unfold same_connection. simpl.
      split; intros; lia.
Qed.

Lemma since_step s c n c' n' t :
  since c n -> connGen c < max_int -> 0 <= connGen c ->
  step s c n = (Returns c', n', t) ->
  since c' n' /\ connGen c <= connGen c' <= connGen c + 1.
Proof.
  intros Hs Hb H0 H.
  destruct s as [e caller|w| |v|v]; simpl in H.
  - apply bind_Returns in H. destruct H as ([r c1] & k1 & t1 & t2 & Hc & Hk & _).
    unfold ret in Hk. inversion Hk; subst.
    pose proof (since_connect _ _ _ _ _ _ _ _ Hs Hb H0 Hc) as [Hs' _].
    split; [exact Hs'|].
    apply connect_cases in Hc.
    destruct Hc as [_ [[-> _]|(dc & _ & _ & _ & _ & Hgen & _)]]; [lia|].
    rewrite wrap_int_succ in Hgen by lia. lia.
  - rewrite closeForReconnect_eq in H. destruct Hs as [Hn Hs].
    destruct (optptr_eqb (client c) w); inversion H; subst; simpl;
      (split; [split; [lia|] | lia]); [| exact Hs].
    destruct Hs as [[Hg _]|[Hg _]]; [left; auto | right].
    split; [exact Hg | intros p Hp; discriminate Hp].
  - apply bind_Returns in H. destruct H as ([r c1] & k1 & t1 & t2 & Hc & Hk & _).
    unfold ret in Hk. inversion Hk; subst.
    rewrite Close_eq in Hc. destruct (ctx c); [| discriminate].
    destruct Hs as [Hn Hs].
    destruct (closed c); inversion Hc; subst; simpl;
      (split; [split; [lia | exact Hs] | lia]).
  - unfold ret in H. inversion H; subst. simpl. split; [exact Hs | lia].
  - destruct (Bool.eqb (preferred c) v); unfold ret in H; inversion H; subst;
      simpl; (split; [exact Hs | lia]).
Qed.

Lemma since_observe steps :
  forall c n obs n' t,
    since c n -> 0 <= connGen c ->
    connGen c + Z.of_nat (List.length steps) <= max_int ->
    observe_clients steps c n = (Returns obs, n', t) ->
    Forall (same_connection (cl1, g1)) obs.
Proof.
  induction steps as [|s rest IH]; intros c n obs n' t Hs H0 Hb H.
  - simpl in H. unfold ret in H. inversion H; subst. constructor.
  - assert (Z.of_nat (List.length (s :: rest)) = Z.of_nat (List.length rest) + 1)
      as Hlen by (simpl List.length; lia).
    rewrite Hlen in Hb.
    destruct s as [e caller|w| |v|v].
    + simpl in H. apply bind_Returns in H.
      destruct H as ([r c1] & k1 & t1 & t2 & Hc & Hk & _).
      apply bind_Returns in Hk. destruct Hk as (obs' & k2 & t3 & t4 & Ho & Hk & _).
      assert (step (SConnect e caller) c n = (Returns c1, k1, (t1 ++ [])%list))
        as Hst.
      { simpl. unfold bind. rewrite Hc. reflexivity. }
      pose proof (since_connect _ _ _ _ _ _ _ _ Hs ltac:(lia) H0 Hc) as [Hs' Hsame].
      pose proof (since_step _ _ _ _ _ _ Hs ltac:(lia) H0 Hst) as [_ Hg].
      apply IH in Ho; [| exact Hs' | lia | lia].
      destruct r as [[cl g]|err]; unfold ret in Hk; inversion Hk; subst;
        [| exact Ho].
      constructor; [apply Hsame; reflexivity | exact Ho].
    + simpl in H. apply bind_Returns in H.
      destruct H as (c1 & k1 & t1 & t2 & Hst & Ho & _).
      pose proof (since_step (SCloseForReconnect w) _ _ _ _ _ Hs ltac:(lia) H0 Hst)
        as [Hs' Hg].
      apply IH in Ho; [exact Ho | exact Hs' | lia | lia].
    + simpl in H. apply bind_Returns in H.
      destruct H as (c1 & k1 & t1 & t2 & Hst & Ho & _).
      pose proof (since_step SClose _ _ _ _ _ Hs ltac:(lia) H0 Hst) as [Hs' Hg].
      apply IH in Ho; [exact Ho | exact Hs' | lia | lia].
    + simpl in H. apply bind_Returns in H.
      destruct H as (c1 & k1 & t1 & t2 & Hst & Ho & _).
      pose proof (since_step (SSetCanAckPings v) _ _ _ _ _ Hs ltac:(lia) H0 Hst)
        as [Hs' Hg].
      apply IH in Ho; [exact Ho | exact Hs' | lia | lia].
    + simpl in H. apply bind_Returns in H.
      destruct H as (c1 & k1 & t1 & t2 & Hst & Ho & _).
      pose proof (since_step (SSetPreferred v) _ _ _ _ _ Hs ltac:(lia) H0 Hst)
        as [Hs' Hg].
      apply IH in Ho; [exact Ho | exact Hs' | lia | lia].
Qed.
End Anchor.

Lemma step_connGen s c n c' n' t :
  0 <= connGen c < max_int ->
  step s c n = (Returns c', n', t) ->
  connGen c <= connGen c' <= connGen c + 1.
Proof.
  intros Hb H.
  destruct s as [e caller|w| |v|v]; simpl in H.
  - apply bind_Returns in H. destruct H as ([r c1] & k1 & t1 & t2 & Hc & Hk & _).
    unfold ret in Hk. inversion Hk; subst.
    apply connect_cases in Hc.
    destruct Hc as [_ [[-> _]|(dc & _ & _ & _ & _ & Hgen & _)]]; [lia|].
    rewrite wrap_int_succ in Hgen by lia. lia.
  - rewrite closeForReconnect_eq in H.
    destruct (optptr_eqb (client c) w); inversion H; subst; simpl; lia.
  - apply bind_Returns in H. destruct H as ([r c1] & k1 & t1 & t2 & Hc & Hk & _).
    unfold ret in Hk. inversion Hk; subst.
    rewrite Close_eq in Hc. destruct (ctx c); [| discriminate].
    destruct (closed c); inversion Hc; subst; simpl; lia.
  - unfold ret in H. inversion H; subst. simpl. lia.
  - destruct (Bool.eqb (preferred c) v); unfold ret in H; inversion H; subst;
      simpl; lia.
Qed.

Lemma step_allocated s c n c' n' t :
  allocated_before c n -> step s c n = (Returns c', n', t) ->
  allocated_before c' n'.
Proof.
  intros Ha H p Hp. apply step_client in H.
  destruct H as [Hle [Hc|[Hc|(dc & Hc & Hdc)]]]; rewrite Hc in Hp.
  - apply Ha in Hp. lia.
  - discriminate.
  - injection Hp as <-. lia.
Qed.

Lemma observe_clients_pairs steps :
  forall c n obs n' t,
    0 <= connGen c ->
    connGen c + Z.of_nat (List.length steps) <= max_int ->
    allocated_before c n ->
    observe_clients steps c n = (Returns obs, n', t) ->
    all_pairs same_connection obs.
Proof.
  induction steps as [|s rest IH]; intros c n obs n' t H0 Hb Ha H.
  - simpl in H. unfold ret in H. inversion H; subst. exact I.
  - assert (Z.of_nat (List.length (s :: rest)) = Z.of_nat (List.length rest) + 1)
      as Hlen by (simpl List.length; lia).
    rewrite Hlen in Hb.
    assert (0 <= connGen c < max_int) as Hc0 by lia.
    assert (forall c1 k1 t1 obs1 k2 t2,
               step s c n = (Returns c1, k1, t1) ->
               observe_clients rest c1 k1 = (Returns obs1, k2, t2) ->
               all_pairs same_connection obs1) as Hrest.
    { intros c1 k1 t1 obs1 k2 t2 Hst Ho.
      pose proof (step_connGen _ _ _ _ _ _ Hc0 Hst) as Hg.
      pose proof (step_allocated _ _ _ _ _ _ Ha Hst) as Ha1.
      eapply IH; [| | exact Ha1 | exact Ho]; lia. }
    destruct s as [e caller|w| |v|v].
    + simpl in H. apply bind_Returns in H.
      destruct H as ([r c1] & k1 & t1 & t2 & Hc & Hk & _).
      apply bind_Returns in Hk. destruct Hk as (obs' & k2 & t3 & t4 & Ho & Hk & _).
      assert (step (SConnect e caller) c n = (Returns c1, k1, (t1 ++ [])%list))
        as Hst.
      { simpl. unfold bind. rewrite Hc. reflexivity. }
      pose proof (Hrest _ _ _ _ _ _ Hst Ho) as Hp.
      pose proof (step_connGen _ _ _ _ _ _ Hc0 Hst) as Hg.
      destruct r as [[cl g]|err]; unfold ret in Hk; inversion Hk; subst;
        [| exact Hp].
      simpl. split; [| exact Hp].
      apply connect_cases in Hc.
      assert ((cl < k1)%nat /\ connGen c1 = g /\ client c1 = Some cl)
        as (Hcl & Hgen & Hsl).
      { destruct Hc as [Hle [[-> (_ & Hcl & ->)]|(dc & Hr & _ & _ & Hs & _ & _ & _ & Hd)]].
        - split; [apply Ha in Hcl; lia | auto].
        - injection Hr as -> ->. split; [lia | auto]. }
      eapply (since_observe cl g k1 Hcl rest c1 k1); [| | | exact Ho].
      * split; [lia|]. left. auto.
      * lia.
      * lia.
    + simpl in H. apply bind_Returns in H.
      destruct H as (c1 & k1 & t1 & t2 & Hst & Ho & _). eapply Hrest; eauto.
    + simpl in H. apply bind_Returns in H.
      destruct H as (c1 & k1 & t1 & t2 & Hst & Ho & _). eapply Hrest; eauto.
    + simpl in H. apply bind_Returns in H.
      destruct H as (c1 & k1 & t1 & t2 & Hst & Ho & _). eapply Hrest; eauto.
    + simpl in H. apply bind_Returns in H.
      destruct H as (c1 & k1 & t1 & t2 & Hst & Ho & _). eapply Hrest; eauto.
Qed.

Lemma all_pairs_nth {A} (R : A -> A -> Prop) (l : list A) :
  all_pairs R l ->
  forall i j x y, (i < j)%nat ->
    nth_error l i = Some x -> nth_error l j = Some y -> R x y.
Proof.
  induction l as [|a l IH]; intros Hp i j x y Hij Hi Hj.
  - destruct i; discriminate.
  - destruct Hp as [Hall Hp]. destruct j as [|j]; [lia|]. simpl in Hj.
    destruct i as [|i].
    + simpl in Hi. injection Hi as ->.
      rewrite Forall_forall in Hall. apply Hall.
      eapply nth_error_In; eauto.
    + simpl in Hi. eapply (IH Hp i j); eauto. lia.
Qed.

(** X22. Over any interleaving of the handle's critical sections, two
    successful [connect]s return the same generation exactly when they return
    the same client: a caller that saw a failure on generation [g] can tell
    from the generation alone whether the connection was replaced since.
    The run is short enough for the Go int not to wrap. *)
Theorem generation_identifies_connection steps c n obs n' t :
  0 <= connGen c ->
  connGen c + Z.of_nat (List.length steps) <= max_int ->
  allocated_before c n ->
  observe_clients steps c n = (Returns obs, n', t) ->
  forall i j cl1 g1 cl2 g2,
    (i < j)%nat ->
    nth_error obs i = Some (cl1, g1) -> nth_error obs j = Some (cl2, g2) ->
    (g1 = g2 <-> cl1 = cl2).
Proof.
  intros H0 Hb Ha H i j cl1 g1 cl2 g2 Hij Hi Hj.
  pose proof (observe_clients_pairs _ _ _ _ _ _ H0 Hb Ha H) as Hp.
  exact (all_pairs_nth _ _ Hp i j _ _ Hij Hi Hj).
Qed.

Lemma generation_identifies_connection_witness :
  observe_clients [SConnect env_ok "a"; SConnect env_ok "b";
                   SCloseForReconnect (Some 2%nat); SConnect env_ok "c"]
                  demo_client 0%nat
  = (Returns [(2%nat, 1); (2%nat, 1); (5%nat, 2)], 6%nat,
     events (observe_clients [SConnect env_ok "a"; SConnect env_ok "b";
                              SCloseForReconnect (Some 2%nat);
                              SConnect env_ok "c"] demo_client 0%nat)) /\
  (1 = 1 <-> 2%nat = 2%nat) /\ (1 = 2 <-> 2%nat = 5%nat).
Proof.
  assert (observe_clients [SConnect env_ok "a"; SConnect env_ok "b";
                           SCloseForReconnect (Some 2%nat); SConnect env_ok "c"]
                          demo_client 0%nat
          = (Returns [(2%nat, 1); (2%nat, 1); (5%nat, 2)], 6%nat,
             events (observe_clients [SConnect env_ok "a"; SConnect env_ok "b";
                                      SCloseForReconnect (Some 2%nat);
                                      SConnect env_ok "c"] demo_client 0%nat)))
    as H by (vm_compute; reflexivity).
  assert (0 <= connGen demo_client) as H0 by (vm_compute; discriminate).
  assert (connGen demo_client
          + Z.of_nat (List.length [SConnect env_ok "a"; SConnect env_ok "b";
                                   SCloseForReconnect (Some 2%nat);
                                   SConnect env_ok "c"]) <= max_int) as Hb
      by (vm_compute; discriminate).
  assert (allocated_before demo_client 0%nat) as Ha
      by (intros p Hp; vm_compute in Hp; discriminate).
  split; [exact H|]. split.
  - exact (generation_identifies_connection _ _ _ _ _ _ H0 Hb Ha H
             0%nat 1%nat _ _ _ _ (le_n 1) (eq_refl _) (eq_refl _)).
  - exact (generation_identifies_connection _ _ _ _ _ _ H0 Hb Ha H
             1%nat 2%nat _ _ _ _ (le_n 2) (eq_refl _) (eq_refl _)).
Defined.

(** * Package speedtest *)

(** X23. [Direction.Reverse] is an involution on every value of the type: it
    swaps upload and download, so the name of the reversed direction differs
    from the name of the direction, and leaves every other value, those that
    [String] prints as the empty string, as it is. *)
Theorem Direction_Reverse_involutive (d : speedtest.Direction) :
  speedtest.Reverse (speedtest.Reverse d) = d /\
  (speedtest.Direction_String d = "upload" <->
   speedtest.Direction_String (speedtest.Reverse d) = "download") /\
  (speedtest.Direction_String d = "download" <->
   speedtest.Direction_String (speedtest.Reverse d) = "upload") /\
  (speedtest.Direction_String d = "" <-> d <> speedtest.Upload /\ d <> speedtest.Download) /\
  (speedtest.Direction_String d = "" -> speedtest.Reverse d = d).
Proof.
  unfold speedtest.Reverse, speedtest.Direction_String, speedtest.Upload,
    speedtest.Download.
  destruct (d =? 1) eqn:H1.
  { apply Z.eqb_eq in H1. subst d. simpl.
    repeat split; try discriminate; try reflexivity; intros; try lia;
      try discriminate. }
  destruct (d =? 0) eqn:H0.
  { apply Z.eqb_eq in H0. subst d. simpl.
    repeat split; try discriminate; try reflexivity; intros; try lia;
      try discriminate. }
  rewrite H1, H0. apply Z.eqb_neq in H1, H0.
  repeat split; try discriminate; try reflexivity; intros; try lia; auto.
Qed.

(** * Package portmapper *)

Import portmapper.

Ltac upnp_cases H :=
  unfold getUPnPPortMapping, noMapping in H;
  repeat match type of H with
         | context [match ?x with _ => _ end] => destruct x eqn:?
         end;
  inversion H; subst; clear H.

(** X24. [getUPnPClient] prefers a WANIPConnection2 client to a
    WANIPConnection1 client to a WANPPPConnection1 client, and drops every
    probe error once one client was found; with no client it reports the
    first error in the order v1, v2, PPP, and nil when no probe failed.  A URL
    that does not parse is reported before any probe. *)
Theorem getUPnPClient_priority (e : Env) (gw : IP) :
  let u := "http://" ++ IP_String e gw ++ ":5000/rootDesc.xml" in
  let ip1 := NewWANIPConnection1ClientsByURL e u in
  let ip2 := NewWANIPConnection2ClientsByURL e u in
  let ppp1 := NewWANPPPConnection1ClientsByURL e u in
  (forall perr, url_Parse e u = Some perr ->
                getUPnPClient e gw = (None, Some perr, [])) /\
  (url_Parse e u = None ->
   snd (getUPnPClient e gw) = [CallClientsByURL u] /\
   (forall p ps, fst ip2 = p :: ps ->
      fst (getUPnPClient e gw) = (Some (WANIPConnection2 p), None)) /\
   (forall p ps, fst ip2 = [] -> fst ip1 = p :: ps ->
      fst (getUPnPClient e gw) = (Some (WANIPConnection1 p), None)) /\
   (forall p ps, fst ip2 = [] -> fst ip1 = [] -> fst ppp1 = p :: ps ->
      fst (getUPnPClient e gw) = (Some (WANPPPConnection1 p), None)) /\
   (fst ip2 = [] -> fst ip1 = [] -> fst ppp1 = [] ->
      fst (getUPnPClient e gw)
      = (None, match snd ip1, snd ip2, snd ppp1 with
               | Some err, _, _ => Some err
               | None, Some err, _ => Some err
               | None, None, r => r
               end))).
Proof.
  intros u ip1 ip2 ppp1. subst ip1 ip2 ppp1. unfold getUPnPClient. fold u.
  split.
  - intros perr ->. reflexivity.
  - intros ->.
    destruct (NewWANIPConnection1ClientsByURL e u) as [l1 e1].
    destruct (NewWANIPConnection2ClientsByURL e u) as [l2 e2].
    destruct (NewWANPPPConnection1ClientsByURL e u) as [l3 e3].
    simpl fst. simpl snd.
    split; [destruct l2, l1, l3; reflexivity|].
    split; [intros p ps ->; reflexivity|].
    split; [intros p ps -> ->; reflexivity|].
    split; [intros p ps -> -> ->; reflexivity|].
    intros -> -> ->. simpl. destruct e1, e2, e3; reflexivity.
Qed.

(** X25. Whatever goes wrong in [getUPnPPortMapping] (UPnP disabled, no
    client found, the router refusing the mapping, no external address, an
    address that does not parse), the caller gets the zero IPPort and the
    one error [NoMappingError{ErrNoPortMappingServices}], and the call has
    written nothing to the handle; with UPnP disabled nothing is sent
    either. *)
Theorem getUPnPPortMapping_failure e during c gw0 internal0 prevPort
        ext err c' t :
  getUPnPPortMapping e during c gw0 internal0 prevPort = (ext, Some err, c', t) ->
  ext = IPPort_zero /\
  err = NoMappingError ErrNoPortMappingServices /\
  c' = (if DisableUPnP e then c else during c) /\
  (DisableUPnP e = true -> t = []).
Proof.
  intros H. upnp_cases H; repeat split; auto; intros; discriminate.
Qed.

Lemma getUPnPPortMapping_failure_witness :
  getUPnPPortMapping (demo_env false [7%nat] []
                        (Some (extError "ConflictInMappingEntry")))
                     (fun c => c) demo_handle demo_gw demo_internal 0
  = (IPPort_zero, Some (NoMappingError ErrNoPortMappingServices), demo_handle,
     [CallClientsByURL "http://192.168.1.1:5000/rootDesc.xml";
      CallAddPortMapping (WANIPConnection1 7%nat)
        {| remoteHost := EmptyString; externalPort := 0; protocol := "udp";
           internalPort := 41641; internalClient := "192.168.1.1";
           enabled := true; portMappingDescription := "tailscale-portmap";
           leaseDuration := 7200000000000 |}]) /\
  IPPort_zero = IPPort_zero /\
  NoMappingError ErrNoPortMappingServices = NoMappingError ErrNoPortMappingServices.
Proof.
  assert (getUPnPPortMapping (demo_env false [7%nat] []
                                (Some (extError "ConflictInMappingEntry")))
                             (fun c => c) demo_handle demo_gw demo_internal 0
          = (IPPort_zero, Some (NoMappingError ErrNoPortMappingServices),
             demo_handle,
             [CallClientsByURL "http://192.168.1.1:5000/rootDesc.xml";
              CallAddPortMapping (WANIPConnection1 7%nat)
                {| remoteHost := EmptyString; externalPort := 0; protocol := "udp";
                   internalPort := 41641; internalClient := "192.168.1.1";
                   enabled := true; portMappingDescription := "tailscale-portmap";
                   leaseDuration := 7200000000000 |}])) as H
      by (vm_compute; reflexivity).
  split; [exact H|].
  destruct (getUPnPPortMapping_failure _ _ _ _ _ _ _ _ _ _ H) as (He & Hr & _).
  split; [exact He | exact Hr].
Defined.

(** X26. When [getUPnPPortMapping] succeeds UPnP was enabled, and the handle
    now stores a UPnP mapping for the gateway and internal address asked for
    whose external address is the one returned, with [localPort] the external
    port; the mapping is good for [pmpMapLifetimeSec] from the time of the
    call and due for renewal after half of it (rounded toward zero), and
    releasing it deletes the returned port, udp, on the client that answered
    the external-address query. *)
Theorem getUPnPPortMapping_success e during c gw0 internal0 prevPort ext c' t :
  getUPnPPortMapping e during c gw0 internal0 prevPort = (ext, None, c', t) ->
  DisableUPnP e = false /\
  exists m cl,
    Client_mapping c' = Some (mapping_upnp (Some m)) /\
    external m = ext /\ localPort c' = Port ext /\
    gw m = gw0 /\ internal m = internal0 /\
    goodUntil m = Now e + pmpMapLifetimeSec e * 1000000000 /\
    renewAfter m = Now e + Z.quot (pmpMapLifetimeSec e * 1000000000) 2 /\
    (0 <= pmpMapLifetimeSec e -> Now e <= renewAfter m <= goodUntil m) /\
    client m = Some cl /\
    last t (CallClientsByURL EmptyString) = CallGetExternalIPAddress cl /\
    (exists a, ParseIP e (fst (GetExternalIPAddress e cl)) = (a, None) /\
               IPPort_IP ext = a) /\
    release m = (Returns tt, [CallDeletePortMapping cl EmptyString (Port ext) "udp"]).
Proof.
  intros H. upnp_cases H. split; [reflexivity|].
  match goal with
  | Hg : GetExternalIPAddress e ?u = (?s, None),
    Hp : ParseIP e ?s = (?i, None) |- _ =>
      eexists; exists u; simpl;
      split; [reflexivity|]; simpl;
      split; [reflexivity|]; split; [reflexivity|]; split; [reflexivity|];
      split; [reflexivity|]; split; [reflexivity|]; split; [reflexivity|];
      split; [| split; [reflexivity|]; split; [| split]]
  end.
  - intros HL. unfold Add, Second.
    pose proof (Z.quot_pos (pmpMapLifetimeSec e * 1000000000) 2
                  ltac:(lia) ltac:(lia)).
    assert (pmpMapLifetimeSec e * 1000000000 ÷ 2
            <= pmpMapLifetimeSec e * 1000000000).
    { apply Z.quot_le_upper_bound; lia. }
    lia.
  - rewrite !app_assoc. apply last_last.
  - eexists. split; [| reflexivity].
    match goal with
    | Hg : GetExternalIPAddress _ _ = _ |- _ => rewrite Hg; simpl; assumption
    end.
  - reflexivity.
Qed.

Lemma getUPnPPortMapping_success_witness :
  exists c' t,
    getUPnPPortMapping (demo_env false [7%nat] [9%nat] None) (fun c => c)
                       demo_handle demo_gw demo_internal 0
    = (IPPortFrom (IP_addr 3405803783) 40000, None, c', t) /\
    localPort c' = 40000.
Proof.
  destruct (getUPnPPortMapping (demo_env false [7%nat] [9%nat] None) (fun c => c)
                               demo_handle demo_gw demo_internal 0)
    as [[[ext err] c'] t] eqn:H.
  assert (ext = IPPortFrom (IP_addr 3405803783) 40000 /\ err = None) as [-> ->].
  { vm_compute in H. injection H as <- <- _ _. split; reflexivity. }
  exists c', t. split; [reflexivity|].
  destruct (getUPnPPortMapping_success _ _ _ _ _ _ _ _ _ H)
    as (_ & m & cl & _ & _ & Hl & _).
  exact Hl.
Defined.

Lemma addAnyPortMapping_calls e upnp ext int icl lease np err t :
  addAnyPortMapping e upnp ext int icl lease = (np, err, t) ->
  existsb is_discovery t = false.
Proof.
  unfold addAnyPortMapping. intros H.
  destruct upnp; try (inversion H; subst; reflexivity).
  destruct (AddAnyPortMapping e p _). inversion H; subst. reflexivity.
Qed.

Lemma getUPnPClient_calls e gw0 cl err t :
  url_Parse e ("http://" ++ IP_String e gw0 ++ ":5000/rootDesc.xml") = None ->
  getUPnPClient e gw0 = (cl, err, t) ->
  existsb is_discovery t = true.
Proof.
  unfold getUPnPClient. intros -> H.
  destruct (NewWANIPConnection1ClientsByURL e _) as [l1 e1].
  destruct (NewWANIPConnection2ClientsByURL e _) as [l2 e2].
  destruct (NewWANPPPConnection1ClientsByURL e _) as [l3 e3].
  destruct l2, l1, l3; inversion H; subst; reflexivity.
Qed.

(** X27. With UPnP enabled and a gateway URL that parses,
    [getUPnPPortMapping] probes the gateway for clients exactly when the
    handle does not already hold a UPnP mapping; when it holds one, the new
    mapping is made with the old mapping's client, and an old mapping without
    a client fails without a single call. *)
Theorem getUPnPPortMapping_probes_without_mapping
        e during c gw0 internal0 prevPort ext err c' t :
  DisableUPnP e = false ->
  url_Parse e ("http://" ++ IP_String e gw0 ++ ":5000/rootDesc.xml") = None ->
  getUPnPPortMapping e during c gw0 internal0 prevPort = (ext, err, c', t) ->
  existsb is_discovery t
  = match Client_mapping c with
    | Some (mapping_upnp (Some _)) => false
    | _ => true
    end /\
  forall old, Client_mapping c = Some (mapping_upnp (Some old)) ->
    (client old = None -> t = [] /\ err <> None) /\
    (err = None ->
     exists m, Client_mapping c' = Some (mapping_upnp (Some m)) /\
               client m = client old).
Proof.
  intros Hdis Hurl H.
  unfold getUPnPPortMapping, noMapping in H. rewrite Hdis in H.
  destruct (match Client_mapping c with
            | Some (mapping_upnp (Some oldMapping)) => (client oldMapping, None, [])
            | _ => getUPnPClient e gw0
            end) as [[cl ferr] t1] eqn:Hf.
  assert (existsb is_discovery t1
          = match Client_mapping c with
            | Some (mapping_upnp (Some _)) => false
            | _ => true
            end /\
          forall old, Client_mapping c = Some (mapping_upnp (Some old)) ->
                      cl = client old /\ ferr = None /\ t1 = []) as [Ht1 Hold].
  { destruct (Client_mapping c) as [[[old|]|]|];
      try (split; [eapply getUPnPClient_calls; eauto | intros ? [=]]).
    inversion Hf; subst. split; [reflexivity|].
    intros old' [= <-]. auto. }
  clear Hf.
  destruct ferr as [fe|].
  { inversion H; subst. split; [exact Ht1|].
    intros old Ho. destruct (Hold old Ho) as (_ & Hn & _). discriminate. }
  destruct cl as [k|].
  2:{ inversion H; subst. split; [exact Ht1|].
      intros old Ho. destruct (Hold old Ho) as (_ & _ & ->).
      split; [intros _; split; [reflexivity | discriminate] | intros [=]]. }
  destruct (addAnyPortMapping e k prevPort (Port internal0)
              (IP_String e (IPPort_IP internal0)) (Second * pmpMapLifetimeSec e))
    as [[np aerr] t2] eqn:Ha.
  apply addAnyPortMapping_calls in Ha.
  assert (forall old, Client_mapping c = Some (mapping_upnp (Some old)) ->
                      client old = None -> t = [] /\ err <> None) as Hnone.
  { intros old Ho Hn. destruct (Hold old Ho) as (Hk & _). congruence. }
  destruct aerr as [ae|].
  { inversion H; subst. split.
    - rewrite existsb_app, Ha, Bool.orb_false_r. exact Ht1.
    - intros old Ho. split; [apply Hnone; exact Ho | intros [=]]. }
  destruct (GetExternalIPAddress e k) as [extIP gerr].
  destruct gerr as [ge|].
  { inversion H; subst. split.
    - rewrite !existsb_app, Ha, Ht1. simpl. rewrite !Bool.orb_false_r. reflexivity.
    - intros old Ho. split; [apply Hnone; exact Ho | intros [=]]. }
  destruct (ParseIP e extIP) as [eip perr].
  destruct perr as [pe|].
  { inversion H; subst. split.
    - rewrite !existsb_app, Ha, Ht1. simpl. rewrite !Bool.orb_false_r. reflexivity.
    - intros old Ho. split; [apply Hnone; exact Ho | intros [=]]. }
  inversion H; subst. split.
  - rewrite !existsb_app, Ha, Ht1. simpl. rewrite !Bool.orb_false_r. reflexivity.
  - intros old Ho. split; [apply Hnone; exact Ho |].
    intros _. eexists. split; [reflexivity|]. simpl.
    destruct (Hold old Ho) as (Hk & _). exact Hk.
Qed.

Lemma getUPnPPortMapping_probes_without_mapping_witness :
  exists ext err c' t,
    getUPnPPortMapping (demo_env false [] [9%nat] None) (fun c => c)
                       demo_mapped demo_gw demo_internal 41641
    = (ext, err, c', t) /\
    existsb is_discovery t = false.
Proof.
  destruct (getUPnPPortMapping (demo_env false [] [9%nat] None) (fun c => c)
                               demo_mapped demo_gw demo_internal 41641)
    as [[[ext err] c'] t] eqn:H.
  exists ext, err, c', t. split; [reflexivity|].
  assert (DisableUPnP (demo_env false [] [9%nat] None) = false) as Hd
      by reflexivity.
  assert (url_Parse (demo_env false [] [9%nat] None)
            ("http://" ++ IP_String (demo_env false [] [9%nat] None) demo_gw
                       ++ ":5000/rootDesc.xml") = None) as Hu by reflexivity.
  exact (proj1 (getUPnPPortMapping_probes_without_mapping
                  _ _ _ _ _ _ _ _ _ _ Hd Hu H)).
Defined.

(** X28. A successful [getUPnPPortMapping] asked the router once, for a udp
    mapping from external port [prevPort] to the internal address and port,
    open to any remote host and leased for [pmpMapLifetimeSec].  With a
    WANIPConnection2 client the port returned is the one the router chose;
    with the two older clients it is the internal port, whichever external
    port was asked for. *)
Theorem getUPnPPortMapping_reported_port
        e during c gw0 internal0 prevPort ext c' t :
  getUPnPPortMapping e during c gw0 internal0 prevPort = (ext, None, c', t) ->
  let r := {| remoteHost := EmptyString; externalPort := prevPort;
              protocol := "udp"; internalPort := Port internal0;
              internalClient := IP_String e (IPPort_IP internal0);
              enabled := true; portMappingDescription := "tailscale-portmap";
              leaseDuration := 1000000000 * pmpMapLifetimeSec e |} in
  exists cl t1,
    t = (t1 ++ [match cl with
                | WANIPConnection2 p => CallAddAnyPortMapping p r
                | _ => CallAddPortMapping cl r
                end; CallGetExternalIPAddress cl])%list /\
    (t1 = [] \/ t1 = [CallClientsByURL ("http://" ++ IP_String e gw0
                                                  ++ ":5000/rootDesc.xml")]) /\
    Port ext = match cl with
               | WANIPConnection2 p => fst (AddAnyPortMapping e p r)
               | _ => Port internal0
               end.
Proof.
  intros H r.
  unfold getUPnPPortMapping, noMapping in H.
  destruct (DisableUPnP e); [discriminate|].
  destruct (match Client_mapping c with
            | Some (mapping_upnp (Some oldMapping)) => (client oldMapping, None, [])
            | _ => getUPnPClient e gw0
            end) as [[cl ferr] t1] eqn:Hf.
  assert (t1 = [] \/ t1 = [CallClientsByURL ("http://" ++ IP_String e gw0
                                                       ++ ":5000/rootDesc.xml")])
    as Ht1.
  { assert (forall k fe l, getUPnPClient e gw0 = (k, fe, l) ->
              l = [] \/ l = [CallClientsByURL ("http://" ++ IP_String e gw0
                                                         ++ ":5000/rootDesc.xml")])
      as Hg.
    { unfold getUPnPClient. intros k fe l Hl.
      destruct (url_Parse e _); [inversion Hl; auto|].
      destruct (NewWANIPConnection1ClientsByURL e _) as [l1 e1].
      destruct (NewWANIPConnection2ClientsByURL e _) as [l2 e2].
      destruct (NewWANPPPConnection1ClientsByURL e _) as [l3 e3].
      destruct l2, l1, l3; inversion Hl; subst; auto. }
    destruct (Client_mapping c) as [[[old|]|]|]; eauto.
    inversion Hf; auto. }
  clear Hf.
  destruct ferr; [discriminate|]. destruct cl as [k|]; [|discriminate].
  exists k, t1.
  unfold addAnyPortMapping in H. fold r in H. unfold tsPortMappingDesc, Second in H.
  fold r in H.
  destruct k as [p|p|p].
  - destruct (AddPortMapping e (WANIPConnection1 p) r); [discriminate|].
    destruct (GetExternalIPAddress e _) as [extIP [ge|]]; [discriminate|].
    destruct (ParseIP e extIP) as [eip [pe|]]; [discriminate|].
    inversion H; subst. simpl. auto.
  - destruct (AddAnyPortMapping e p r) as [np [ae|]]; [discriminate|].
    destruct (GetExternalIPAddress e _) as [extIP [ge|]]; [discriminate|].
    destruct (ParseIP e extIP) as [eip [pe|]]; [discriminate|].
    inversion H; subst. simpl. auto.
  - destruct (AddPortMapping e (WANPPPConnection1 p) r); [discriminate|].
    destruct (GetExternalIPAddress e _) as [extIP [ge|]]; [discriminate|].
    destruct (ParseIP e extIP) as [eip [pe|]]; [discriminate|].
    inversion H; subst. simpl. auto.
Qed.

Lemma getUPnPPortMapping_reported_port_witness :
  exists c' t,
    getUPnPPortMapping (demo_env false [] [] None) (fun c => c)
                       demo_mapped demo_gw demo_internal 50000
    = (IPPortFrom (IP_addr 3405803783) 41641, None, c', t) /\
    exists cl t1,
      t = (t1 ++ [match cl with
                  | WANIPConnection2 p =>
                      CallAddAnyPortMapping p
                        {| remoteHost := EmptyString; externalPort := 50000;
                           protocol := "udp"; internalPort := 41641;
                           internalClient := "192.168.1.1"; enabled := true;
                           portMappingDescription := "tailscale-portmap";
                           leaseDuration := 7200000000000 |}
                  | _ =>
                      CallAddPortMapping cl
                        {| remoteHost := EmptyString; externalPort := 50000;
                           protocol := "udp"; internalPort := 41641;
                           internalClient := "192.168.1.1"; enabled := true;
                           portMappingDescription := "tailscale-portmap";
                           leaseDuration := 7200000000000 |}
                  end; CallGetExternalIPAddress cl])%list /\
      (t1 = [] \/ t1 = [CallClientsByURL "http://192.168.1.1:5000/rootDesc.xml"]) /\
      41641 = match cl with
              | WANIPConnection2 p => 40000
              | _ => 41641
              end.
Proof.
  destruct (getUPnPPortMapping (demo_env false [] [] None) (fun c => c)
                               demo_mapped demo_gw demo_internal 50000)
    as [[[ext err] c'] t] eqn:H.
  assert (ext = IPPortFrom (IP_addr 3405803783) 41641 /\ err = None) as (-> & ->).
  { vm_compute in H. injection H as <- <- _ _. split; reflexivity. }
  exists c', t. split; [reflexivity|].
  exact (getUPnPPortMapping_reported_port _ _ _ _ _ _ _ _ _ H).
Defined.
